(** * Hand2Note-Converter: the Pokerdom parser and the PokerStars writer

    A shallow embedding of [src/converter.py]: the segmenter
    ([PokerdomParser.parse]), the record extractor
    ([PokerdomParser._parse_one]) with its line patterns, and the renderer
    ([PokerStarsWriter.write]), followed by the properties of the
    specification that concern them.

    Modelling conventions.
    - Text is a [string] of bytes.  The character classes of the interpreter
      ([\d], [\s], case folding, line boundaries, [str.strip]) are given on
      the ASCII range; the three non-ASCII currency glyphs and the em-dash
      of the patterns are their UTF-8 byte sequences.
    - A Python [float] is a [spec_float] at binary64 ([prec = 53],
      [emax = 1024]); [float(s)] and the [.2f] format are exact
      round-to-nearest-even conversions from and to decimal.
    - A Python call that may raise returns an [outcome]. *)

From Stdlib Require Import ZArith NArith Lia Bool Ascii String List.
From Stdlib Require Import Floats.SpecFloat Numbers.DecimalString.
From stdpp Require Import base option list strings gmap fin_maps.

Local Open Scope string_scope.
Local Open Scope Z_scope.
#[local] Arguments String.append : simpl nomatch.

(** ** Outcomes of calls that may raise *)

Inductive exn : Type :=
| ValueError (msg : string)
| TypeError (msg : string)
| AttributeError (msg : string).

Inductive outcome (A : Type) : Type :=
| Returned (a : A)
| Raised (e : exn).
Arguments Returned {A} a.
Arguments Raised {A} e.

Definition obind {A B : Type} (x : outcome A) (f : A -> outcome B) : outcome B :=
  match x with
  | Returned a => f a
  | Raised e => Raised e
  end.

#[global] Instance outcome_ret : MRet outcome := @Returned.
#[global] Instance outcome_bind : MBind outcome := fun A B f x => obind x f.


(** [for x in xs: body] over a loop state, stopping at the first raise. *)
Fixpoint for_each {A S : Type} (body : S -> A -> outcome S) (xs : list A) (st : S)
  : outcome S :=
  match xs with
  | [] => Returned st
  | x :: xs' => st' ← body st x; for_each body xs' st'
  end.

(** ** Characters and strings *)

Module Str.

Definition code (c : ascii) : nat := nat_of_ascii c.

Definition is_digit (c : ascii) : bool :=
  (48 <=? code c)%nat && (code c <=? 57)%nat.

(** [str.isspace] on the ASCII range: TAB, LF, VT, FF, CR, FS, GS, RS, US
    and the space. *)
Definition is_space (c : ascii) : bool :=
  ((9 <=? code c)%nat && (code c <=? 13)%nat)
  || ((28 <=? code c)%nat && (code c <=? 32)%nat).

(** The line boundaries of [str.splitlines] on the ASCII range: LF, VT,
    FF, CR, FS, GS, RS. *)
Definition is_linebreak (c : ascii) : bool :=
  ((10 <=? code c)%nat && (code c <=? 13)%nat)
  || ((28 <=? code c)%nat && (code c <=? 30)%nat).

Definition lower_char (c : ascii) : ascii :=
  if (65 <=? code c)%nat && (code c <=? 90)%nat
  then ascii_of_nat (code c + 32) else c.

Definition upper_char (c : ascii) : ascii :=
  if (97 <=? code c)%nat && (code c <=? 122)%nat
  then ascii_of_nat (code c - 32) else c.

Fixpoint map (f : ascii -> ascii) (s : string) : string :=
  match s with
  | EmptyString => EmptyString
  | String c s' => String (f c) (map f s')
  end.

Definition lower : string -> string := map lower_char.
Definition upper : string -> string := map upper_char.

Fixpoint all (p : ascii -> bool) (s : string) : bool :=
  match s with
  | EmptyString => true
  | String c s' => p c && all p s'
  end.

Fixpoint mem (c : ascii) (s : string) : bool :=
  match s with
  | EmptyString => false
  | String d s' => Ascii.eqb c d || mem c s'
  end.

(** [s.lstrip(chars)], [s.rstrip(chars)] for a class of characters. *)
Fixpoint lstrip_by (p : ascii -> bool) (s : string) : string :=
  match s with
  | EmptyString => EmptyString
  | String c s' => if p c then lstrip_by p s' else s
  end.

Fixpoint rstrip_by (p : ascii -> bool) (s : string) : string :=
  match s with
  | EmptyString => EmptyString
  | String c s' =>
      match rstrip_by p s' with
      | EmptyString => if p c then EmptyString else String c EmptyString
      | t => String c t
      end
  end.

Definition rstrip (s : string) : string := rstrip_by is_space s.
Definition strip (s : string) : string := lstrip_by is_space (rstrip_by is_space s).

(** [needle in s]. *)
Fixpoint contains (needle s : string) : bool :=
  String.prefix needle s
  || match s with
     | EmptyString => false
     | String _ s' => contains needle s'
     end.

(** [sep.join(xs)]. *)
Fixpoint join (sep : string) (xs : list string) : string :=
  match xs with
  | [] => ""
  | [x] => x
  | x :: xs' => x ++ sep ++ join sep xs'
  end.

(** [s.splitlines()]: [cur] is the line being read, reversed.  CR LF is
    one boundary; a final line that ends at a boundary adds no empty
    line. *)
Fixpoint rev_append (r : list ascii) (s : string) : string :=
  match r with
  | [] => s
  | c :: r' => rev_append r' (String c s)
  end.

Fixpoint splitlines_aux (s : string) (cur : list ascii) : list string :=
  match s with
  | EmptyString => match cur with [] => [] | _ => [rev_append cur ""] end
  | String c s' =>
      if is_linebreak c then
        rev_append cur "" ::
          match s' with
          | String d s'' =>
              if Ascii.eqb c "013" && Ascii.eqb d "010"
              then splitlines_aux s'' []
              else splitlines_aux s' []
          | EmptyString => []
          end
      else splitlines_aux s' (c :: cur)
  end.

Definition splitlines (s : string) : list string := splitlines_aux s [].

End Str.

(** ** A backtracking matcher for the patterns

    The constructs the patterns of [PokerdomParser.PATTERNS] use, with the
    search order of the interpreter's engine: alternatives left to right,
    a greedy repetition longest first, a lazy one shortest first, and a
    named group bound to the text its body consumed on the path that
    succeeds. *)

Module Re.

(** Character classes, under [re.IGNORECASE]. *)
Inductive cls : Type :=
| CChar (c : ascii)                     (* a literal character *)
| CAny                                  (* . *)
| CDigit                                (* \d *)
| CNotDigit                             (* [^\d] *)
| CSpace                                (* \s *)
| COneOf (cs : string)                  (* [cs] *)
| CNoneOf (cs : string).                (* [^cs] *)

Definition cls_test (p : cls) (c : ascii) : bool :=
  match p with
  | CChar d => Ascii.eqb (Str.lower_char c) (Str.lower_char d)
  | CAny => negb (Ascii.eqb c "010")
  | CDigit => Str.is_digit c
  | CNotDigit => negb (Str.is_digit c)
  | CSpace => Str.is_space c
  | COneOf cs => Str.mem (Str.lower_char c) (Str.lower cs)
  | CNoneOf cs => negb (Str.mem (Str.lower_char c) (Str.lower cs))
  end.

Inductive regex : Type :=
| Bol                                   (* ^ *)
| Eps
| Cls (p : cls)                         (* one character of a class *)
| Seq (r1 r2 : regex)
| Alt (r1 r2 : regex)                   (* r1|r2 *)
| Rep (greedy : bool) (r : regex)       (* r* and r*? *)
| Grp (name : string) (r : regex).      (* (?P<name>r) *)

Abbreviation groups := (gmap string string).

(** [run r i s g k]: match [r] against [s], the text from offset [i] on,
    with the groups [g] bound so far, then continue with [k] on what is
    left; [None] makes the engine backtrack.  An iteration of a repetition
    has to consume a character, so the length of the text bounds their
    number. *)
Fixpoint run {R : Type} (r : regex) (i : nat) (s : string) (g : groups)
  (k : nat -> string -> groups -> option R) : option R :=
  match r with
  | Bol => if (i =? 0)%nat then k i s g else None
  | Eps => k i s g
  | Cls p =>
      match s with
      | String c s' => if cls_test p c then k (S i) s' g else None
      | EmptyString => None
      end
  | Seq r1 r2 => run r1 i s g (fun j t h => run r2 j t h k)
  | Alt r1 r2 =>
      match run r1 i s g k with
      | Some h => Some h
      | None => run r2 i s g k
      end
  | Rep greedy r1 =>
      (fix loop (fuel : nat) (i : nat) (s : string) (g : groups) : option R :=
         match fuel with
         | O => k i s g
         | S fuel' =>
             if greedy then
               match run r1 i s g
                       (fun j t h => if (i <? j)%nat then loop fuel' j t h else None) with
               | Some h => Some h
               | None => k i s g
               end
             else
               match k i s g with
               | Some h => Some h
               | None =>
                   run r1 i s g
                     (fun j t h => if (i <? j)%nat then loop fuel' j t h else None)
               end
         end) (String.length s) i s g
  | Grp name r1 =>
      run r1 i s g (fun j t h => k j t (<[name := substring 0 (j - i) s]> h))
  end.

(** [pattern.search(s)]: the leftmost start at which the pattern
    matches. *)
Fixpoint search_from (r : regex) (i : nat) (s : string) : option groups :=
  match run r i s ∅ (fun _ _ h => Some h) with
  | Some h => Some h
  | None =>
      match s with
      | String _ s' => search_from r (S i) s'
      | EmptyString => None
      end
  end.

Definition search (r : regex) (s : string) : option groups := search_from r 0 s.

(** The names in [m.groupdict()]. *)
Fixpoint group_names (r : regex) : list string :=
  match r with
  | Bol | Eps | Cls _ => []
  | Seq r1 r2 | Alt r1 r2 => group_names r1 ++ group_names r2
  | Rep _ r1 => group_names r1
  | Grp name r1 => name :: group_names r1
  end.

(** What a successful path of [run] through [r] does: from offset [i]
    with [s] left and groups [g], to offset [j] with [t] left and groups
    [h]. *)
Inductive Matches : regex -> nat -> string -> groups -> nat -> string -> groups -> Prop :=
| M_Bol s g : Matches Bol 0 s g 0 s g
| M_Eps i s g : Matches Eps i s g i s g
| M_Cls p c i s g :
    cls_test p c = true -> Matches (Cls p) i (String c s) g (S i) s g
| M_Seq r1 r2 i s g j t h k u h' :
    Matches r1 i s g j t h -> Matches r2 j t h k u h' ->
    Matches (Seq r1 r2) i s g k u h'
| M_AltL r1 r2 i s g j t h :
    Matches r1 i s g j t h -> Matches (Alt r1 r2) i s g j t h
| M_AltR r1 r2 i s g j t h :
    Matches r2 i s g j t h -> Matches (Alt r1 r2) i s g j t h
| M_Rep0 b r i s g : Matches (Rep b r) i s g i s g
| M_RepS b r i s g j t h k u h' :
    Matches r i s g j t h -> (i < j)%nat -> Matches (Rep b r) j t h k u h' ->
    Matches (Rep b r) i s g k u h'
| M_Grp n r i s g j t h :
    Matches r i s g j t h ->
    Matches (Grp n r) i s g j t (<[n := substring 0 (j - i) s]> h).

(** The groups bound on every path through [r]. *)
Fixpoint bound (r : regex) : list string :=
  match r with
  | Bol | Eps | Cls _ | Rep _ _ => []
  | Seq r1 r2 => bound r1 ++ bound r2
  | Alt r1 r2 => list_intersection (bound r1) (bound r2)
  | Grp name r1 => name :: bound r1
  end.

(** [r] consumes digits only, and at least one of them. *)
Definition digit_cls (p : cls) : bool :=
  match p with
  | CDigit => true
  | COneOf cs => Str.all Str.is_digit cs
  | _ => false
  end.

Fixpoint digits_or_empty (r : regex) : bool :=
  match r with
  | Bol | Eps => true
  | Cls p => digit_cls p
  | Seq r1 r2 | Alt r1 r2 => digits_or_empty r1 && digits_or_empty r2
  | Rep _ r1 | Grp _ r1 => digits_or_empty r1
  end.

Fixpoint digits_only (r : regex) : bool :=
  match r with
  | Bol | Eps | Rep _ _ => false
  | Cls p => digit_cls p
  | Seq r1 r2 =>
      (digits_only r1 && digits_or_empty r2) || (digits_or_empty r1 && digits_only r2)
  | Alt r1 r2 => digits_only r1 && digits_only r2
  | Grp _ r1 => digits_only r1
  end.

(** The named groups of [r], each with its body. *)
Fixpoint group_bodies (r : regex) : list (string * regex) :=
  match r with
  | Bol | Eps | Cls _ => []
  | Seq r1 r2 | Alt r1 r2 => group_bodies r1 ++ group_bodies r2
  | Rep _ r1 => group_bodies r1
  | Grp name r1 => (name, r1) :: group_bodies r1
  end.

(** Every group of [r] with the name [name] has a body that passes
    [check]. *)
Definition bodies_pass (check : regex -> bool) (name : string) (r : regex) : bool :=
  forallb (fun nb => negb (String.eqb (fst nb) name) || check (snd nb)) (group_bodies r).

#[global] Instance cls_eq_dec : EqDecision cls.
Proof. solve_decision. Defined.

#[global] Instance regex_eq_dec : EqDecision regex.
Proof. solve_decision. Defined.

(** Derived forms. *)
Definition plus (greedy : bool) (r : regex) : regex := Seq r (Rep greedy r).
Definition opt (r : regex) : regex := Alt r Eps.        (* r? *)
Fixpoint seqs (rs : list regex) : regex :=
  match rs with
  | [] => Eps
  | [r] => r
  | r :: rs' => Seq r (seqs rs')
  end.
Fixpoint alts (rs : list regex) : regex :=
  match rs with
  | [] => Eps
  | [r] => r
  | r :: rs' => Alt r (alts rs')
  end.

Definition chr (c : ascii) : regex := Cls (CChar c).
Fixpoint lit (s : string) : regex :=
  match s with
  | EmptyString => Eps
  | String c EmptyString => chr c
  | String c s' => Seq (chr c) (lit s')
  end.
Definition digit : regex := Cls CDigit.
Definition space : regex := Cls CSpace.
Definition dot : regex := Cls CAny.
Definition oneof (cs : string) : regex := Cls (COneOf cs).
Definition noneof (cs : string) : regex := Cls (CNoneOf cs).

(** [pattern.match(s)]: a match at the start of [s]; the text left
    over comes with the groups. *)
Definition match_prefix (r : regex) (s : string) : option (groups * string) :=
  run r 0 s ∅ (fun _ t h => Some (h, t)).

End Re.

(** ** [PokerdomParser.PATTERNS]

    Every pattern is compiled with [re.IGNORECASE].  The two groups
    without a name, around the game name of [hand_header] and around the
    dash of [max_players], are read nowhere and bind nothing here. *)

Module Patterns.
Import Re.

(** [\d+(?:\.\d+)?] *)
Definition number : regex :=
  Seq (plus true digit) (opt (Seq (chr ".") (plus true digit))).

(** [[$€£¥]?] *)
Definition cur_opt : regex := opt (alts [lit "$"; lit "€"; lit "£"; lit "¥"]).

Definition digits (n : nat) : regex := seqs (repeat digit n).
Definition holdem : regex := Alt (lit "Hold'em") (lit "Holdem").
Definition rank : regex := oneof "23456789TJQKA".
Definition suit : regex := oneof "cdhs".

Definition hand_header : regex :=
  seqs [Bol; lit "Game"; Rep true space; opt (oneof "#:"); Rep true space;
        Grp "hid" (plus true digit); Rep true dot; holdem; Rep true dot;
        Grp "sb" number; oneof "/ "; Grp "bb" number; Rep true dot;
        Grp "date" (seqs [digits 4; oneof "-/"; digits 2; oneof "-/"; digits 2;
                          Rep true dot; digits 2; chr ":"; digits 2; chr ":";
                          digits 2])].

Definition alt_header : regex :=
  seqs [Bol;
        Grp "date" (seqs [digits 4; oneof "./-"; digits 2; oneof "./-"; digits 2]);
        Rep false dot; chr "-"; Rep true space; Grp "game" holdem; Rep true dot;
        Grp "sb" number; Cls CNotDigit; Grp "bb" number].

Definition table_btn : regex :=
  seqs [Bol; lit "Table"; plus true space; opt (chr "'");
        Grp "table" (plus true (noneof "'")); opt (chr "'"); Rep true dot;
        lit "Seat"; plus true space; chr "#"; Grp "button" (plus true digit)].

Definition seat : regex :=
  seqs [Bol; lit "Seat"; plus true space; Grp "num" (plus true digit); chr ":";
        plus true space; Grp "name" (plus false dot); plus true space; chr "(";
        Grp "cur" cur_opt; Grp "stack" number; chr ")"].

Definition posts : regex :=
  seqs [Bol; Grp "name" (plus false dot); chr ":"; plus true space; lit "posts";
        plus true space; Grp "which" (Alt (lit "small blind") (lit "big blind"));
        plus true space; Grp "cur" cur_opt; Grp "amt" number].

Definition dealt : regex :=
  seqs [Bol; lit "Dealt to"; plus true space; Grp "name" (plus false dot);
        plus true space; chr "[";
        Grp "cards" (seqs [rank; suit; plus true space; rank; suit]); chr "]"].

Definition street : regex :=
  seqs [Bol; lit "***"; plus true space;
        Grp "street" (alts [lit "HOLE CARDS"; lit "FLOP"; lit "TURN"; lit "RIVER";
                            lit "SHOW DOWN"; lit "SHOWDOWN"; lit "SUMMARY"]);
        plus true space; lit "***";
        opt (seqs [plus true space; chr "["; Grp "board" (plus true (noneof "]"));
                   chr "]"])].

Definition action : regex :=
  seqs [Bol; Grp "name" (plus false dot); chr ":"; plus true space;
        Grp "verb" (alts [lit "folds"; lit "calls"; lit "checks"; lit "bets";
                          lit "raises to"; lit "raises"; lit "collected"]);
        opt (seqs [plus true space; Grp "cur" cur_opt; Grp "amt" number])].

Definition show : regex :=
  seqs [Bol; Grp "name" (plus false dot); plus true space; lit "showed";
        plus true space; chr "["; Grp "cards" (plus true (noneof "]")); chr "]"].

Definition collected : regex :=
  seqs [Bol; Grp "name" (plus false dot); plus true space; lit "collected";
        plus true space; Grp "cur" cur_opt; Grp "amt" number].

Definition max_players : regex :=
  seqs [Alt (chr "-") (lit "—"); Rep true space; Grp "max" (oneof "0123456789");
        lit "max"].

End Patterns.

(** ** Numbers: [int(s)], [float(s)] and the [.2f] format *)

Module Num.

Fixpoint digits_value (s : string) (acc : Z) : Z :=
  match s with
  | EmptyString => acc
  | String c s' => digits_value s' (10 * acc + (Z.of_nat (Str.code c) - 48))
  end.

Definition is_digits (s : string) : bool :=
  negb (String.eqb s "") && Str.all Str.is_digit s.

(** [int(s)] on the strings of the grammar [\d+], the only ones the code
    converts.  The limit that recent interpreters put on the number of
    digits of such a conversion is a setting of the interpreter and is
    left out. *)
Definition py_int (s : string) : outcome Z :=
  if is_digits s then Returned (digits_value s 0)
  else Raised (ValueError ("invalid literal for int() with base 10: " ++ s)).

(** The quotient [n / d] rounded to the nearest integer, ties to even
    ([0 <= n], [0 < d]). *)
Definition div_half_even (n d : Z) : Z :=
  let q := n / d in
  let r := n mod d in
  if 2 * r <? d then q
  else if d <? 2 * r then q + 1
  else if Z.even q then q else q + 1.

Definition prec : Z := 53.
Definition emax : Z := 1024.
Definition emin : Z := 3 - emax - prec.

(** The binary64 number nearest to [n / d], ties to even ([0 < d]). *)
Definition of_ratio (neg : bool) (n d : Z) : spec_float :=
  if n <=? 0 then S754_zero neg
  else
    let l := Z.log2 n - Z.log2 d in
    let scaled_ge (e : Z) (b : Z) : bool :=      (* b <= n / (d * 2^e) *)
      if 0 <=? e then b * d * 2 ^ e <=? n else b * d <=? n * 2 ^ (- e) in
    let e := if scaled_ge (l - 52) (2 ^ 52) then l - 52 else l - 53 in
    let e := Z.max e emin in
    let m := if 0 <=? e then div_half_even n (d * 2 ^ e)
             else div_half_even (n * 2 ^ (- e)) d in
    if m =? 0 then S754_zero neg
    else if 2 ^ emax <=? m * 2 ^ e then S754_infinity neg
    else S754_finite neg (Z.to_pos m) e.

(** The decimal literals [-?\d+(\.\d+)?]. *)
Fixpoint split_dot (s : string) : string * option string :=
  match s with
  | EmptyString => (EmptyString, None)
  | String c s' =>
      if Ascii.eqb c "." then (EmptyString, Some s')
      else let '(a, b) := split_dot s' in (String c a, b)
  end.

Definition unsigned_decimal (s : string) : option (Z * Z) :=
  match split_dot s with
  | (ip, None) => if is_digits ip then Some (digits_value ip 0, 1) else None
  | (ip, Some fp) =>
      if is_digits ip && is_digits fp
      then Some (digits_value (ip ++ fp) 0, 10 ^ Z.of_nat (String.length fp))
      else None
  end.

(** [float(s)] on the strings of that grammar, the only ones a capture
    group of the patterns holds. *)
Definition py_float (s : string) : outcome spec_float :=
  let '(neg, body) :=
    match s with
    | String "-" s' => (true, s')
    | _ => (false, s)
    end in
  match unsigned_decimal body with
  | Some (n, d) => Returned (of_ratio neg n d)
  | None => Raised (ValueError ("could not convert string to float: " ++ s))
  end.

(** [bool(x)] of a float. *)
Definition truthy (x : spec_float) : bool :=
  match x with
  | S754_zero _ => false
  | _ => true
  end.

Definition Z_to_string (n : Z) : string := NilZero.string_of_uint (N.to_uint (Z.to_N n)).

Definition two_digits (n : Z) : string :=
  Z_to_string (n / 10) ++ Z_to_string (n mod 10).

(** [hundredths] is the magnitude in hundredths, already rounded. *)
Definition fixed2 (neg : bool) (hundredths : Z) : string :=
  (if neg then "-" else "") ++ Z_to_string (hundredths / 100) ++ "."
    ++ two_digits (hundredths mod 100).

(** [f"{x:.2f}"]. *)
Definition format_2f (x : spec_float) : string :=
  match x with
  | S754_zero neg => fixed2 neg 0
  | S754_infinity neg => if neg then "-inf" else "inf"
  | S754_nan => "nan"
  | S754_finite neg m e =>
      fixed2 neg (if 0 <=? e then Z.pos m * 2 ^ e * 100
                  else div_half_even (Z.pos m * 100) (2 ^ (- e)))
  end.

(** [f"{n}"] of an [int]. *)
Definition format_int (n : Z) : string :=
  if n <? 0 then "-" ++ Z_to_string (- n) else Z_to_string n.

(** [n] zero-padded to [width] digits, as [strftime] pads its fields. *)
Definition pad0 (width : nat) (n : Z) : string :=
  let s := Z_to_string n in
  String.concat "" (repeat "0" (width - String.length s)) ++ s.

End Num.

(** ** Dates: [datetime.strptime] and [strftime] *)

Module Time.
Import Re.

Record datetime : Type := mk_datetime {
  year : Z; month : Z; day : Z; hour : Z; minute : Z; second : Z
}.

Definition range (lo hi : string) : regex := Seq (oneof lo) (oneof hi).
Definition d09 : string := "0123456789".
Definition d19 : string := "123456789".

(** The pattern of a directive, as the interpreter's [_strptime] builds
    it.  For [%Z] the zone names are those of an interpreter whose local
    zone is UTC. *)
Definition directive (d : ascii) : regex :=
  match d with
  | "Y" => Grp "Y" (seqs [digit; digit; digit; digit])
  | "m" => Grp "m" (alts [range "1" "012"; range "0" d19; oneof d19])
  | "d" => Grp "d" (alts [range "3" "01"; Seq (oneof "12") digit; range "0" d19;
                          oneof d19; Seq (chr " ") (oneof d19)])
  | "H" => Grp "H" (alts [range "2" "0123"; Seq (oneof "01") digit; digit])
  | "M" => Grp "M" (alts [Seq (oneof "012345") digit; digit])
  | "S" => Grp "S" (alts [range "6" "01"; Seq (oneof "012345") digit; digit])
  | "Z" => Grp "Z" (alts [lit "utc"; lit "gmt"])
  | c => chr c
  end%char.

Fixpoint compile_format (f : string) : regex :=
  match f with
  | EmptyString => Eps
  | String "%" (String d f') => Seq (directive d) (compile_format f')
  | String c f' =>
      Seq (if Str.is_space c then plus true space else chr c) (compile_format f')
  end.

Definition is_leap (y : Z) : bool :=
  (y mod 4 =? 0) && (negb (y mod 100 =? 0) || (y mod 400 =? 0)).

Definition days_in_month (y m : Z) : Z :=
  if m =? 2 then (if is_leap y then 29 else 28)
  else if (m =? 4) || (m =? 6) || (m =? 9) || (m =? 11) then 30 else 31.

Definition field (g : groups) (name : string) (default : Z) : Z :=
  match g !! name with
  | Some v => Num.digits_value (Str.strip v) 0
  | None => default
  end.

(** [datetime.strptime(s, f)]: the whole of [s] must be consumed and the
    fields must make a date. *)
Definition strptime (s f : string) : outcome datetime :=
  match match_prefix (compile_format f) s with
  | None => Raised (ValueError "time data does not match format")
  | Some (g, rest) =>
      if negb (String.eqb rest "") then Raised (ValueError "unconverted data remains")
      else
        let dt := mk_datetime (field g "Y" 1900) (field g "m" 1) (field g "d" 1)
                    (field g "H" 0) (field g "M" 0) (field g "S" 0) in
        if (1 <=? year dt) && (day dt <=? days_in_month (year dt) (month dt))
           && (second dt <=? 59)
        then Returned dt
        else Raised (ValueError "date value out of range")
  end.

(** [dt.strftime("%Y/%m/%d %H:%M:%S ET")]; the year is written without
    padding, as the C library of Linux writes it. *)
Definition strftime_et (dt : datetime) : string :=
  Num.format_int (year dt) ++ "/" ++ Num.pad0 2 (month dt) ++ "/"
    ++ Num.pad0 2 (day dt) ++ " " ++ Num.pad0 2 (hour dt) ++ ":"
    ++ Num.pad0 2 (minute dt) ++ ":" ++ Num.pad0 2 (second dt) ++ " ET".

End Time.

(** ** Data models *)

Abbreviation float := spec_float.

Record Seat : Type := mk_Seat {
  num : Z;
  name : string;
  stack : option float
}.

Record Action : Type := mk_Action {
  street : string;               (* PREFLOP/FLOP/TURN/RIVER/SHOWDOWN/SUMMARY *)
  actor : string;
  verb : string;                 (* folds/calls/raises/bets/checks/collected/... *)
  amount : option float;
  to_amount : option float;
  cards : option string;
  raw : string                   (* original line *)
}.

Record Hand : Type := mk_Hand {
  site : string;
  hand_id : option string;
  game : string;
  stakes : float * float;
  currency : string;
  date_utc : option Time.datetime;
  table_name : option string;
  max_players : option Z;
  button_seat : option Z;
  seats : list Seat;
  blinds : gmap string (string * float);
  hero : option string;
  hero_hole : option string;
  board : gmap string string;
  actions : list Action;
  pots : gmap string float
}.

Definition zero : float := S754_zero false.

(** ** Utilities *)

Definition CURRENCY_SIGNS : gmap string string :=
  {[ "$" := "$"; "€" := "€"; "£" := "£"; "¥" := "¥" ]}.

(** [m.group(name)] is [None] for a group that took no part in the match.
    Where the code calls a [str] method on it, [None] has no such
    attribute; where it converts it with [int] or [float], [None] is no
    argument for them. *)
Definition group_str (m : Re.groups) (name : string) : outcome string :=
  match m !! name with
  | Some v => Returned v
  | None => Raised (AttributeError "'NoneType' object has no attribute")
  end.

Definition int_of (s : option string) : outcome Z :=
  match s with
  | Some v => Num.py_int v
  | None => Raised (TypeError "int() argument must be a string or a real number")
  end.

Definition float_of (s : option string) : outcome float :=
  match s with
  | Some v => Num.py_float v
  | None => Raised (TypeError "float() argument must be a string or a real number")
  end.

(** [x or y] on strings. *)
Definition str_or (x : option string) (y : string) : string :=
  match x with
  | Some v => if String.eqb v "" then y else v
  | None => y
  end.

(** [bool(x)] of an optional string. *)
Definition nonempty (x : option string) : bool :=
  match x with
  | Some v => negb (String.eqb v "")
  | None => false
  end.



Definition safe_float (s : option string) (default : float) : float :=
  match float_of s with
  | Returned x => x
  | Raised _ => default
  end.

Definition normalize_name (name : string) : string :=
  Str.rstrip_by (Ascii.eqb ":") (Str.strip name).

(** [Hand()]: the defaults of the dataclass. *)
Definition new_Hand : Hand :=
  {| site := "Pokerdom"; hand_id := None; game := "Hold'em No Limit";
     stakes := (zero, zero); currency := "$"; date_utc := None;
     table_name := None; max_players := None; button_seat := None;
     seats := []; blinds := ∅; hero := None; hero_hole := None; board := ∅;
     actions := []; pots := ∅ |}.

(** Assignments [h.field = v]. *)
Definition set_hand_id (v : option string) (h : Hand) : Hand :=
  mk_Hand (site h) v (game h) (stakes h) (currency h) (date_utc h)
    (table_name h) (max_players h) (button_seat h) (seats h) (blinds h)
    (hero h) (hero_hole h) (board h) (actions h) (pots h).
Definition set_game (v : string) (h : Hand) : Hand :=
  mk_Hand (site h) (hand_id h) v (stakes h) (currency h) (date_utc h)
    (table_name h) (max_players h) (button_seat h) (seats h) (blinds h)
    (hero h) (hero_hole h) (board h) (actions h) (pots h).
Definition set_stakes (v : float * float) (h : Hand) : Hand :=
  mk_Hand (site h) (hand_id h) (game h) v (currency h) (date_utc h)
    (table_name h) (max_players h) (button_seat h) (seats h) (blinds h)
    (hero h) (hero_hole h) (board h) (actions h) (pots h).
Definition set_currency (v : string) (h : Hand) : Hand :=
  mk_Hand (site h) (hand_id h) (game h) (stakes h) v (date_utc h)
    (table_name h) (max_players h) (button_seat h) (seats h) (blinds h)
    (hero h) (hero_hole h) (board h) (actions h) (pots h).
Definition set_date_utc (v : option Time.datetime) (h : Hand) : Hand :=
  mk_Hand (site h) (hand_id h) (game h) (stakes h) (currency h) v
    (table_name h) (max_players h) (button_seat h) (seats h) (blinds h)
    (hero h) (hero_hole h) (board h) (actions h) (pots h).
Definition set_table_name (v : option string) (h : Hand) : Hand :=
  mk_Hand (site h) (hand_id h) (game h) (stakes h) (currency h) (date_utc h)
    v (max_players h) (button_seat h) (seats h) (blinds h) (hero h)
    (hero_hole h) (board h) (actions h) (pots h).
Definition set_max_players (v : option Z) (h : Hand) : Hand :=
  mk_Hand (site h) (hand_id h) (game h) (stakes h) (currency h) (date_utc h)
    (table_name h) v (button_seat h) (seats h) (blinds h) (hero h)
    (hero_hole h) (board h) (actions h) (pots h).
Definition set_button_seat (v : option Z) (h : Hand) : Hand :=
  mk_Hand (site h) (hand_id h) (game h) (stakes h) (currency h) (date_utc h)
    (table_name h) (max_players h) v (seats h) (blinds h) (hero h)
    (hero_hole h) (board h) (actions h) (pots h).
Definition set_seats (v : list Seat) (h : Hand) : Hand :=
  mk_Hand (site h) (hand_id h) (game h) (stakes h) (currency h) (date_utc h)
    (table_name h) (max_players h) (button_seat h) v (blinds h) (hero h)
    (hero_hole h) (board h) (actions h) (pots h).
Definition set_blinds (v : gmap string (string * float)) (h : Hand) : Hand :=
  mk_Hand (site h) (hand_id h) (game h) (stakes h) (currency h) (date_utc h)
    (table_name h) (max_players h) (button_seat h) (seats h) v (hero h)
    (hero_hole h) (board h) (actions h) (pots h).
Definition set_hero (v : option string) (h : Hand) : Hand :=
  mk_Hand (site h) (hand_id h) (game h) (stakes h) (currency h) (date_utc h)
    (table_name h) (max_players h) (button_seat h) (seats h) (blinds h) v
    (hero_hole h) (board h) (actions h) (pots h).
Definition set_hero_hole (v : option string) (h : Hand) : Hand :=
  mk_Hand (site h) (hand_id h) (game h) (stakes h) (currency h) (date_utc h)
    (table_name h) (max_players h) (button_seat h) (seats h) (blinds h)
    (hero h) v (board h) (actions h) (pots h).
Definition set_board (v : gmap string string) (h : Hand) : Hand :=
  mk_Hand (site h) (hand_id h) (game h) (stakes h) (currency h) (date_utc h)
    (table_name h) (max_players h) (button_seat h) (seats h) (blinds h)
    (hero h) (hero_hole h) v (actions h) (pots h).
Definition set_actions (v : list Action) (h : Hand) : Hand :=
  mk_Hand (site h) (hand_id h) (game h) (stakes h) (currency h) (date_utc h)
    (table_name h) (max_players h) (button_seat h) (seats h) (blinds h)
    (hero h) (hero_hole h) (board h) v (pots h).

(** ** The Pokerdom parser *)

Module PokerdomParser.

Definition fmts : list string :=
  ["%Y-%m-%d %H:%M:%S";
   "%Y/%m/%d %H:%M:%S";
   "%Y.%m.%d %H:%M:%S";
   "%Y-%m-%d %H:%M:%S %Z";
   "%Y/%m/%d %H:%M:%S %Z"].

Fixpoint first_format (s : string) (fs : list string) : option Time.datetime :=
  match fs with
  | [] => None
  | f :: fs' =>
      match Time.strptime s f with
      | Returned dt => Some dt
      | Raised _ => first_format s fs'
      end
  end.

(** [strptime(None, f)] raises too, and the loop swallows it. *)
Definition _try_parse_dt (s : option string) : option Time.datetime :=
  match s with
  | Some v => first_format v fmts
  | None => None
  end.

(** The header of the first line: [hand_header], else [alt_header]. *)
Definition header_match (line0 : string) : option (Re.regex * Re.groups) :=
  match Re.search Patterns.hand_header line0 with
  | Some m => Some (Patterns.hand_header, m)
  | None =>
      match Re.search Patterns.alt_header line0 with
      | Some m => Some (Patterns.alt_header, m)
      | None => None
      end
  end.

Definition parse_header (line0 : string) (h : Hand) : Hand :=
  match header_match line0 with
  | Some (pat, m) =>
      let h := set_hand_id (m !! "hid") h in
      let sb := m !! "sb" in
      let bb := m !! "bb" in
      let h := set_stakes (safe_float sb zero, safe_float bb zero) h in
      let date_raw := m !! "date" in
      let h := set_date_utc (_try_parse_dt date_raw) h in
      if bool_decide ("game" ∈ Re.group_names pat) && nonempty (m !! "game")
      then set_game "Hold'em No Limit" h
      else h
  | None => h
  end.

(** The loop bodies of [_parse_one], one per scan. *)
Definition table_step (h : Hand) (ln : string) : outcome Hand :=
  h ← match Re.search Patterns.table_btn ln with
      | Some tm =>
          table ← group_str tm "table";
          n ← int_of (tm !! "button");
          Returned (set_button_seat (Some n) (set_table_name (Some (Str.strip table)) h))
      | None => Returned h
      end;
  match Re.search Patterns.max_players ln with
  | Some mm =>
      n ← int_of (mm !! "max");
      Returned (set_max_players (Some n) h)
  | None => Returned h
  end.

Definition seat_step (h : Hand) (ln : string) : outcome Hand :=
  match Re.search Patterns.seat ln with
  | Some sm =>
      n ← int_of (sm !! "num");
      name ← group_str sm "name";
      Returned (set_seats
                  (seats h ++ [mk_Seat n (normalize_name name)
                                 (Some (safe_float (sm !! "stack") zero))])%list h)
  | None => Returned h
  end.

Definition posts_step (h : Hand) (ln : string) : outcome Hand :=
  match Re.search Patterns.posts ln with
  | Some pm =>
      which ← group_str pm "which";
      let which := Str.lower which in
      name ← group_str pm "name";
      let name := normalize_name name in
      let h := set_currency (str_or (pm !! "cur") (currency h)) h in
      let amt := safe_float (pm !! "amt") zero in
      if Str.contains "small" which
      then Returned (set_blinds (<["SB" := (name, amt)]> (blinds h)) h)
      else Returned (set_blinds (<["BB" := (name, amt)]> (blinds h)) h)
  | None => Returned h
  end.

Definition dealt_step (h : Hand) (ln : string) : outcome Hand :=
  match Re.search Patterns.dealt ln with
  | Some dm =>
      name ← group_str dm "name";
      cards ← group_str dm "cards";
      Returned (set_hero_hole (Some (Str.strip cards))
                  (set_hero (Some (normalize_name name)) h))
  | None => Returned h
  end.

Definition street_of_tag (tag : string) : string :=
  if Str.contains "FLOP" tag then "FLOP"
  else if Str.contains "TURN" tag then "TURN"
  else if Str.contains "RIVER" tag then "RIVER"
  else if Str.contains "SHOW" tag then "SHOWDOWN"
  else if Str.contains "SUMMARY" tag then "SUMMARY"
  else "PREFLOP".

(** The state of the last scan is the local [street] and the hand. *)
Definition action_step (state : string * Hand) (ln : string)
  : outcome (string * Hand) :=
  let '(street, h) := state in
  match Re.search Patterns.street ln with
  | Some st =>
      tag ← group_str st "street";
      let tag := Str.upper tag in
      let street := street_of_tag tag in
      match st !! "board" with
      | Some b =>
          if negb (String.eqb b "")
          then Returned (street,
                         set_board (<[street := "[" ++ Str.strip b ++ "]"]> (board h)) h)
          else Returned (street, h)
      | None => Returned (street, h)
      end
  | None =>
  match Re.search Patterns.action ln with
  | Some am =>
      name ← group_str am "name";
      let name := normalize_name name in
      verb ← group_str am "verb";
      let verb := Str.lower verb in
      let amt := if nonempty (am !! "amt")
                 then Some (safe_float (am !! "amt") zero) else None in
      let verb := if Str.contains "raises to" verb then "raises" else verb in
      Returned (street,
                set_actions
                  (actions h ++ [mk_Action street name verb amt None None ln])%list h)
  | None =>
  match Re.search Patterns.collected ln with
  | Some cm =>
      name ← group_str cm "name";
      let name := normalize_name name in
      let amt := safe_float (cm !! "amt") zero in
      Returned (street,
                set_actions
                  (actions h ++
                     [mk_Action "SUMMARY" name "collected" (Some amt) None None ln])%list
                  h)
  | None =>
  match Re.search Patterns.show ln with
  | Some sh =>
      name ← group_str sh "name";
      let name := normalize_name name in
      let cards := sh !! "cards" in
      Returned (street,
                set_actions
                  (actions h ++
                     [mk_Action "SHOWDOWN" name "showed" None None cards ln])%list
                  h)
  | None => Returned (street, h)
  end end end end.

(** [[l.rstrip() for l in hand_text.splitlines() if l.strip() != ""]] *)
Definition lines_of (hand_text : string) : list string :=
  List.map Str.rstrip
    (List.filter (fun l => negb (String.eqb (Str.strip l) ""))
       (Str.splitlines hand_text)).

Definition _parse_one (hand_text : string) : outcome (option Hand) :=
  let h := new_Hand in
  let lines := lines_of hand_text in
  match lines with
  | [] => Returned None
  | line0 :: _ =>
      let h := parse_header line0 h in
      h ← for_each table_step (take 8 lines) h;
      h ← for_each seat_step lines h;
      h ← for_each posts_step lines h;
      h ← for_each dealt_step lines h;
      '(_, h) ← for_each action_step lines ("PREFLOP", h);
      Returned (Some h)
  end.

Definition HOLE_CARDS : string := "*** HOLE CARDS ***".

(** The first loop of [parse]: the state is [chunks] and [buf]. *)
Definition chunk_step (st : list string * list string) (ln : string)
  : list string * list string :=
  let '(chunks, buf) := st in
  if String.eqb (Str.strip ln) "" && negb (bool_decide (buf = []))
     && existsb (Str.contains HOLE_CARDS) buf
  then ((chunks ++ [Str.strip (Str.join (String "010" "") buf)])%list, [])
  else (chunks, (buf ++ [ln])%list).

Definition segment (text : string) : list string :=
  let '(chunks, buf) := fold_left chunk_step (Str.splitlines text) ([], []) in
  if bool_decide (buf = []) then chunks
  else (chunks ++ [Str.strip (Str.join (String "010" "") buf)])%list.

Definition hand_step (hands : list Hand) (chunk : string) : outcome (list Hand) :=
  h ← _parse_one chunk;
  match h with
  | Some h => Returned (hands ++ [h])%list
  | None => Returned hands
  end.

Definition parse (text : string) : outcome (list Hand) :=
  for_each hand_step (segment text) [].

End PokerdomParser.

(** ** The PokerStars writer *)

Module PokerStarsWriter.

Definition nl : string := String "010" "".

Definition _format_action (a : Action) (cur : string) : option string :=
  if bool_decide (verb a ∈ ["folds"; "checks"]) then
    Some (actor a ++ ": " ++ verb a)
  else if bool_decide (verb a ∈ ["calls"; "bets"]) then
    match amount a with
    | Some x => Some (actor a ++ ": " ++ verb a ++ " " ++ cur ++ Num.format_2f x)
    | None => Some (actor a ++ ": " ++ verb a)
    end
  else if String.eqb (verb a) "raises" then
    match amount a with
    | Some x => Some (actor a ++ ": raises to " ++ cur ++ Num.format_2f x)
    | None => Some (actor a ++ ": raises")
    end
  else if String.eqb (verb a) "collected" then None   (* handled in summary *)
  else Some ("# " ++ raw a).                           (* raw line as a comment *)

(** [sorted(hand.seats, key=lambda x: x.num)]: a stable sort. *)
Fixpoint insert_seat (s : Seat) (l : list Seat) : list Seat :=
  match l with
  | [] => [s]
  | t :: l' => if num s <=? num t then s :: l else t :: insert_seat s l'
  end.

Definition sorted_seats (l : list Seat) : list Seat := foldr insert_seat [] l.

Definition cur_of (hand : Hand) : string :=
  default "$" (CURRENCY_SIGNS !! currency hand).

(** The locals [stakes], [dt] and [hid] of [write]. *)
Definition stakes_of (hand : Hand) : string :=
  let cur := cur_of hand in
  let '(sb, bb) := stakes hand in
  if Num.truthy bb
  then "(" ++ cur ++ Num.format_2f sb ++ "/" ++ cur ++ Num.format_2f bb ++ ")"
  else "".

Definition dt_of (hand : Hand) : string :=
  match date_utc hand with
  | Some d => Time.strftime_et d
  | None => ""
  end.

Definition hid_of (hand : Hand) : string := str_or (hand_id hand) "0000000000".

Definition header_line (hand : Hand) : string :=
  Str.strip ("PokerStars Hand #" ++ hid_of hand ++ ": " ++ game hand ++ " "
               ++ stakes_of hand ++ " - " ++ dt_of hand).

Definition table_line (hand : Hand) : string :=
  let table := str_or (table_name hand) "Pokerdom Table" in
  let maxp := match max_players hand with
              | Some n => if n =? 0 then "" else Num.format_int n ++ "-max"
              | None => ""
              end in
  let btn := match button_seat hand with
             | Some n => if n =? 0 then "Seat #1" else "Seat #" ++ Num.format_int n
             | None => "Seat #1"
             end in
  "Table '" ++ table ++ "' " ++ maxp ++ " " ++ btn.

Definition seat_line (cur : string) (s : Seat) : string :=
  let stack := match stack s with
               | Some x => cur ++ Num.format_2f x
               | None => ""
               end in
  "Seat " ++ Num.format_int (num s) ++ ": " ++ name s ++ " (" ++ stack ++ " in chips)".

Definition blind_lines (cur : string) (hand : Hand) : list string :=
  app
    match blinds hand !! "SB" with
    | Some (name, amt) => [name ++ ": posts small blind " ++ cur ++ Num.format_2f amt]
    | None => []
    end
    match blinds hand !! "BB" with
    | Some (name, amt) => [name ++ ": posts big blind " ++ cur ++ Num.format_2f amt]
    | None => []
    end.

Definition dealt_lines (hand : Hand) : list string :=
  if nonempty (hero hand) && nonempty (hero_hole hand)
  then ["Dealt to " ++ default "" (hero hand) ++ " [" ++ default "" (hero_hole hand) ++ "]"]
  else [].

Definition on_street (tag : string) (a : Action) : bool := String.eqb (street a) tag.

(** The lines [dump_street(tag, label)] appends. *)
Definition dump_street (cur : string) (hand : Hand) (tag label : string) : list string :=
  let street_actions := List.filter (on_street tag) (actions hand) in
  if bool_decide (street_actions = []) && negb (String.eqb tag "PREFLOP") then []
  else
    app
      (if String.eqb tag "PREFLOP" then []
       else
         let board := default "" (board hand !! tag) in
         [if String.eqb board "" then "*** " ++ label ++ " ***"
          else "*** " ++ label ++ " " ++ board ++ " ***"])
      (omap (fun a =>
               match _format_action a cur with
               | Some line => if String.eqb line "" then None else Some line
               | None => None
               end) street_actions).

Definition showdown_lines (hand : Hand) : list string :=
  let sd := List.filter (on_street "SHOWDOWN") (actions hand) in
  if bool_decide (sd = []) then []
  else
    "*** SHOW DOWN ***" ::
      omap (fun a =>
              if String.eqb (verb a) "showed" && nonempty (cards a)
              then Some (actor a ++ ": shows [" ++ default "" (cards a) ++ "]")
              else None) sd.

(** [f"{a.actor} collected {cur}{a.amount:.2f}"]: the format of [None]
    with [.2f] raises. *)
Definition collected_line (cur : string) (a : Action) : outcome string :=
  match amount a with
  | Some x => Returned (actor a ++ " collected " ++ cur ++ Num.format_2f x)
  | None => Raised (TypeError "unsupported format string passed to NoneType.__format__")
  end.

Definition collect_step (cur : string) (out : list string) (a : Action)
  : outcome (list string) :=
  line ← collected_line cur a;
  Returned (out ++ [line])%list.

Definition summary_lines (cur : string) (hand : Hand) (out : list string)
  : outcome (list string) :=
  let coll := List.filter (fun a => String.eqb (verb a) "collected") (actions hand) in
  if bool_decide (coll = []) then Returned out
  else for_each (collect_step cur) coll (out ++ ["*** SUMMARY ***"])%list.

(** The list [out] of [write], before it is joined. *)
Definition write_lines (hand : Hand) : outcome (list string) :=
  let cur := cur_of hand in
  let out :=
    ([header_line hand; table_line hand]
     ++ List.map (seat_line cur) (sorted_seats (seats hand))
     ++ blind_lines cur hand
     ++ ["*** HOLE CARDS ***"]
     ++ dealt_lines hand
     ++ dump_street cur hand "PREFLOP" "HOLE CARDS"
     ++ dump_street cur hand "FLOP" "FLOP"
     ++ dump_street cur hand "TURN" "TURN"
     ++ dump_street cur hand "RIVER" "RIVER"
     ++ showdown_lines hand)%list in
  summary_lines cur hand out.

Definition write (hand : Hand) : outcome string :=
  out ← write_lines hand;
  Returned (Str.join nl out ++ nl).

End PokerStarsWriter.

(** [convert_file], from the text of the file on. *)
Definition convert_text (txt : string) : outcome (list string) :=
  hands ← PokerdomParser.parse txt;
  for_each (fun outs h => o ← PokerStarsWriter.write h; Returned (outs ++ [o])%list)
    hands [].

(** * The vocabulary of the properties

    Predicates on lines, records and texts in which the properties below
    are stated, and the texts on which they are tried. *)

Import PokerdomParser PokerStarsWriter.

(** The record of a chunk, and the lines of a record. *)
Definition record_of (hand_text : string) : Hand :=
  match _parse_one hand_text with
  | Returned (Some h) => h
  | _ => new_Hand
  end.


Definition lines_of_record (h : Hand) : list string :=
  match write_lines h with
  | Returned out => out
  | Raised _ => []
  end.

Definition groups_of (r : Re.regex) (ln : string) : Re.groups :=
  default ∅ (Re.search r ln).

(** [v] is the text that [body] consumed on some path. *)
Definition captured_by (body : Re.regex) (v : string) : Prop :=
  exists i s g j t h, Re.Matches body i s g j t h /\ v = substring 0 (j - i) s.

Definition is_number (body : Re.regex) : bool := bool_decide (body = Patterns.number).

(** ** Lines of a chunk *)

(** A line the last scan takes for a collected-amount event, or for a
    show event: the patterns before it in the scan do not match. *)
Definition collected_event (ln : string) (cm : Re.groups) : Prop :=
  Re.search Patterns.street ln = None /\ Re.search Patterns.action ln = None
  /\ Re.search Patterns.collected ln = Some cm.

Definition show_event (ln : string) (sh : Re.groups) : Prop :=
  Re.search Patterns.street ln = None /\ Re.search Patterns.action ln = None
  /\ Re.search Patterns.collected ln = None /\ Re.search Patterns.show ln = Some sh.

(** What the record holds for the events of a line. *)
Definition tagged (a : Action) : Prop :=
  (forall cm, collected_event (raw a) cm ->
     street a = "SUMMARY" /\ verb a = "collected"
     /\ amount a = Some (safe_float (cm !! "amt") zero))
  /\ (forall sh, show_event (raw a) sh ->
        street a = "SHOWDOWN" /\ verb a = "showed" /\ cards a = sh !! "cards").

(** The actions of the record after the last scan over [done]. *)
Definition events_recorded (done : list string) (st : string * Hand) : Prop :=
  (forall a, a ∈ actions st.2 -> raw a ∈ done /\ tagged a)
  /\ (forall ln m, ln ∈ done -> collected_event ln m \/ show_event ln m ->
        exists a, a ∈ actions st.2 /\ raw a = ln).

(** [ln] is a street marker that carries the board [v] for street [k]. *)
Definition reveals (ln k v : string) : Prop :=
  exists sm tag b,
    Re.search Patterns.street ln = Some sm /\ sm !! "street" = Some tag
    /\ k = street_of_tag (Str.upper tag)
    /\ sm !! "board" = Some b /\ b <> "" /\ v = "[" ++ Str.strip b ++ "]".

(** ** Texts of hand blocks *)







(** ** Rendered text *)

Definition is_finite (x : float) : bool :=
  match x with
  | S754_zero _ | S754_finite _ _ _ => true
  | _ => false
  end.

(** Digits, a point and exactly two digits; with an optional sign. *)
Definition unsigned_two_decimals (s : string) : bool :=
  match Num.split_dot s with
  | (ip, Some fp) =>
      Num.is_digits ip && Str.all Str.is_digit fp && (String.length fp =? 2)%nat
  | _ => false
  end.

Definition two_decimals (s : string) : bool :=
  match s with
  | String "-" s' => unsigned_two_decimals s'
  | _ => unsigned_two_decimals s
  end.

Definition SHOW_DOWN : string := "*** SHOW DOWN ***".

(** The date part of the header line, with the blank before it. *)
Definition date_suffix (hand : Hand) : string :=
  match date_utc hand with
  | Some d => " " ++ Time.strftime_et d
  | None => ""
  end.

(** The lines of [write] before the showdown section. *)
Definition lines_before_showdown (hand : Hand) : list string :=
  let cur := cur_of hand in
  ([header_line hand; table_line hand]
   ++ List.map (seat_line cur) (sorted_seats (seats hand))
   ++ blind_lines cur hand
   ++ ["*** HOLE CARDS ***"]
   ++ dealt_lines hand
   ++ dump_street cur hand "PREFLOP" "HOLE CARDS"
   ++ dump_street cur hand "FLOP" "FLOP"
   ++ dump_street cur hand "TURN" "TURN"
   ++ dump_street cur hand "RIVER" "RIVER")%list.

Definition is_collected (a : Action) : bool := String.eqb (verb a) "collected".

Definition summary_line (cur : string) (a : Action) : string :=
  actor a ++ " collected " ++ cur ++ Num.format_2f (default zero (amount a)).

(** ** Sample texts *)

Definition alt_header_chunk : string := "2024.01.01 - Holdem 0.10-0.25".

Definition plain_header : string :=
  "Game #123: Hold'em NL 0.10/0.25 - 2024-01-01 10:00:00".

Definition show_before_showdown : string :=
  "Al showed [Kc Kd]" ++ nl ++ "Al collected $3".

Definition dealt_twice : string :=
  "Dealt to Al [Ah Kd]" ++ nl ++ "Dealt to Bob [2c 3d]".

Definition boards_everywhere : string :=
  "*** HOLE CARDS *** [Ah Kd]" ++ nl
  ++ "*** SHOW DOWN *** [2c 3d 4h 5s 6s]" ++ nl
  ++ "*** SUMMARY *** [2c 3d 4h 5s 6s]".

Definition fold_at_showdown : string := "*** SHOW DOWN ***" ++ nl ++ "Bob: folds".

Definition shown_hand : string :=
  "*** SHOW DOWN ***" ++ nl ++ "Al showed [Kc Kd]" ++ nl ++ "Al collected $3".




(** A one and 309 zeros: a number beyond the finite floats. *)
Definition huge_amount : string :=
  String "1" (string_of_list_ascii (repeat "0"%char 309)).


Definition huge_stakes : string :=
  "Game #1: Holdem 1/" ++ huge_amount ++ " 2024-01-01 10:00:00".

Definition colon_collected : string := "*** FLOP ***" ++ nl ++ "Bob: collected $5".

(** ** Vocabulary of the scans, the patterns, the amounts and the dates *)

(** [ln] is a street marker that enters street [k]. *)
Definition enters (ln k : string) : Prop :=
  exists sm tag,
    Re.search Patterns.street ln = Some sm /\ sm !! "street" = Some tag
    /\ k = street_of_tag (Str.upper tag).

(** Each scan assigns its own fields of the hand and no other. *)
Definition table_shape (h h' : Hand) : Prop :=
  h' = set_max_players (max_players h')
         (set_button_seat (button_seat h') (set_table_name (table_name h') h)).

Definition seat_shape (h h' : Hand) : Prop := h' = set_seats (seats h') h.

Definition posts_shape (h h' : Hand) : Prop :=
  h' = set_blinds (blinds h') (set_currency (currency h') h).

Definition dealt_shape (h h' : Hand) : Prop :=
  h' = set_hero_hole (hero_hole h') (set_hero (hero h') h).

Definition action_shape (h h' : Hand) : Prop :=
  h' = set_actions (actions h') (set_board (board h') h).

(** ** Analyses of patterns *)

(** The characters of a text, each as a text. *)
Fixpoint letters (cs : string) : list string :=
  match cs with
  | EmptyString => []
  | String c cs' => String c "" :: letters cs'
  end.

(** The texts, in lower case, that a pattern without repetition made of
    literal characters, sets of characters and digits consumes. *)
Fixpoint words (r : Re.regex) : option (list string) :=
  match r with
  | Re.Bol | Re.Eps => Some [""]
  | Re.Cls (Re.CChar c) => Some [String (Str.lower_char c) ""]
  | Re.Cls (Re.COneOf cs) => Some (letters (Str.lower cs))
  | Re.Cls Re.CDigit => Some (letters "0123456789")
  | Re.Cls _ | Re.Rep _ _ => None
  | Re.Seq r1 r2 =>
      match words r1, words r2 with
      | Some l1, Some l2 =>
          Some (flat_map (fun a => List.map (String.append a) l2) l1)
      | _, _ => None
      end
  | Re.Alt r1 r2 =>
      match words r1, words r2 with
      | Some l1, Some l2 => Some (l1 ++ l2)%list
      | _, _ => None
      end
  | Re.Grp _ r1 => words r1
  end.

(** Bounds on the number of characters a pattern consumes. *)
Fixpoint min_len (r : Re.regex) : nat :=
  match r with
  | Re.Bol | Re.Eps | Re.Rep _ _ => 0
  | Re.Cls _ => 1
  | Re.Seq r1 r2 => min_len r1 + min_len r2
  | Re.Alt r1 r2 => Nat.min (min_len r1) (min_len r2)
  | Re.Grp _ r1 => min_len r1
  end.

Fixpoint max_len (r : Re.regex) : option nat :=
  match r with
  | Re.Bol | Re.Eps => Some 0%nat
  | Re.Cls _ => Some 1%nat
  | Re.Rep _ _ => None
  | Re.Seq r1 r2 =>
      match max_len r1, max_len r2 with
      | Some a, Some b => Some (a + b)%nat
      | _, _ => None
      end
  | Re.Alt r1 r2 =>
      match max_len r1, max_len r2 with
      | Some a, Some b => Some (Nat.max a b)
      | _, _ => None
      end
  | Re.Grp _ r1 => max_len r1
  end.

(** A character that is no lower-case letter. *)
Definition caseless (c : ascii) : bool :=
  negb ((97 <=? Str.code c)%nat && (Str.code c <=? 122)%nat).

(** ** The vocabulary of the actions *)


Definition BETTING_STREETS : list string := ["PREFLOP"; "FLOP"; "TURN"; "RIVER"].



(** ** Blinds and currency *)

(** The signs of [CURRENCY_SIGNS]. *)
Definition SIGNS : list string := ["$"; "€"; "£"; "¥"].

(** [ln] posts the blind stored under [key] with the entry [e]. *)
Definition posts_entry (ln key : string) (e : string * float) : Prop :=
  exists pm which name,
    Re.search Patterns.posts ln = Some pm
    /\ pm !! "which" = Some which /\ pm !! "name" = Some name
    /\ key = (if Str.contains "small" (Str.lower which) then "SB" else "BB")
    /\ e = (normalize_name name, safe_float (pm !! "amt") zero).

(** ** Seats *)

Definition is_seat_line (ln : string) : bool :=
  bool_decide (is_Some (Re.search Patterns.seat ln)).

(** The seat that the seat pattern reads on [ln]. *)
Definition seat_from (ln : string) (s : Seat) : Prop :=
  exists sm numtxt nm,
    Re.search Patterns.seat ln = Some sm
    /\ sm !! "num" = Some numtxt /\ Num.py_int numtxt = Returned (num s)
    /\ sm !! "name" = Some nm /\ name s = normalize_name nm
    /\ stack s = Some (safe_float (sm !! "stack") zero).

(** The header scan assigns the id, the stakes, the date and the game. *)
Definition header_shape (h h' : Hand) : Prop :=
  h' = set_game (game h')
         (set_date_utc (date_utc h') (set_stakes (stakes h') (set_hand_id (hand_id h') h))).

(** ** Amounts *)

(** [x] is the value of [float] on a text that the pattern of a number
    consumed. *)
Definition parsed_amount (x : float) : Prop :=
  exists v, captured_by Patterns.number v /\ Num.py_float v = Returned x.

(** Zero, a positive number or the positive infinity. *)
Definition unsigned (x : float) : bool :=
  match x with
  | S754_zero false | S754_infinity false | S754_finite false _ _ => true
  | _ => false
  end.

(** The text of an amount without a sign: digits, a point and two
    digits, or [inf]. *)
Definition well_rendered (x : float) : Prop :=
  Num.format_2f x = "inf" \/ unsigned_two_decimals (Num.format_2f x) = true.

(** ** Order of the seats *)

Fixpoint ascending (l : list Z) : bool :=
  match l with
  | a :: (b :: _) as t => (a <=? b) && ascending t
  | _ => true
  end.

(** ** Actions that the renderer reads *)

(** The actions of the streets that [write] goes through, and the
    collected ones. *)
Definition written (a : Action) : bool :=
  bool_decide (street a ∈ ["PREFLOP"; "FLOP"; "TURN"; "RIVER"; "SHOWDOWN"])
  || String.eqb (verb a) "collected".

(** [ln] is a line of the dealt pattern. *)
Definition is_dealt_line (ln : string) : bool :=
  bool_decide (is_Some (Re.search Patterns.dealt ln)).

(** ** Errors of the conversion *)




(** ** Dates *)

Definition valid_date (dt : Time.datetime) : bool :=
  (1 <=? Time.year dt)
  && (1 <=? Time.month dt) && (Time.month dt <=? 12)
  && (1 <=? Time.day dt) && (Time.day dt <=? Time.days_in_month (Time.year dt) (Time.month dt))
  && (0 <=? Time.hour dt) && (Time.hour dt <=? 23)
  && (0 <=? Time.minute dt) && (Time.minute dt <=? 59)
  && (0 <=? Time.second dt) && (Time.second dt <=? 59).

(** Every text that a group [name] of [r] can hold is free of letters and
    reads, as a field of a date, as a number from [lo] to [hi]. *)
Definition field_range (r : Re.regex) (name : string) (lo hi : Z) : bool :=
  forallb
    (fun nb : string * Re.regex =>
       if String.eqb (fst nb) name then
         match words (snd nb) with
         | Some ws =>
             forallb (fun w => Str.all caseless w
                               && (lo <=? Num.digits_value (Str.strip w) 0)
                               && (Num.digits_value (Str.strip w) 0 <=? hi)) ws
         | None => false
         end
       else true)
    (Re.group_bodies r).

(** The ranges of the fields that the directives of a format can read. *)
Definition format_ranges (f : string) : bool :=
  let r := Time.compile_format f in
  field_range r "m" 1 12 && field_range r "d" 1 31
  && field_range r "H" 0 23 && field_range r "M" 0 59 && field_range r "S" 0 61.

(** A whole hand, line by line. *)
Definition full_hand_lines : list string :=
  ["Game #12345 Hold'em 0.50/1.00 2024-01-02 03:04:05";
   "Table 'Alpha' -6max Seat #2 is the button";
   "Seat 2: Bob ($100)";
   "Seat 1: Al ($50.5)";
   "Al: posts small blind $0.50";
   "Bob: posts big blind $1";
   "*** HOLE CARDS ***";
   "Dealt to Al [Ah Kd]";
   "Al: raises to $3";
   "Bob: calls $2";
   "*** FLOP *** [2c 3d 4h]";
   "Bob: checks";
   "Al: bets $5";
   "Bob: folds";
   "Al collected $6.50"].

Definition full_hand : string := Str.join nl full_hand_lines.

(** A text without the hole-cards marker, with a blank line inside. *)
Definition no_marker_text : string :=
  "Game #7 Holdem 1/2" ++ nl ++ nl ++ "Bob: folds".

(** The first action of [full_hand], and the flop check. *)
Definition first_raise : Action :=
  mk_Action "PREFLOP" "Al" "raises" (Some (safe_float (Some "3") zero)) None None
    "Al: raises to $3".

Definition before_flop_check : list string :=
  ["Game #12345 Hold'em 0.50/1.00 2024-01-02 03:04:05";
   "Table 'Alpha' -6max Seat #2 is the button";
   "Seat 2: Bob ($100)";
   "Seat 1: Al ($50.5)";
   "Al: posts small blind $0.50";
   "Bob: posts big blind $1";
   "*** HOLE CARDS ***";
   "Dealt to Al [Ah Kd]";
   "Al: raises to $3";
   "Bob: calls $2"].

Definition after_flop_check : list string :=
  ["Al: bets $5"; "Bob: folds"; "Al collected $6.50"].

(** * Properties *)

(** ** The matcher against [Matches] *)

Section RunSound.
Import Re.
Context {R : Type}.

Lemma run_sound (r : regex) :
  forall i s g (k : nat -> string -> groups -> option R) x,
    run r i s g k = Some x ->
    exists j t h, Matches r i s g j t h /\ k j t h = Some x.
Proof.
  induction r as [| |p|r1 IH1 r2 IH2|r1 IH1 r2 IH2|b r IH|n r IH]; intros i s g k x H; simpl in H.
  - destruct (i =? 0)%nat eqn:E; [|discriminate].
    apply Nat.eqb_eq in E; subst i. eauto 10 using M_Bol.
  - eauto 10 using M_Eps.
  - destruct s as [|c s]; [discriminate|].
    destruct (cls_test p c) eqn:E; [|discriminate]. eauto 10 using M_Cls.
  - apply IH1 in H as (j & t & h & M1 & H).
    apply IH2 in H as (j' & t' & h' & M2 & H). eauto 10 using M_Seq.
  - destruct (run r1 i s g k) eqn:E.
    + inversion H; subst. apply IH1 in E as (j & t & h & M & E). eauto 10 using M_AltL.
    + apply IH2 in H as (j & t & h & M & E'). eauto 10 using M_AltR.
  - revert H. generalize (String.length s) as fuel. intros fuel; revert i s g.
    induction fuel as [|fuel IHf]; intros i s g H.
    + eauto 10 using M_Rep0.
    + destruct b.
      * destruct (run r i s g _) eqn:E in H.
        -- inversion H; subst. apply IH in E as (j & t & h & M & E).
           destruct (i <? j)%nat eqn:L; [|discriminate]. apply Nat.ltb_lt in L.
           apply IHf in E as (j' & t' & h' & M' & E). eauto 10 using M_RepS.
        -- eauto 10 using M_Rep0.
      * destruct (k i s g) eqn:E0.
        -- inversion H; subst. eauto 10 using M_Rep0.
        -- apply IH in H as (j & t & h & M & E).
           destruct (i <? j)%nat eqn:L; [|discriminate]. apply Nat.ltb_lt in L.
           apply IHf in E as (j' & t' & h' & M' & E). eauto 10 using M_RepS.
  - apply IH in H as (j & t & h & M & H). eauto 10 using M_Grp.
Qed.
End RunSound.

Module ReFacts.
Import Re.

Lemma append_assoc' (a b c : string) : (a ++ b) ++ c = a ++ (b ++ c).
Proof. induction a; simpl; congruence. Qed.

Lemma length_append' (a b : string) :
  String.length (a ++ b) = (String.length a + String.length b)%nat.
Proof. induction a; simpl; congruence. Qed.

Lemma substring_prefix (w t : string) :
  substring 0 (String.length w) (w ++ t) = w.
Proof.
  induction w as [|c w IH]; simpl.
  - destruct t; reflexivity.
  - now rewrite IH.
Qed.

Lemma Matches_consumes r i s g j t h :
  Matches r i s g j t h ->
  exists w, s = w ++ t /\ j = (i + String.length w)%nat.
Proof.
  induction 1.
  - exists ""; auto.
  - exists ""; split; [reflexivity | simpl; lia].
  - exists (String c ""); split; [reflexivity | simpl; lia].
  - destruct IHMatches1 as (w1 & -> & ->), IHMatches2 as (w2 & -> & ->).
    exists (w1 ++ w2). rewrite append_assoc', length_append'. split; [reflexivity | lia].
  - assumption.
  - assumption.
  - exists ""; split; [reflexivity | simpl; lia].
  - destruct IHMatches1 as (w1 & -> & ->), IHMatches2 as (w2 & -> & ->).
    exists (w1 ++ w2). rewrite append_assoc', length_append'. split; [reflexivity | lia].
  - assumption.
Qed.

Lemma Matches_captured r i s g j t h :
  Matches r i s g j t h ->
  exists w, s = w ++ t /\ substring 0 (j - i) s = w.
Proof.
  intros M. destruct (Matches_consumes _ _ _ _ _ _ _ M) as (w & -> & ->).
  exists w. split; [reflexivity|].
  replace (i + String.length w - i)%nat with (String.length w) by lia.
  apply substring_prefix.
Qed.

Lemma Matches_keeps r i s g j t h :
  Matches r i s g j t h -> forall n, is_Some (g !! n) -> is_Some (h !! n).
Proof.
  induction 1; intros m Hm; auto.
  destruct (decide (n = m)) as [->|Hne].
  - rewrite lookup_insert_eq. eauto.
  - rewrite lookup_insert_ne by assumption. auto.
Qed.

Lemma Matches_bound r i s g j t h :
  Matches r i s g j t h -> forall n, n ∈ bound r -> is_Some (h !! n).
Proof.
  induction 1; simpl; intros m Hm;
    try (apply elem_of_nil in Hm; contradiction).
  - apply elem_of_app in Hm as [Hm|Hm]; [|auto].
    eapply Matches_keeps; eauto.
  - apply list_elem_of_intersection in Hm as [Hm _]. auto.
  - apply list_elem_of_intersection in Hm as [_ Hm]. auto.
  - apply elem_of_cons in Hm as [->|Hm].
    + rewrite lookup_insert_eq. eauto.
    + destruct (decide (n = m)) as [->|Hne].
      * rewrite lookup_insert_eq. eauto.
      * rewrite lookup_insert_ne by assumption. auto.
Qed.

Lemma is_digit_lower (c : ascii) :
  Str.is_digit (Str.lower_char c) = true -> Str.is_digit c = true.
Proof.
  destruct c as [[] [] [] [] [] [] [] []]; vm_compute; congruence.
Qed.

Lemma lower_digit (c : ascii) : Str.is_digit c = true -> Str.lower_char c = c.
Proof.
  destruct c as [[] [] [] [] [] [] [] []]; vm_compute; congruence.
Qed.

Lemma mem_digits (c : ascii) (cs : string) :
  Str.all Str.is_digit cs = true ->
  Str.mem (Str.lower_char c) (Str.lower cs) = true -> Str.is_digit c = true.
Proof.
  induction cs as [|d cs IH]; simpl; [discriminate|].
  intros [Hd Hcs]%andb_prop [He|Hm]%orb_prop; [|auto].
  apply Ascii.eqb_eq in He. apply is_digit_lower.
  rewrite He, lower_digit; assumption.
Qed.

Lemma digit_cls_sound p c :
  digit_cls p = true -> cls_test p c = true -> Str.is_digit c = true.
Proof.
  destruct p; simpl; try discriminate; auto.
  intros; eapply mem_digits; eauto.
Qed.

Lemma all_append p (a b : string) :
  Str.all p (a ++ b) = Str.all p a && Str.all p b.
Proof. induction a; simpl; [reflexivity|]. now rewrite IHa, andb_assoc. Qed.

Lemma consumed_inj s t w1 w2 : s = w1 ++ t -> s = w2 ++ t -> w1 = w2.
Proof.
  intros -> H. revert w2 H.
  induction w1 as [|c w1 IH]; intros [|d w2] H; simpl in *; auto.
  - exfalso. apply (f_equal String.length) in H. simpl in H.
    rewrite length_append' in H. lia.
  - exfalso. apply (f_equal String.length) in H. simpl in H.
    rewrite length_append' in H. lia.
  - inversion H; subst. f_equal; auto.
Qed.

Lemma digits_or_empty_sound r i s g j t h :
  Matches r i s g j t h -> digits_or_empty r = true ->
  forall w, s = w ++ t -> Str.all Str.is_digit w = true.
Proof.
  induction 1; simpl; intros D w Hw.
  - assert (w = "") as -> by (eapply consumed_inj; eauto). reflexivity.
  - assert (w = "") as -> by (eapply consumed_inj; eauto). reflexivity.
  - assert (w = String c "") as -> by (eapply consumed_inj; eauto).
    simpl. erewrite digit_cls_sound; eauto.
  - apply andb_prop in D as [D1 D2].
    destruct (Matches_consumes _ _ _ _ _ _ _ H) as (w1 & E1 & _).
    destruct (Matches_consumes _ _ _ _ _ _ _ H0) as (w2 & E2 & _).
    assert (w = w1 ++ w2) as ->.
    { eapply consumed_inj; eauto. rewrite append_assoc'. congruence. }
    rewrite all_append, (IHMatches1 D1 w1 E1), (IHMatches2 D2 w2 E2). reflexivity.
  - apply andb_prop in D as [D1 D2]. auto.
  - apply andb_prop in D as [D1 D2]. auto.
  - assert (w = "") as -> by (eapply consumed_inj; eauto). reflexivity.
  - destruct (Matches_consumes _ _ _ _ _ _ _ H) as (w1 & E1 & _).
    destruct (Matches_consumes _ _ _ _ _ _ _ H1) as (w2 & E2 & _).
    assert (w = w1 ++ w2) as ->.
    { eapply consumed_inj; eauto. rewrite append_assoc'. congruence. }
    rewrite all_append, (IHMatches1 D w1 E1), (IHMatches2 D w2 E2). reflexivity.
  - auto.
Qed.

Lemma digits_only_sound r i s g j t h :
  Matches r i s g j t h -> digits_only r = true ->
  forall w, s = w ++ t -> Num.is_digits w = true.
Proof.
  unfold Num.is_digits.
  induction 1; simpl; intros D w Hw; try discriminate.
  - assert (w = String c "") as -> by (eapply consumed_inj; eauto).
    simpl. erewrite digit_cls_sound; eauto.
  - destruct (Matches_consumes _ _ _ _ _ _ _ H) as (w1 & E1 & _).
    destruct (Matches_consumes _ _ _ _ _ _ _ H0) as (w2 & E2 & _).
    assert (w = w1 ++ w2) as ->.
    { eapply consumed_inj; eauto. rewrite append_assoc'. congruence. }
    rewrite all_append.
    apply orb_prop in D as [[D1 D2]%andb_prop|[D1 D2]%andb_prop].
    + specialize (IHMatches1 D1 w1 E1). apply andb_prop in IHMatches1 as [N1 A1].
      rewrite A1, (digits_or_empty_sound _ _ _ _ _ _ _ H0 D2 w2 E2).
      destruct w1; [discriminate|reflexivity].
    + specialize (IHMatches2 D2 w2 E2). apply andb_prop in IHMatches2 as [N2 A2].
      rewrite A2, (digits_or_empty_sound _ _ _ _ _ _ _ H D1 w1 E1).
      destruct w1; simpl; [rewrite N2|]; reflexivity.
  - apply andb_prop in D as [D1 D2]. auto.
  - apply andb_prop in D as [D1 D2]. auto.
  - auto.
Qed.

(** A group of the result was bound before the match or is the text that
    a group of [r] with that name consumed. *)
Lemma Matches_origin r i s g j t h :
  Matches r i s g j t h ->
  forall n v, h !! n = Some v ->
    g !! n = Some v
    \/ exists body, (n, body) ∈ group_bodies r /\ captured_by body v.
Proof.
  induction 1; simpl; intros m v Hv; auto.
  - destruct (IHMatches2 m v Hv) as [Hg|(body & Hb & Hc)].
    + destruct (IHMatches1 m v Hg) as [?|(body & Hb & Hc)]; [auto|].
      right. exists body. split; [apply elem_of_app; auto | assumption].
    + right. exists body. split; [apply elem_of_app; auto | assumption].
  - destruct (IHMatches m v Hv) as [?|(body & Hb & Hc)]; [auto|].
    right. exists body. split; [apply elem_of_app; auto | assumption].
  - destruct (IHMatches m v Hv) as [?|(body & Hb & Hc)]; [auto|].
    right. exists body. split; [apply elem_of_app; auto | assumption].
  - destruct (IHMatches2 m v Hv) as [Hg|?]; [|auto].
    apply (IHMatches1 m v Hg).
  - destruct (decide (n = m)) as [->|Hne].
    + rewrite lookup_insert_eq in Hv. inversion Hv; subst v; clear Hv.
      right. exists r. split; [apply elem_of_cons; auto|].
      unfold captured_by. eauto 10.
    + rewrite lookup_insert_ne in Hv by assumption.
      destruct (IHMatches m v Hv) as [?|(body & Hb & Hc)]; [auto|].
      right. exists body. split; [apply elem_of_cons; auto | assumption].
Qed.

Lemma captured_digits body v :
  captured_by body v -> digits_only body = true -> Num.is_digits v = true.
Proof.
  intros (i & s & g & j & t & h & M & ->) D.
  destruct (Matches_captured _ _ _ _ _ _ _ M) as (w & E & ->).
  eapply digits_only_sound; eauto.
Qed.

Lemma bodies_pass_elem check name r body :
  bodies_pass check name r = true -> (name, body) ∈ group_bodies r -> check body = true.
Proof.
  unfold bodies_pass. rewrite forallb_forall. intros H Hin.
  apply list_elem_of_In in Hin. specialize (H _ Hin). simpl in H.
  rewrite String.eqb_refl in H. exact H.
Qed.

Lemma search_from_sound r : forall s i m,
  search_from r i s = Some m ->
  exists i' s' j t, Matches r i' s' ∅ j t m.
Proof.
  induction s as [|c s IH]; intros i m H; simpl in H.
  - destruct (run r i "" ∅ _) eqn:E; [|discriminate].
    inversion H; subst. apply run_sound in E as (j & t & h & M & E).
    inversion E; subst. eauto.
  - destruct (run r i (String c s) ∅ _) eqn:E.
    + inversion H; subst. apply run_sound in E as (j & t & h & M & E).
      inversion E; subst. eauto.
    + eauto.
Qed.

(** A group bound on every path is bound in the result of a search. *)
Lemma search_bound r s m n :
  search r s = Some m -> n ∈ bound r -> is_Some (m !! n).
Proof.
  intros H Hn. apply search_from_sound in H as (i & s' & j & t & M).
  eapply Matches_bound; eauto.
Qed.

(** The text of a group in the result of a search is what a group of the
    pattern with that name consumed. *)
Lemma search_origin r s m n v :
  search r s = Some m -> m !! n = Some v ->
  exists body, (n, body) ∈ group_bodies r /\ captured_by body v.
Proof.
  intros H Hv. apply search_from_sound in H as (i & s' & j & t & M).
  destruct (Matches_origin _ _ _ _ _ _ _ M n v Hv) as [E|?]; [|assumption].
  rewrite lookup_empty in E. discriminate.
Qed.

Lemma search_digits r s m n v :
  search r s = Some m -> bodies_pass digits_only n r = true ->
  m !! n = Some v -> Num.is_digits v = true.
Proof.
  intros H D Hv. destruct (search_origin _ _ _ _ _ H Hv) as (body & Hb & Hc).
  eapply captured_digits; [exact Hc|]. eapply bodies_pass_elem; eauto.
Qed.

End ReFacts.

(** ** Extraction always returns *)

Section Returns.
Import PokerdomParser.











Lemma bind_Returned {A B : Type} (a : A) (k : A -> outcome B) :
  (Returned a ≫= k) = k a.
Proof. reflexivity. Qed.

End Returns.

(** ** Loops *)

Section Loops.
Context {A S : Type} (body : S -> A -> outcome S).

Lemma for_each_app (xs ys : list A) (st : S) :
  for_each body (xs ++ ys)%list st = (st' ← for_each body xs st; for_each body ys st').
Proof.
  revert st. induction xs as [|x xs IH]; intros st; simpl; [reflexivity|].
  destruct (body st x); simpl; auto.
Qed.

(** An invariant of the loop that sees the items already visited. *)
Lemma for_each_inv (I : list A -> S -> Prop) :
  (forall done x st st', I done st -> body st x = Returned st' -> I (done ++ [x])%list st') ->
  forall xs done st st',
    I done st -> for_each body xs st = Returned st' -> I (done ++ xs)%list st'.
Proof.
  intros Hb. induction xs as [|x xs IH]; intros done st st' HI H; simpl in H.
  - inversion H; subst. now rewrite app_nil_r.
  - destruct (body st x) as [st1|] eqn:E; [|discriminate]. simpl in H.
    replace (done ++ x :: xs)%list with ((done ++ [x]) ++ xs)%list
      by (rewrite <- app_assoc; reflexivity).
    eapply IH; eauto.
Qed.

Lemma for_each_preserves (P : S -> Prop) :
  (forall x st st', P st -> body st x = Returned st' -> P st') ->
  forall xs st st', P st -> for_each body xs st = Returned st' -> P st'.
Proof.
  intros Hb xs st st' HP H.
  apply (for_each_inv (fun _ => P)) with (xs := xs) (done := []) (st := st); eauto.
Qed.

(** A projection of the state that no iteration changes. *)
Lemma for_each_keeps {T : Type} (f : S -> T) :
  (forall st x st', body st x = Returned st' -> f st' = f st) ->
  forall xs st st', for_each body xs st = Returned st' -> f st' = f st.
Proof.
  intros Hb xs st st' H.
  apply (for_each_preserves (fun s => f s = f st)) with (xs := xs) (st := st); auto.
  intros x s s' Hs E. rewrite <- Hs. eauto.
Qed.
End Loops.

Lemma bind_inv {A B : Type} (x : outcome A) (k : A -> outcome B) (b : B) :
  (x ≫= k) = Returned b -> exists a, x = Returned a /\ k a = Returned b.
Proof. destruct x; simpl; [eauto | discriminate]. Qed.

(** Split the hypotheses that say a loop body returned on everything the
    body inspects. *)
Ltac split_returned :=
  repeat match goal with
    | H : (_ ≫= _) = Returned _ |- _ => apply bind_inv in H as (? & ? & ?)
    | H : match ?x with _ => _ end = Returned _ |- _ =>
        destruct x eqn:?; try discriminate H
    | H : (if ?x then _ else _) = Returned _ |- _ =>
        destruct x eqn:?; try discriminate H
    | H : Returned _ = Returned _ |- _ => inversion H; subst; clear H
    end.

(** ** The record extractor *)

Section Frames.
Import PokerdomParser.


Lemma parse_header_frame line0 h :
  actions (parse_header line0 h) = actions h
  /\ board (parse_header line0 h) = board h
  /\ hero (parse_header line0 h) = hero h
  /\ hero_hole (parse_header line0 h) = hero_hole h
  /\ blinds (parse_header line0 h) = blinds h
  /\ currency (parse_header line0 h) = currency h.
Proof.
  unfold parse_header.
  destruct (header_match line0) as [[pat m]|]; [|auto 10].
  destruct (_ && _); simpl; auto 10.
Qed.

(** The fields a scan leaves alone. *)
Lemma table_step_frame h ln h' :
  table_step h ln = Returned h' ->
  game h' = game h /\ actions h' = actions h /\ board h' = board h
  /\ hero h' = hero h /\ hero_hole h' = hero_hole h /\ blinds h' = blinds h
  /\ currency h' = currency h.
Proof. unfold table_step. intros H. split_returned; simpl; auto 10. Qed.

Lemma seat_step_frame h ln h' :
  seat_step h ln = Returned h' ->
  game h' = game h /\ actions h' = actions h /\ board h' = board h
  /\ hero h' = hero h /\ hero_hole h' = hero_hole h /\ blinds h' = blinds h
  /\ currency h' = currency h.
Proof. unfold seat_step. intros H. split_returned; simpl; auto 10. Qed.

Lemma posts_step_frame h ln h' :
  posts_step h ln = Returned h' ->
  game h' = game h /\ actions h' = actions h /\ board h' = board h
  /\ hero h' = hero h /\ hero_hole h' = hero_hole h.
Proof. unfold posts_step. intros H. split_returned; simpl; auto 10. Qed.

Lemma dealt_step_frame h ln h' :
  dealt_step h ln = Returned h' ->
  game h' = game h /\ actions h' = actions h /\ board h' = board h.
Proof. unfold dealt_step. intros H. split_returned; simpl; auto 10. Qed.

Lemma action_step_frame st ln st' :
  action_step st ln = Returned st' ->
  game st'.2 = game st.2 /\ hero st'.2 = hero st.2 /\ hero_hole st'.2 = hero_hole st.2.
Proof.
  unfold action_step. destruct st as [street h]. intros H.
  split_returned; simpl; auto 10.
Qed.

(** The scans of [_parse_one], one after the other. *)
Lemma _parse_one_inv hand_text h :
  _parse_one hand_text = Returned (Some h) ->
  exists line0 rest h1 h2 h3 h4 street,
    let lines := line0 :: rest in
    lines_of hand_text = lines
    /\ for_each table_step (take 8 lines) (parse_header line0 new_Hand) = Returned h1
    /\ for_each seat_step lines h1 = Returned h2
    /\ for_each posts_step lines h2 = Returned h3
    /\ for_each dealt_step lines h3 = Returned h4
    /\ for_each action_step lines ("PREFLOP", h4) = Returned (street, h).
Proof.
  unfold _parse_one. intros H.
  destruct (lines_of hand_text) as [|line0 rest]; [discriminate|].
  apply bind_inv in H as (h1 & E1 & H).
  apply bind_inv in H as (h2 & E2 & H).
  apply bind_inv in H as (h3 & E3 & H).
  apply bind_inv in H as (h4 & E4 & H).
  apply bind_inv in H as ([street h5] & E5 & H).
  inversion H; subst. exists line0, rest, h1, h2, h3, h4, street. auto 10.
Qed.




Lemma action_step_actions street h ln street' h' :
  action_step (street, h) ln = Returned (street', h') ->
  actions h' = actions h
  \/ exists a, actions h' = (actions h ++ [a])%list /\ raw a = ln /\ tagged a.
Proof.
  unfold action_step. intros H.
  destruct (Re.search Patterns.street ln) as [st|] eqn:Es.
  { left. split_returned; reflexivity. }
  destruct (Re.search Patterns.action ln) as [am|] eqn:Ea.
  { right. split_returned. eexists; split; [reflexivity|]. simpl.
    split; [reflexivity|].
    split; intros ? Hev; simpl in Hev; unfold collected_event, show_event in Hev;
      destruct Hev as (_ & Hev & _); congruence. }
  destruct (Re.search Patterns.collected ln) as [cm|] eqn:Ec.
  { right. split_returned. eexists; split; [reflexivity|]. simpl.
    split; [reflexivity|].
    split; intros m Hev; simpl in Hev.
    - destruct Hev as (_ & _ & Hev). simpl. intuition congruence.
    - destruct Hev as (_ & _ & Hev & _). congruence. }
  destruct (Re.search Patterns.show ln) as [sh|] eqn:Esh.
  { right. split_returned. eexists; split; [reflexivity|]. simpl.
    split; [reflexivity|].
    split; intros m Hev; simpl in Hev.
    - destruct Hev as (_ & _ & Hev). congruence.
    - destruct Hev as (_ & _ & _ & Hev). simpl. intuition congruence. }
  left. split_returned; reflexivity.
Qed.

Lemma action_step_event street h ln street' h' :
  action_step (street, h) ln = Returned (street', h') ->
  (exists m, collected_event ln m \/ show_event ln m) ->
  exists a, actions h' = (actions h ++ [a])%list /\ raw a = ln.
Proof.
  unfold action_step. intros H (m & [(Es & Ea & Ec)|(Es & Ea & Ec & Esh)]);
    rewrite Es, Ea, Ec in H; [|rewrite Esh in H];
    split_returned; eexists; split; reflexivity.
Qed.

Lemma action_scan_events lines h st' :
  actions h = [] ->
  for_each action_step lines ("PREFLOP", h) = Returned st' ->
  events_recorded lines st'.
Proof.
  intros Hnil H.
  apply (for_each_inv action_step events_recorded) with (done := []) in H; [exact H| |].
  - clear. intros done ln [street h] [street' h'] (IA & IB) E. split.
    + intros a Ha. simpl in Ha.
      destruct (action_step_actions _ _ _ _ _ E) as [Eq|(b & Eq & Hraw & Htag)];
        rewrite Eq in Ha.
      * destruct (IA a Ha) as (? & ?). split; [|assumption].
        apply elem_of_app; auto.
      * apply elem_of_app in Ha as [Ha|Ha].
        -- destruct (IA a Ha) as (? & ?). split; [|assumption].
           apply elem_of_app; auto.
        -- apply list_elem_of_singleton in Ha as ->. split; [|assumption].
           apply elem_of_app. right. apply list_elem_of_singleton. assumption.
    + intros l m Hl Hev. simpl.
      apply elem_of_app in Hl as [Hl|Hl].
      * destruct (IB l m Hl Hev) as (a & Ha & Hr). exists a. split; [|assumption].
        simpl in Ha.
        destruct (action_step_actions _ _ _ _ _ E) as [Eq|(b & Eq & _)];
          rewrite Eq; [assumption | apply elem_of_app; auto].
      * apply list_elem_of_singleton in Hl as ->.
        destruct (action_step_event _ _ _ _ _ E) as (a & Eq & Hr); [eauto|].
        exists a. split; [|assumption]. rewrite Eq.
        apply elem_of_app. right. apply list_elem_of_singleton. reflexivity.
  - split.
    + simpl. rewrite Hnil. intros a Ha. apply elem_of_nil in Ha. contradiction.
    + intros l m Hl. apply elem_of_nil in Hl. contradiction.
Qed.

Lemma actions_before_scan hand_text line0 rest h1 h2 h3 h4 :
  for_each table_step (take 8 (line0 :: rest)) (parse_header line0 new_Hand) = Returned h1 ->
  for_each seat_step (line0 :: rest) h1 = Returned h2 ->
  for_each posts_step (line0 :: rest) h2 = Returned h3 ->
  for_each dealt_step (line0 :: rest) h3 = Returned h4 ->
  lines_of hand_text = line0 :: rest ->
  actions h4 = [] /\ board h4 = ∅.
Proof.
  intros E1 E2 E3 E4 _.
  pose proof (parse_header_frame line0 new_Hand) as (A0 & B0 & _).
  split.
  - apply (for_each_keeps _ actions) in E4;
      [|intros st x st' F; now apply dealt_step_frame in F as (_ & -> & _)].
    apply (for_each_keeps _ actions) in E3;
      [|intros st x st' F; now apply posts_step_frame in F as (_ & -> & _)].
    apply (for_each_keeps _ actions) in E2;
      [|intros st x st' F; now apply seat_step_frame in F as (_ & -> & _)].
    apply (for_each_keeps _ actions) in E1;
      [|intros st x st' F; now apply table_step_frame in F as (_ & -> & _)].
    rewrite E4, E3, E2, E1, A0. reflexivity.
  - apply (for_each_keeps _ board) in E4;
      [|intros st x st' F; now apply dealt_step_frame in F as (_ & _ & ->)].
    apply (for_each_keeps _ board) in E3;
      [|intros st x st' F; now apply posts_step_frame in F as (_ & _ & -> & _)].
    apply (for_each_keeps _ board) in E2;
      [|intros st x st' F; now apply seat_step_frame in F as (_ & _ & -> & _)].
    apply (for_each_keeps _ board) in E1;
      [|intros st x st' F; now apply table_step_frame in F as (_ & _ & -> & _)].
    rewrite E4, E3, E2, E1, B0. reflexivity.
Qed.

(** C2.  In the record of every chunk, each line that the scan takes for
    a collected-amount event has an action, and every action of such a
    line is tagged SUMMARY with verb collected; each line it takes for a
    show event has an action, and every action of such a line is tagged
    SHOWDOWN with verb showed.  Where the line stands among the street
    markers plays no part. *)
Theorem collected_and_show_tags (hand_text : string) (h : Hand) :
  _parse_one hand_text = Returned (Some h) ->
  forall ln, ln ∈ lines_of hand_text ->
    (forall cm, collected_event ln cm ->
       (exists a, a ∈ actions h /\ raw a = ln)
       /\ forall a, a ∈ actions h -> raw a = ln ->
            street a = "SUMMARY" /\ verb a = "collected"
            /\ amount a = Some (safe_float (cm !! "amt") zero))
    /\ (forall sh, show_event ln sh ->
          (exists a, a ∈ actions h /\ raw a = ln)
          /\ forall a, a ∈ actions h -> raw a = ln ->
               street a = "SHOWDOWN" /\ verb a = "showed" /\ cards a = sh !! "cards").
Proof.
  intros E ln Hln.
  apply _parse_one_inv in E
    as (line0 & rest & h1 & h2 & h3 & h4 & street & El & E1 & E2 & E3 & E4 & E5).
  destruct (actions_before_scan _ _ _ _ _ _ _ E1 E2 E3 E4 El) as (Hnil & _).
  apply action_scan_events in E5 as (IA & IB); [|exact Hnil].
  rewrite El in Hln. simpl in IA, IB.
  split.
  - intros cm Hev. split; [eapply IB; eauto|].
    intros a Ha Hr. destruct (IA a Ha) as (_ & (T & _)). apply T. now rewrite Hr.
  - intros sh Hev. split; [eapply IB; eauto|].
    intros a Ha Hr. destruct (IA a Ha) as (_ & (_ & T)). apply T. now rewrite Hr.
Qed.

Lemma collected_and_show_tags_witness :
  exists cm,
    _parse_one show_before_showdown = Returned (Some (record_of show_before_showdown))
    /\ "Al collected $3" ∈ lines_of show_before_showdown
    /\ collected_event "Al collected $3" cm
    /\ (exists a, a ∈ actions (record_of show_before_showdown) /\ raw a = "Al collected $3")
    /\ forall a, a ∈ actions (record_of show_before_showdown) ->
         raw a = "Al collected $3" ->
         street a = "SUMMARY" /\ verb a = "collected"
         /\ amount a = Some (safe_float (cm !! "amt") zero).
Proof.
  assert (E : _parse_one show_before_showdown
              = Returned (Some (record_of show_before_showdown)))
    by (vm_compute; reflexivity).
  assert (L : "Al collected $3" ∈ lines_of show_before_showdown)
    by (apply (bool_decide_unpack _); vm_compute; exact I).
  eexists. split; [exact E|]. split; [exact L|].
  assert (C : collected_event "Al collected $3"
                (default ∅ (Re.search Patterns.collected "Al collected $3")))
    by (repeat split; vm_compute; reflexivity).
  split; [exact C|].
  exact (proj1 (collected_and_show_tags show_before_showdown _ E _ L) _ C).
Defined.

(** A collected line written with a colon is a match of the action
    pattern, which the scan tries first: it is no collected-amount event,
    and its action has the street of the scan. *)
Lemma colon_collected_is_an_action :
  lines_of colon_collected = ["*** FLOP ***"; "Bob: collected $5"]
  /\ is_Some (Re.search Patterns.action "Bob: collected $5")
  /\ exists h x, _parse_one colon_collected = Returned (Some h)
       /\ actions h
          = [mk_Action "FLOP" "Bob" "collected" (Some x) None None "Bob: collected $5"]
       /\ write_lines h
          = Returned ["PokerStars Hand #0000000000: Hold'em No Limit  -";
                      "Table 'Pokerdom Table'  Seat #1";
                      "*** HOLE CARDS ***";
                      "*** FLOP ***";
                      "*** SUMMARY ***";
                      "Bob collected $5.00"].
Proof.
  split; [vm_compute; reflexivity|].
  split; [vm_compute; eauto|].
  exists (record_of colon_collected). eexists.
  repeat split; vm_compute; reflexivity.
Qed.

(** *** The hero's cards *)

Lemma dealt_scan_idle (ls : list string) (h : Hand) :
  (forall l, l ∈ ls -> Re.search Patterns.dealt l = None) ->
  for_each dealt_step ls h = Returned h.
Proof.
  induction ls as [|l ls IH]; intros Hn; cbn [for_each]; [reflexivity|].
  assert (dealt_step h l = Returned h) as ->.
  { unfold dealt_step. now rewrite (Hn l) by (apply elem_of_cons; auto). }
  rewrite bind_Returned. apply IH. intros l' Hl'. apply Hn. apply elem_of_cons; auto.
Qed.

(** C3, as the code has it.  The hero and the hole cards of the record
    are those of the last line of the chunk that the dealt pattern
    matches: each match overwrites the one before. *)
Theorem hero_last_match_wins (hand_text : string) (h : Hand)
    (before after : list string) (ln : string) (dm : Re.groups) :
  _parse_one hand_text = Returned (Some h) ->
  lines_of hand_text = (before ++ ln :: after)%list ->
  Re.search Patterns.dealt ln = Some dm ->
  (forall l, l ∈ after -> Re.search Patterns.dealt l = None) ->
  hero h = normalize_name <$> dm !! "name"
  /\ hero_hole h = Str.strip <$> dm !! "cards".
Proof.
  intros E El Hm Hafter.
  apply _parse_one_inv in E
    as (line0 & rest & h1 & h2 & h3 & h4 & street & El' & _ & _ & _ & E4 & E5).
  assert (H5 : hero h = hero h4 /\ hero_hole h = hero_hole h4).
  { split.
    - apply (for_each_keeps _ (fun st => hero st.2)) in E5; [exact E5|].
      intros st x st' F. now apply action_step_frame in F as (_ & -> & _).
    - apply (for_each_keeps _ (fun st => hero_hole st.2)) in E5; [exact E5|].
      intros st x st' F. now apply action_step_frame in F as (_ & _ & ->). }
  destruct H5 as (-> & ->).
  rewrite <- El', El in E4.
  rewrite for_each_app in E4. apply bind_inv in E4 as (hb & _ & E4).
  simpl in E4. apply bind_inv in E4 as (hl & Hl & E4).
  rewrite dealt_scan_idle in E4 by assumption. inversion E4; subst h4; clear E4.
  unfold dealt_step in Hl. rewrite Hm in Hl. unfold group_str in Hl.
  destruct (dm !! "name"); [|discriminate].
  destruct (dm !! "cards"); [|discriminate].
  simpl in Hl. inversion Hl; subst. simpl. auto.
Qed.

Lemma hero_last_match_wins_witness :
  exists dm,
    _parse_one dealt_twice = Returned (Some (record_of dealt_twice))
    /\ lines_of dealt_twice = (["Dealt to Al [Ah Kd]"] ++ "Dealt to Bob [2c 3d]" :: [])%list
    /\ Re.search Patterns.dealt "Dealt to Bob [2c 3d]" = Some dm
    /\ hero (record_of dealt_twice) = normalize_name <$> dm !! "name"
    /\ hero_hole (record_of dealt_twice) = Str.strip <$> dm !! "cards".
Proof.
  assert (E : _parse_one dealt_twice = Returned (Some (record_of dealt_twice)))
    by (vm_compute; reflexivity).
  assert (L : lines_of dealt_twice
              = (["Dealt to Al [Ah Kd]"] ++ "Dealt to Bob [2c 3d]" :: [])%list)
    by (vm_compute; reflexivity).
  assert (M : Re.search Patterns.dealt "Dealt to Bob [2c 3d]"
              = Some (default ∅ (Re.search Patterns.dealt "Dealt to Bob [2c 3d]")))
    by (vm_compute; reflexivity).
  eexists. split; [exact E|]. split; [exact L|]. split; [exact M|].
  apply (hero_last_match_wins dealt_twice _ _ _ _ _ E L M).
  intros l Hl. apply elem_of_nil in Hl. contradiction.
Defined.

(** C3, as the specification has it, fails: with two dealt lines, both
    matched by the dealt pattern, the record holds the hero and the cards
    of the second line, not of the first. *)
Lemma first_dealt_line_does_not_win :
  lines_of dealt_twice = ["Dealt to Al [Ah Kd]"; "Dealt to Bob [2c 3d]"]
  /\ (Re.search Patterns.dealt "Dealt to Al [Ah Kd]" ≫= (.!! "name")) = Some "Al"
  /\ (Re.search Patterns.dealt "Dealt to Bob [2c 3d]" ≫= (.!! "name")) = Some "Bob"
  /\ exists h, _parse_one dealt_twice = Returned (Some h)
               /\ hero h = Some "Bob" /\ hero_hole h = Some "2c 3d"
               /\ hero h <> Some "Al" /\ hero_hole h <> Some "Ah Kd".
Proof.
  split; [vm_compute; reflexivity|].
  split; [vm_compute; reflexivity|].
  split; [vm_compute; reflexivity|].
  exists (record_of dealt_twice).
  split; [vm_compute; reflexivity|].
  split; [vm_compute; reflexivity|].
  split; [vm_compute; reflexivity|].
  split; vm_compute; discriminate.
Qed.

(** *** The board *)

Lemma action_step_board street h ln street' h' :
  action_step (street, h) ln = Returned (street', h') ->
  board h' = board h
  \/ exists k v, reveals ln k v /\ board h' = <[k := v]> (board h).
Proof.
  unfold action_step. intros H.
  destruct (Re.search Patterns.street ln) as [sm|] eqn:Es.
  - unfold group_str in H. destruct (sm !! "street") as [tag|] eqn:Et; [|discriminate].
    rewrite bind_Returned in H.
    destruct (sm !! "board") as [b|] eqn:Eb.
    + destruct (String.eqb b "") eqn:Ee; simpl in H; inversion H; subst; auto.
      right. do 2 eexists. split; [|reflexivity].
      exists sm, tag, b. apply String.eqb_neq in Ee. auto 10.
    + inversion H; auto.
  - left. split_returned; reflexivity.
Qed.

Lemma street_of_tag_range (tag : string) :
  street_of_tag tag ∈ ["FLOP"; "TURN"; "RIVER"; "SHOWDOWN"; "SUMMARY"; "PREFLOP"].
Proof.
  unfold street_of_tag.
  repeat match goal with |- context [if ?c then _ else _] => destruct c end;
    apply (bool_decide_unpack _); vm_compute; exact I.
Qed.

(** Every entry of the board mapping comes from a street-marker line of
    the chunk that carried a board, under the street that marker
    enters. *)
Theorem board_entries_from_markers (hand_text : string) (h : Hand) (k v : string) :
  _parse_one hand_text = Returned (Some h) ->
  board h !! k = Some v ->
  exists ln, ln ∈ lines_of hand_text /\ reveals ln k v.
Proof.
  intros E Hk.
  apply _parse_one_inv in E
    as (line0 & rest & h1 & h2 & h3 & h4 & street & El & E1 & E2 & E3 & E4 & E5).
  destruct (actions_before_scan _ _ _ _ _ _ _ E1 E2 E3 E4 El) as (_ & Hb).
  rewrite El.
  pose (I := fun (done : list string) (st : string * Hand) =>
               forall k v, board st.2 !! k = Some v ->
                           exists ln, ln ∈ done /\ reveals ln k v).
  enough (C : I ([] ++ line0 :: rest)%list (street, h)) by exact (C k v Hk).
  apply (for_each_inv action_step I) with (st := ("PREFLOP", h4)); [| |exact E5];
    unfold I.
  - clear. intros done ln [street h] [street' h'] IH E k v Hk. simpl in *.
    destruct (action_step_board _ _ _ _ _ E) as [Eq|(k' & v' & R & Eq)];
      rewrite Eq in Hk.
    + destruct (IH k v Hk) as (l & Hl & Hr). exists l. split; [|assumption].
      apply elem_of_app; auto.
    + destruct (decide (k' = k)) as [->|Hne].
      * rewrite lookup_insert_eq in Hk. inversion Hk; subst v'.
        exists ln. split; [|assumption].
        apply elem_of_app. right. apply list_elem_of_singleton. reflexivity.
      * rewrite lookup_insert_ne in Hk by assumption.
        destruct (IH k v Hk) as (l & Hl & Hr). exists l. split; [|assumption].
        apply elem_of_app; auto.
  - simpl. rewrite Hb. intros k0 v0 H0. rewrite lookup_empty in H0. discriminate.
Qed.

(** C5, at a chunk whose hole-cards, showdown and summary markers
    carry a bracketed text: the board mapping of the record has entries
    under PREFLOP, SHOWDOWN and SUMMARY. *)
Theorem board_keys_beyond_flop_turn_river :
  exists h, _parse_one boards_everywhere = Returned (Some h)
    /\ board h !! "PREFLOP" = Some "[Ah Kd]"
    /\ board h !! "SHOWDOWN" = Some "[2c 3d 4h 5s 6s]"
    /\ board h !! "SUMMARY" = Some "[2c 3d 4h 5s 6s]".
Proof.
  exists (record_of boards_everywhere). repeat split; vm_compute; reflexivity.
Qed.
End Frames.

(** ** The segmenter *)

Section Segmenter.
Import PokerdomParser.

Lemma append_empty_r (s : string) : s ++ "" = s.
Proof. induction s; simpl; congruence. Qed.













End Segmenter.

(** ** The [.2f] format *)

Module NumFacts.
Import Num.

Lemma uint_digits (u : Decimal.uint) :
  Str.all Str.is_digit (NilEmpty.string_of_uint u) = true.
Proof. induction u; simpl; auto. Qed.

Lemma Z_to_string_digits (n : Z) : is_digits (Z_to_string n) = true.
Proof.
  unfold Z_to_string, is_digits, NilZero.string_of_uint.
  destruct (N.to_uint (Z.to_N n)) eqn:E; try reflexivity;
    rewrite <- E; rewrite uint_digits, andb_true_r; rewrite E; reflexivity.
Qed.

Lemma Z_to_string_digit (d : Z) :
  0 <= d <= 9 -> exists c, Z_to_string d = String c "" /\ Str.is_digit c = true.
Proof.
  intros H.
  assert (d = 0 \/ d = 1 \/ d = 2 \/ d = 3 \/ d = 4 \/ d = 5 \/ d = 6 \/ d = 7
          \/ d = 8 \/ d = 9) as C by lia.
  repeat destruct C as [->|C]; try subst d; eexists; split; reflexivity.
Qed.

Lemma two_digits_shape (n : Z) :
  0 <= n < 100 ->
  Str.all Str.is_digit (two_digits n) = true /\ String.length (two_digits n) = 2%nat.
Proof.
  intros H. unfold two_digits.
  destruct (Z_to_string_digit (n / 10)) as (c1 & -> & D1).
  { assert (n / 10 < 10) by (apply Z.div_lt_upper_bound; lia).
    assert (0 <= n / 10) by (apply Z.div_pos; lia). lia. }
  destruct (Z_to_string_digit (n mod 10)) as (c2 & -> & D2).
  { pose proof (Z.mod_pos_bound n 10). lia. }
  simpl. rewrite D1, D2. auto.
Qed.

Lemma split_dot_digits (ip fp : string) :
  Str.all Str.is_digit ip = true ->
  split_dot (ip ++ String "." fp) = (ip, Some fp).
Proof.
  induction ip as [|c ip IH]; simpl; intros H; [reflexivity|].
  apply andb_prop in H as [Hc Hip].
  destruct (Ascii.eqb c ".") eqn:E.
  - apply Ascii.eqb_eq in E. subst c. discriminate.
  - now rewrite IH.
Qed.

Lemma two_decimals_unsigned (s : string) :
  is_digits s = true -> forall t, two_decimals (s ++ t) = unsigned_two_decimals (s ++ t).
Proof.
  destruct s as [|c s]; [discriminate|]. unfold is_digits. simpl.
  intros [Hc _]%andb_prop t.
  destruct c as [[] [] [] [] [] [] [] []]; try reflexivity; discriminate.
Qed.

Lemma fixed2_two_decimals (neg : bool) (n : Z) :
  0 <= n -> two_decimals (fixed2 neg n) = true.
Proof.
  intros H. unfold fixed2.
  pose proof (Z_to_string_digits (n / 100)) as Di.
  destruct (two_digits_shape (n mod 100)) as (Df & Lf).
  { pose proof (Z.mod_pos_bound n 100). lia. }
  assert (B : unsigned_two_decimals
                (Z_to_string (n / 100) ++ "." ++ two_digits (n mod 100)) = true).
  { unfold unsigned_two_decimals.
    apply andb_prop in Di as Di'. destruct Di' as [_ Da].
    change ("." ++ two_digits (n mod 100)) with (String "." (two_digits (n mod 100))).
    rewrite split_dot_digits by assumption.
    rewrite Di, Df, Lf. reflexivity. }
  destruct neg.
  - exact B.
  - change ("" ++ ?x) with x. rewrite two_decimals_unsigned by assumption. exact B.
Qed.

Lemma div_half_even_nonneg (n d : Z) : 0 <= n -> 0 < d -> 0 <= div_half_even n d.
Proof.
  intros Hn Hd. unfold div_half_even.
  assert (0 <= n / d) by (apply Z.div_pos; lia).
  repeat match goal with |- context [if ?c then _ else _] => destruct c end; lia.
Qed.

(** The [.2f] format of a finite float has exactly two decimals. *)
Lemma format_2f_two_decimals (x : float) :
  is_finite x = true -> two_decimals (format_2f x) = true.
Proof.
  destruct x as [neg|neg| |neg m e]; simpl; try discriminate; intros _.
  - apply fixed2_two_decimals. lia.
  - apply fixed2_two_decimals.
    destruct (0 <=? e) eqn:E.
    + apply Z.leb_le in E. assert (0 < 2 ^ e) by (apply Z.pow_pos_nonneg; lia). lia.
    + apply Z.leb_gt in E. apply div_half_even_nonneg; [lia|].
      apply Z.pow_pos_nonneg; lia.
Qed.
End NumFacts.

(** ** The amounts the patterns capture *)

Section NumberCapture.
Import Num Re.

Lemma split_dot_no_dot (w : string) :
  Str.all Str.is_digit w = true -> split_dot w = (w, None).
Proof.
  induction w as [|c w IH]; simpl; intros H; [reflexivity|].
  apply andb_prop in H as [Hc Hw].
  destruct (Ascii.eqb c ".") eqn:E.
  - apply Ascii.eqb_eq in E. subst c. discriminate.
  - now rewrite IH.
Qed.

Lemma chr_dot (c : ascii) : cls_test (CChar ".") c = true -> c = "."%char.
Proof.
  destruct c as [[] [] [] [] [] [] [] []]; vm_compute; congruence.
Qed.

Lemma py_float_unsigned (w t : string) :
  is_digits w = true ->
  py_float (w ++ t)
  = match unsigned_decimal (w ++ t) with
    | Some (n, d) => Returned (of_ratio false n d)
    | None => Raised (ValueError ("could not convert string to float: " ++ w ++ t))
    end.
Proof.
  destruct w as [|c w]; [discriminate|]. unfold is_digits. simpl.
  intros [Hc _]%andb_prop. unfold py_float.
  destruct c as [[] [] [] [] [] [] [] []]; try reflexivity; discriminate.
Qed.

(** [float] returns on every text that the pattern of a number
    consumed. *)
Lemma number_parses (v : string) :
  captured_by Patterns.number v -> exists x, py_float v = Returned x.
Proof.
  intros (i & s & g & j & t & h & M & ->).
  destruct (ReFacts.Matches_captured _ _ _ _ _ _ _ M) as (w & E & ->).
  unfold Patterns.number in M. inversion M as [| | |? ? ? ? ? j1 t1 h1 ? ? ? M1 M2| | | | |];
    subst; clear M.
  destruct (ReFacts.Matches_captured _ _ _ _ _ _ _ M1) as (w1 & E1 & _).
  assert (D1 : is_digits w1 = true)
    by (eapply ReFacts.digits_only_sound; [exact M1 | reflexivity | exact E1]).
  apply andb_prop in D1 as D1'. destruct D1' as [_ A1].
  unfold opt in M2. inversion M2 as [| | | |? ? ? ? ? ? ? ? M3|? ? ? ? ? ? ? ? M3| | |];
    subst; clear M2.
  - inversion M3 as [| | |? ? ? ? ? j2 t2 h2 ? ? ? M4 M5| | | | |]; subst; clear M3.
    inversion M4 as [| |? c ? ? ? Hc| | | | | |]; subst; clear M4.
    apply chr_dot in Hc. subst c.
    destruct (ReFacts.Matches_captured _ _ _ _ _ _ _ M5) as (w2 & E2 & _).
    assert (D2 : is_digits w2 = true)
      by (eapply ReFacts.digits_only_sound; [exact M5 | reflexivity | exact E2]).
    assert (w = w1 ++ String "." w2) as ->.
    { eapply ReFacts.consumed_inj; [reflexivity|].
      rewrite E1, E2, ReFacts.append_assoc'. reflexivity. }
    rewrite py_float_unsigned by assumption. unfold unsigned_decimal.
    rewrite NumFacts.split_dot_digits by assumption. rewrite D1, D2. simpl. eauto.
  - inversion M3; subst.
    assert (w = w1) as -> by (eapply ReFacts.consumed_inj; [reflexivity | exact E1]).
    rewrite <- (append_empty_r w1). rewrite py_float_unsigned by assumption.
    rewrite append_empty_r. unfold unsigned_decimal.
    rewrite split_dot_no_dot, D1 by assumption. eauto.
Qed.

(** A group whose bodies are all the pattern of a number holds, when it
    is bound, a text on which [float] returns: [safe_float] takes its
    value, not the default. *)
Lemma search_number r s m n v :
  Re.search r s = Some m -> bodies_pass is_number n r = true ->
  m !! n = Some v ->
  exists x, py_float v = Returned x /\ forall d, safe_float (m !! n) d = x.
Proof.
  intros H D Hv. destruct (ReFacts.search_origin _ _ _ _ _ H Hv) as (body & Hb & Hc).
  pose proof (ReFacts.bodies_pass_elem _ _ _ _ D Hb) as N.
  apply bool_decide_eq_true_1 in N. subst body.
  destruct (number_parses v Hc) as (x & Hx). exists x. split; [exact Hx|].
  intros d. unfold safe_float, float_of. now rewrite Hv, Hx.
Qed.

End NumberCapture.

(** ** The renderer *)

Section WriterLines.
Import PokerStarsWriter.

Lemma mem_append (c : ascii) (a b : string) :
  Str.mem c (a ++ b) = Str.mem c a || Str.mem c b.
Proof. induction a; simpl; [reflexivity|]. now rewrite IHa, orb_assoc. Qed.

(** A line with a character the section header lacks is not the
    header. *)
Lemma not_header_by_char (c : ascii) (a b : string) :
  Str.mem c SHOW_DOWN = false -> a ++ String c b <> SHOW_DOWN.
Proof.
  intros Hc E.
  assert (M : Str.mem c (a ++ String c b) = true).
  { rewrite mem_append. simpl. rewrite Ascii.eqb_refl. apply orb_true_r. }
  rewrite E in M. congruence.
Qed.

Lemma lstrip_keep (p : ascii -> bool) (c : ascii) (s : string) :
  p c = false -> Str.lstrip_by p (String c s) = String c s.
Proof. intros H. simpl. now rewrite H. Qed.

Lemma rstrip_keep (p : ascii -> bool) (c : ascii) (s : string) :
  p c = false -> Str.rstrip_by p (s ++ String c "") = s ++ String c "".
Proof.
  intros H. induction s as [|d s IH]; simpl.
  - now rewrite H.
  - rewrite IH. destruct s; reflexivity.
Qed.

Lemma rstrip_drop (p : ascii -> bool) (c : ascii) (s : string) :
  p c = true -> Str.rstrip_by p (s ++ String c "") = Str.rstrip_by p s.
Proof.
  intros H. induction s as [|d s IH]; simpl.
  - now rewrite H.
  - now rewrite IH.
Qed.

Lemma strip_keep (c d : ascii) (s : string) :
  Str.is_space c = false -> Str.is_space d = false ->
  Str.strip (String c (s ++ String d "")) = String c (s ++ String d "").
Proof.
  intros Hc Hd. unfold Str.strip.
  change (String c (s ++ String d "")) with (String c s ++ String d "").
  rewrite rstrip_keep by assumption. simpl. now rewrite Hc.
Qed.

Lemma strip_drop (c : ascii) (s : string) :
  Str.is_space c = true -> Str.strip (s ++ String c "") = Str.strip s.
Proof. intros Hc. unfold Str.strip. now rewrite rstrip_drop. Qed.

(** The header line without the [strip]: it only takes the blank that
    ends the line when the date is absent. *)
Lemma strftime_et_ends (d : Time.datetime) :
  exists w, Time.strftime_et d = w ++ "T".
Proof.
  unfold Time.strftime_et. eexists.
  repeat rewrite <- ReFacts.append_assoc'.
  change " ET" with (" E" ++ "T"). rewrite <- ReFacts.append_assoc'. reflexivity.
Qed.

Lemma header_line_eq (hand : Hand) :
  header_line hand
  = "PokerStars Hand #" ++ hid_of hand ++ ": " ++ game hand ++ " "
      ++ stakes_of hand ++ " -" ++ date_suffix hand.
Proof.
  unfold header_line, date_suffix, dt_of.
  set (u := "okerStars Hand #" ++ hid_of hand ++ ": " ++ game hand ++ " "
              ++ stakes_of hand).
  assert (R : forall t,
             "PokerStars Hand #" ++ hid_of hand ++ ": " ++ game hand ++ " "
               ++ stakes_of hand ++ t = String "P" (u ++ t)).
  { intros t. unfold u. rewrite !ReFacts.append_assoc'. reflexivity. }
  rewrite !R. destruct (date_utc hand) as [d|].
  - destruct (strftime_et_ends d) as (w & ->).
    replace (u ++ " - " ++ w ++ "T") with ((u ++ " - " ++ w) ++ "T")
      by (rewrite !ReFacts.append_assoc'; reflexivity).
    replace (u ++ " -" ++ " " ++ w ++ "T") with ((u ++ " - " ++ w) ++ "T")
      by (rewrite !ReFacts.append_assoc'; reflexivity).
    apply strip_keep; reflexivity.
  - replace (String "P" (u ++ " - " ++ "")) with (String "P" (u ++ " -") ++ " ")
      by (simpl; rewrite !ReFacts.append_assoc'; reflexivity).
    rewrite strip_drop by reflexivity.
    replace (u ++ " -" ++ "") with ((u ++ " ") ++ "-")
      by (rewrite !ReFacts.append_assoc'; reflexivity).
    replace (u ++ " -") with ((u ++ " ") ++ "-")
      by (rewrite !ReFacts.append_assoc'; reflexivity).
    apply strip_keep; reflexivity.
Qed.

Lemma format_action_not_header (a : Action) (cur line : string) :
  _format_action a cur = Some line -> line <> SHOW_DOWN.
Proof.
  unfold _format_action. intros H.
  repeat match type of H with
    | context [if ?c then _ else _] => destruct c
    | context [match ?x with _ => _ end] => destruct x
    end;
    inversion H; subst; clear H;
    first [ apply (not_header_by_char ":" (actor a)); reflexivity | discriminate ].
Qed.

Lemma dump_street_not_header (cur : string) (hand : Hand) (tag label : string) :
  label ∈ ["HOLE CARDS"; "FLOP"; "TURN"; "RIVER"] ->
  SHOW_DOWN ∉ dump_street cur hand tag label.
Proof.
  intros Hl Hin. unfold dump_street in Hin.
  destruct (_ && _); [now apply elem_of_nil in Hin|].
  apply elem_of_app in Hin as [Hin|Hin].
  - destruct (String.eqb tag "PREFLOP"); [now apply elem_of_nil in Hin|].
    apply list_elem_of_singleton in Hin.
    repeat (apply elem_of_cons in Hl as [->|Hl]);
      try (now apply elem_of_nil in Hl);
      destruct (String.eqb _ ""); discriminate.
  - apply list_elem_of_omap in Hin as (a & _ & Ha).
    destruct (_format_action a cur) as [line|] eqn:E; [|discriminate].
    destruct (String.eqb line ""); [discriminate|]. inversion Ha; subst.
    now apply format_action_not_header in E.
Qed.

Lemma before_showdown_not_header (hand : Hand) :
  SHOW_DOWN ∉ lines_before_showdown hand.
Proof.
  unfold lines_before_showdown. intros H.
  apply elem_of_cons in H as [H|H].
  { rewrite header_line_eq in H. discriminate. }
  apply elem_of_cons in H as [H|H]; [discriminate|].
  apply elem_of_app in H as [H|H].
  { apply list_elem_of_fmap in H as (s & E & _). discriminate. }
  apply elem_of_app in H as [H|H].
  { unfold blind_lines in H. apply elem_of_app in H as [H|H].
    - destruct (blinds hand !! "SB") as [[n x]|]; [|now apply elem_of_nil in H].
      apply list_elem_of_singleton in H. symmetry in H. revert H.
      apply (not_header_by_char ":" n). reflexivity.
    - destruct (blinds hand !! "BB") as [[n x]|]; [|now apply elem_of_nil in H].
      apply list_elem_of_singleton in H. symmetry in H. revert H.
      apply (not_header_by_char ":" n). reflexivity. }
  apply elem_of_cons in H as [H|H]; [discriminate|].
  apply elem_of_app in H as [H|H].
  { unfold dealt_lines in H. destruct (_ && _); [|now apply elem_of_nil in H].
    apply list_elem_of_singleton in H. discriminate. }
  repeat (apply elem_of_app in H as [H|H];
          [revert H; apply dump_street_not_header;
           apply (bool_decide_unpack _); vm_compute; exact I|]).
  revert H. apply dump_street_not_header.
  apply (bool_decide_unpack _); vm_compute; exact I.
Qed.

Lemma collect_scan_returned (cur : string) (coll : list Action) : forall out0 out,
  for_each (collect_step cur) coll out0 = Returned out ->
  out = (out0 ++ List.map (summary_line cur) coll)%list
  /\ Forall (fun a => is_Some (amount a)) coll.
Proof.
  induction coll as [|a coll IH]; intros out0 out H; cbn [for_each] in H.
  - inversion H; subst. rewrite app_nil_r. auto.
  - apply bind_inv in H as (out1 & E1 & H).
    unfold collect_step, collected_line in E1.
    destruct (amount a) as [x|] eqn:Ea; [|discriminate]. simpl in E1.
    inversion E1; subst out1; clear E1.
    apply IH in H as (-> & F). split.
    + rewrite <- app_assoc. simpl. unfold summary_line at 2. now rewrite Ea.
    + constructor; [rewrite Ea; eauto | assumption].
Qed.

Lemma collect_scan_returns (cur : string) (coll : list Action) : forall out0,
  Forall (fun a => is_Some (amount a)) coll ->
  exists out, for_each (collect_step cur) coll out0 = Returned out.
Proof.
  induction coll as [|a coll IH]; intros out0 F; cbn [for_each]; [eauto|].
  inversion F as [|? ? [x Ex] F']; subst.
  assert (collect_step cur out0 a
          = Returned (app out0 [actor a ++ " collected " ++ cur ++ Num.format_2f x]))
    as -> by (unfold collect_step, collected_line; now rewrite Ex).
  rewrite bind_Returned. apply IH. assumption.
Qed.


(** The lines of [write], when it returns. *)
Lemma write_lines_returned (hand : Hand) (out : list string) :
  write_lines hand = Returned out ->
  let coll := List.filter is_collected (actions hand) in
  out = (lines_before_showdown hand ++ showdown_lines hand
         ++ (if bool_decide (coll = []) then []
             else "*** SUMMARY ***" :: List.map (summary_line (cur_of hand)) coll))%list
  /\ Forall (fun a => is_Some (amount a)) coll.
Proof.
  unfold write_lines, summary_lines. fold is_collected. intros H. simpl.
  unfold lines_before_showdown.
  destruct (bool_decide (List.filter is_collected (actions hand) = [])) eqn:E.
  - inversion H; subst. apply bool_decide_eq_true_1 in E. rewrite E.
    split; [|constructor]. rewrite app_nil_r.
    repeat (rewrite <- ?app_assoc; simpl). reflexivity.
  - apply collect_scan_returned in H as (-> & F). split; [|assumption].
    repeat (rewrite <- ?app_assoc; simpl). reflexivity.
Qed.

Lemma summary_not_header (cur : string) (coll : list Action) :
  SHOW_DOWN ∉ "*** SUMMARY ***" :: List.map (summary_line cur) coll.
Proof.
  intros H. apply elem_of_cons in H as [H|H]; [discriminate|].
  apply list_elem_of_fmap in H as (a & E & _). symmetry in E. revert E.
  unfold summary_line.
  replace (actor a ++ " collected " ++ cur ++ Num.format_2f (default zero (amount a)))
    with ((actor a ++ " ")
            ++ String "c" ("ollected " ++ cur ++ Num.format_2f (default zero (amount a))))
    by (rewrite ReFacts.append_assoc'; reflexivity).
  apply not_header_by_char. reflexivity.
Qed.

Lemma filter_nonempty {A : Type} (f : A -> bool) (l : list A) :
  List.filter f l <> [] <-> exists a, a ∈ l /\ f a = true.
Proof.
  split.
  - intros H. destruct (List.filter f l) as [|a r] eqn:E; [congruence|].
    exists a. rewrite list_elem_of_In. apply filter_In. rewrite E. now left.
  - intros (a & Ha & Hf) E. rewrite list_elem_of_In in Ha.
    assert (In a (List.filter f l)) as Hin by (apply filter_In; auto).
    rewrite E in Hin. contradiction.
Qed.

Lemma showdown_lines_header (hand : Hand) :
  SHOW_DOWN ∈ showdown_lines hand
  <-> exists a, a ∈ actions hand /\ street a = "SHOWDOWN".
Proof.
  unfold showdown_lines.
  pose proof (filter_nonempty (on_street "SHOWDOWN") (actions hand)) as F.
  destruct (bool_decide (List.filter (on_street "SHOWDOWN") (actions hand) = [])) eqn:E.
  - apply bool_decide_eq_true_1 in E. split.
    + intros H. now apply elem_of_nil in H.
    + intros (a & Ha & Hs). exfalso. apply (proj2 F); [|exact E].
      exists a. split; [assumption|]. unfold on_street. now apply String.eqb_eq.
  - apply bool_decide_eq_false_1 in E. split.
    + intros _. apply F in E as (a & Ha & Hs). exists a. split; [assumption|].
      now apply String.eqb_eq.
    + intros _. apply elem_of_cons. now left.
Qed.

(** C7, as the code has it.  The lines of the output hold the showdown
    header exactly when some action of the record is tagged SHOWDOWN;
    every action tagged SHOWDOWN with verb showed and cards has its
    line, actor and cards, in the output. *)
Theorem showdown_section (hand : Hand) (out : list string) :
  write_lines hand = Returned out ->
  (SHOW_DOWN ∈ out <-> exists a, a ∈ actions hand /\ street a = "SHOWDOWN")
  /\ forall a c,
       a ∈ actions hand -> street a = "SHOWDOWN" -> verb a = "showed" ->
       cards a = Some c -> c <> "" ->
       (actor a ++ ": shows [" ++ c ++ "]") ∈ out.
Proof.
  intros H. apply write_lines_returned in H as (-> & _). split.
  - rewrite <- showdown_lines_header. split.
    + intros H. apply elem_of_app in H as [H|H].
      { now apply before_showdown_not_header in H. }
      apply elem_of_app in H as [H|H]; [assumption|].
      destruct (bool_decide _); [now apply elem_of_nil in H|].
      now apply summary_not_header in H.
    + intros H. apply elem_of_app. right. apply elem_of_app. now left.
  - intros a c Ha Hs Hv Hc Hne.
    apply elem_of_app. right. apply elem_of_app. left.
    unfold showdown_lines.
    assert (Hin : a ∈ List.filter (on_street "SHOWDOWN") (actions hand)).
    { rewrite list_elem_of_In. apply filter_In. rewrite <- list_elem_of_In.
      split; [assumption|]. unfold on_street. now apply String.eqb_eq. }
    destruct (bool_decide _) eqn:E.
    { apply bool_decide_eq_true_1 in E. rewrite E in Hin. now apply elem_of_nil in Hin. }
    apply elem_of_cons. right. apply list_elem_of_omap. exists a.
    split; [assumption|]. rewrite Hv, Hc. simpl.
    apply String.eqb_neq in Hne. now rewrite Hne.
Qed.

(** C8, as the code has it.  With a big blind that is not zero, the
    header line is the site label and hand id, the game label, the
    stakes in parentheses, a dash and the date when there is one; a
    finite blind is written with exactly two decimals; the hand id is
    the placeholder when the record has none. *)
Theorem header_with_stakes (hand : Hand) (sb bb : float) :
  stakes hand = (sb, bb) -> Num.truthy bb = true ->
  header_line hand
  = "PokerStars Hand #" ++ hid_of hand ++ ": " ++ game hand ++ " ("
      ++ cur_of hand ++ Num.format_2f sb ++ "/" ++ cur_of hand ++ Num.format_2f bb
      ++ ") -" ++ date_suffix hand
  /\ (is_finite sb = true -> two_decimals (Num.format_2f sb) = true)
  /\ (is_finite bb = true -> two_decimals (Num.format_2f bb) = true)
  /\ (hand_id hand = None -> hid_of hand = "0000000000")
  /\ (date_utc hand = None -> date_suffix hand = "").
Proof.
  intros Hs Hb. split.
  - rewrite header_line_eq. unfold stakes_of. rewrite Hs, Hb.
    rewrite !ReFacts.append_assoc'. reflexivity.
  - repeat split; try apply NumFacts.format_2f_two_decimals.
    + unfold hid_of. now intros ->.
    + unfold date_suffix. now intros ->.
Qed.

(** Without a big blind the header line has no stakes at all. *)
Lemma header_without_stakes (hand : Hand) (sb bb : float) :
  stakes hand = (sb, bb) -> Num.truthy bb = false ->
  header_line hand
  = "PokerStars Hand #" ++ hid_of hand ++ ": " ++ game hand ++ "  -" ++ date_suffix hand.
Proof.
  intros Hs Hb. rewrite header_line_eq. unfold stakes_of. rewrite Hs, Hb. reflexivity.
Qed.

End WriterLines.

(** ** From the text of a chunk to the text of its record *)

Section Pipeline.
Import PokerdomParser PokerStarsWriter.



(** The two phrasings of a raise to 12.5 render alike. *)
Lemma raise_phrasings_render_alike :
  convert_text "Bob: raises to 12.5" = convert_text "Bob: raises 12.5"
  /\ exists out, convert_text "Bob: raises 12.5" = Returned [out]
                 /\ Str.splitlines out
                    = ["PokerStars Hand #0000000000: Hold'em No Limit  -";
                       "Table 'Pokerdom Table'  Seat #1";
                       "*** HOLE CARDS ***";
                       "Bob: raises to $12.50"].
Proof.
  split; [vm_compute; reflexivity|]. eexists. split; vm_compute; reflexivity.
Qed.


(** *** The showdown section *)

Lemma showdown_section_witness :
  write_lines (record_of shown_hand) = Returned (lines_of_record (record_of shown_hand))
  /\ (SHOW_DOWN ∈ lines_of_record (record_of shown_hand)
      <-> exists a, a ∈ actions (record_of shown_hand) /\ street a = "SHOWDOWN")
  /\ "Al: shows [Kc Kd]" ∈ lines_of_record (record_of shown_hand).
Proof.
  assert (E : write_lines (record_of shown_hand)
              = Returned (lines_of_record (record_of shown_hand)))
    by (vm_compute; reflexivity).
  destruct (showdown_section _ _ E) as (I & L).
  split; [exact E|]. split; [exact I|].
  pose (a := mk_Action "SHOWDOWN" "Al" "showed" None None (Some "Kc Kd")
               "Al showed [Kc Kd]").
  assert (Ha : a ∈ actions (record_of shown_hand)) by (vm_compute; constructor).
  assert (Hc : "Kc Kd" <> "") by discriminate.
  exact (L a "Kc Kd" Ha eq_refl eq_refl eq_refl Hc).
Defined.

(** C7, as the specification has it, fails in both directions.  A fold
    after the showdown marker gives a record with no showed action whose
    output has the showdown header; a record whose only action has the
    verb showed under another street has no showdown header in its
    output. *)
Lemma showdown_header_without_showed :
  (exists h out,
      _parse_one fold_at_showdown = Returned (Some h)
      /\ write_lines h = Returned out
      /\ SHOW_DOWN ∈ out
      /\ forall a, a ∈ actions h -> verb a <> "showed")
  /\ (exists out,
        write_lines (set_actions [mk_Action "RIVER" "Al" "showed" None None
                                    (Some "Kc Kd") "Al showed [Kc Kd]"] new_Hand)
        = Returned out
        /\ SHOW_DOWN ∉ out).
Proof.
  split.
  - exists (record_of fold_at_showdown), (lines_of_record (record_of fold_at_showdown)).
    split; [vm_compute; reflexivity|]. split; [vm_compute; reflexivity|].
    split; [apply (bool_decide_unpack _); vm_compute; exact I|].
    apply Forall_forall. apply (bool_decide_unpack _). vm_compute. exact I.
  - eexists. split; [vm_compute; reflexivity|].
    apply (bool_decide_unpack _). vm_compute. exact I.
Qed.

(** *** The header line *)

Lemma header_with_stakes_witness :
  header_line (record_of plain_header)
  = "PokerStars Hand #123: Hold'em No Limit ($0.00/$0.25) - 2024/01/01 10:00:00 ET"
  /\ two_decimals (Num.format_2f (stakes (record_of plain_header)).1) = true
  /\ two_decimals (Num.format_2f (stakes (record_of plain_header)).2) = true.
Proof.
  destruct (header_with_stakes (record_of plain_header)
              (stakes (record_of plain_header)).1 (stakes (record_of plain_header)).2)
    as (E & F1 & F2 & _); try (vm_compute; reflexivity).
  split; [rewrite E; vm_compute; reflexivity|].
  split; [apply F1 | apply F2]; vm_compute; reflexivity.
Defined.

(** C8, as the specification has it, fails twice.  A chunk with no
    header gives a record with zero stakes, and its header line has no
    stakes fragment; a big blind beyond the finite floats is written with
    no decimals. *)
Lemma header_off_pattern :
  (exists h, _parse_one "Bob: folds" = Returned (Some h)
     /\ stakes h = (zero, zero)
     /\ header_line h = "PokerStars Hand #0000000000: Hold'em No Limit  -"
     /\ Str.mem "(" (header_line h) = false)
  /\ (exists h, _parse_one huge_stakes = Returned (Some h)
        /\ header_line h
           = "PokerStars Hand #1: Hold'em No Limit ($1.00/$inf) - 2024/01/01 10:00:00 ET"
        /\ two_decimals "inf" = false).
Proof.
  split.
  - exists (record_of "Bob: folds"). repeat split; vm_compute; reflexivity.
  - exists (record_of huge_stakes). repeat split; vm_compute; reflexivity.
Qed.

(** *** The summary section *)

(** C9, at a chunk with a collected line that has a colon and no amount:
    the line is an action with the verb collected and no amount, and
    [write] raises on its record. *)
Theorem write_raises_without_amount :
  exists h, _parse_one "Bob: collected" = Returned (Some h)
    /\ actions h
       = [mk_Action "PREFLOP" "Bob" "collected" None None None "Bob: collected"]
    /\ write h
       = Raised (TypeError "unsupported format string passed to NoneType.__format__")
    /\ convert_text "Bob: collected"
       = Raised (TypeError "unsupported format string passed to NoneType.__format__").
Proof.
  exists (record_of "Bob: collected"). repeat split; vm_compute; reflexivity.
Qed.

(** When [write] returns on a record with a collected action, the output
    has the summary header and, for each collected action, the line with
    its actor and its amount. *)
Theorem summary_section (hand : Hand) (out : list string) :
  write_lines hand = Returned out ->
  (exists a, a ∈ actions hand /\ verb a = "collected") ->
  "*** SUMMARY ***" ∈ out
  /\ forall a, a ∈ actions hand -> verb a = "collected" ->
       exists x, amount a = Some x
                 /\ (actor a ++ " collected " ++ cur_of hand ++ Num.format_2f x) ∈ out.
Proof.
  intros H (a0 & Ha0 & Hv0). apply write_lines_returned in H as (-> & F). simpl in F.
  assert (In0 : a0 ∈ List.filter is_collected (actions hand)).
  { rewrite list_elem_of_In. apply filter_In. rewrite <- list_elem_of_In.
    split; [assumption|]. unfold is_collected. now apply String.eqb_eq. }
  rewrite bool_decide_eq_false_2
    by (intros E; rewrite E in In0; now apply elem_of_nil in In0).
  split.
  - apply elem_of_app. right. apply elem_of_app. right. apply elem_of_cons. now left.
  - intros a Ha Hv.
    assert (Hin : a ∈ List.filter is_collected (actions hand)).
    { rewrite list_elem_of_In. apply filter_In. rewrite <- list_elem_of_In.
      split; [assumption|]. unfold is_collected. now apply String.eqb_eq. }
    rewrite Forall_forall in F. destruct (F a Hin) as (x & Hx). exists x.
    split; [assumption|].
    apply elem_of_app. right. apply elem_of_app. right. apply elem_of_cons. right.
    apply list_elem_of_fmap. exists a. split; [|assumption].
    unfold summary_line. now rewrite Hx.
Qed.

(** *** Errors of the extraction *)





(** *** Two blocks and a tail *)

End Pipeline.

(** * Further properties of the code *)

(** Decide a closed proposition by evaluation. *)
Ltac decided := apply (bool_decide_unpack _); vm_compute; exact I.

(** ** What each scan assigns *)

Section ScanShapes.

Lemma scan_shape {A : Type} (shape : Hand -> Hand -> Prop)
    (body : Hand -> A -> outcome Hand) :
  (forall h, shape h h) ->
  (forall h1 h2 h3, shape h1 h2 -> shape h2 h3 -> shape h1 h3) ->
  (forall h x h', body h x = Returned h' -> shape h h') ->
  forall xs h h', for_each body xs h = Returned h' -> shape h h'.
Proof.
  intros Hr Ht Hb xs h h' E.
  apply (for_each_preserves body (shape h)) with (xs := xs) (st := h); auto.
  intros x st st' S F. eapply Ht; eauto.
Qed.

Lemma table_scan_shape xs h h' :
  for_each table_step xs h = Returned h' -> table_shape h h'.
Proof.
  apply (scan_shape table_shape); unfold table_shape.
  - now intros [].
  - intros h1 h2 h3 E1 E2. rewrite E2, E1. reflexivity.
  - intros h0 x h0' F. unfold table_step in F. destruct h0. split_returned; reflexivity.
Qed.

Lemma seat_scan_shape xs h h' :
  for_each seat_step xs h = Returned h' -> seat_shape h h'.
Proof.
  apply (scan_shape seat_shape); unfold seat_shape.
  - now intros [].
  - intros h1 h2 h3 E1 E2. rewrite E2, E1. reflexivity.
  - intros h0 x h0' F. unfold seat_step in F. destruct h0. split_returned; reflexivity.
Qed.

Lemma posts_scan_shape xs h h' :
  for_each posts_step xs h = Returned h' -> posts_shape h h'.
Proof.
  apply (scan_shape posts_shape); unfold posts_shape.
  - now intros [].
  - intros h1 h2 h3 E1 E2. rewrite E2, E1. reflexivity.
  - intros h0 x h0' F. unfold posts_step in F. destruct h0. split_returned; reflexivity.
Qed.

Lemma dealt_scan_shape xs h h' :
  for_each dealt_step xs h = Returned h' -> dealt_shape h h'.
Proof.
  apply (scan_shape dealt_shape); unfold dealt_shape.
  - now intros [].
  - intros h1 h2 h3 E1 E2. rewrite E2, E1. reflexivity.
  - intros h0 x h0' F. unfold dealt_step in F. destruct h0. split_returned; reflexivity.
Qed.

Lemma action_scan_shape xs st st' :
  for_each action_step xs st = Returned st' -> action_shape st.2 st'.2.
Proof.
  intros E.
  apply (for_each_preserves action_step (fun s => action_shape st.2 s.2))
    with (xs := xs) (st := st); auto.
  - clear. intros x [s1 h1] [s2 h2] S F. unfold action_shape in *. simpl in *.
    assert (S2 : h2 = set_actions (actions h2) (set_board (board h2) h1)).
    { unfold action_step in F. destruct h1. split_returned; reflexivity. }
    rewrite S2, S. reflexivity.
  - unfold action_shape. now destruct st as [s []].
Qed.

(** The scans of [_parse_one] with what each of them assigns. *)
Lemma _parse_one_scans hand_text h :
  _parse_one hand_text = Returned (Some h) ->
  exists line0 rest h1 h2 h3 h4 street,
    let lines := line0 :: rest in
    lines_of hand_text = lines
    /\ for_each table_step (take 8 lines) (parse_header line0 new_Hand) = Returned h1
    /\ for_each seat_step lines h1 = Returned h2
    /\ for_each posts_step lines h2 = Returned h3
    /\ for_each dealt_step lines h3 = Returned h4
    /\ for_each action_step lines ("PREFLOP", h4) = Returned (street, h)
    /\ table_shape (parse_header line0 new_Hand) h1
    /\ seat_shape h1 h2 /\ posts_shape h2 h3 /\ dealt_shape h3 h4 /\ action_shape h4 h.
Proof.
  intros E. apply _parse_one_inv in E
    as (line0 & rest & h1 & h2 & h3 & h4 & street & El & E1 & E2 & E3 & E4 & E5).
  exists line0, rest, h1, h2, h3, h4, street. simpl.
  repeat split; auto.
  - eapply table_scan_shape; eauto.
  - eapply seat_scan_shape; eauto.
  - eapply posts_scan_shape; eauto.
  - eapply dealt_scan_shape; eauto.
  - apply action_scan_shape in E5. exact E5.
Qed.

End ScanShapes.

(** ** Order of the actions and street of the scan *)

Section ScanOrder.


(** The actions of a record stand in the order of the lines of the chunk,
    at most one action to a line: their raw lines are a subsequence of the
    lines of the chunk. *)
Theorem actions_in_line_order (hand_text : string) (h : Hand) :
  _parse_one hand_text = Returned (Some h) ->
  List.map raw (actions h) `sublist_of` lines_of hand_text.
Proof.
  intros E. apply _parse_one_inv in E
    as (line0 & rest & h1 & h2 & h3 & h4 & street & El & E1 & E2 & E3 & E4 & E5).
  destruct (actions_before_scan _ _ _ _ _ _ _ E1 E2 E3 E4 El) as (Hnil & _).
  rewrite El.
  pose (I := fun (done : list string) (st : string * Hand) =>
               List.map raw (actions st.2) `sublist_of` done).
  enough (C : I ([] ++ line0 :: rest)%list (street, h)) by exact C.
  apply (for_each_inv action_step I) with (st := ("PREFLOP", h4)); [| |exact E5];
    unfold I.
  - clear. intros done ln [s1 g1] [s2 g2] S F. simpl in *.
    destruct (action_step_actions _ _ _ _ _ F) as [Eq|(a & Eq & Hr & _)]; rewrite Eq.
    + now apply sublist_inserts_r.
    + rewrite map_app. simpl. rewrite Hr. apply sublist_app; [assumption|reflexivity].
  - simpl. rewrite Hnil. reflexivity.
Qed.

Lemma action_step_marker s h mk k s' h' :
  enters mk k -> action_step (s, h) mk = Returned (s', h') -> s' = k.
Proof.
  intros (sm & tag & Es & Et & ->) F. unfold action_step in F.
  rewrite Es in F. unfold group_str in F. rewrite Et in F. rewrite bind_Returned in F.
  split_returned; reflexivity.
Qed.

Lemma action_step_no_marker s h ln s' h' :
  Re.search Patterns.street ln = None ->
  action_step (s, h) ln = Returned (s', h') ->
  s' = s /\ exists more, actions h' = (actions h ++ more)%list.
Proof.
  intros Es F. unfold action_step in F. rewrite Es in F.
  split_returned; simpl; (split; [reflexivity|]);
    first [ now eexists | exists []; now rewrite app_nil_r ].
Qed.

Lemma action_step_grows s h ln s' h' :
  action_step (s, h) ln = Returned (s', h') ->
  exists more, actions h' = (actions h ++ more)%list.
Proof.
  intros F. destruct (action_step_actions _ _ _ _ _ F) as [Eq|(a & Eq & _)]; rewrite Eq.
  - exists []. now rewrite app_nil_r.
  - now eexists.
Qed.

Lemma action_scan_grows ls : forall s h s' h',
  for_each action_step ls (s, h) = Returned (s', h') ->
  exists more, actions h' = (actions h ++ more)%list.
Proof.
  induction ls as [|l ls IH]; intros s h s' h' F; cbn [for_each] in F.
  - inversion F; subst. exists []. now rewrite app_nil_r.
  - apply bind_inv in F as ([s1 h1] & F1 & F).
    apply action_step_grows in F1 as (m1 & E1).
    apply IH in F as (m2 & E2). exists (m1 ++ m2)%list.
    rewrite E2, E1. now rewrite app_assoc.
Qed.

Lemma action_scan_no_marker ls : forall s h s' h',
  (forall l, l ∈ ls -> Re.search Patterns.street l = None) ->
  for_each action_step ls (s, h) = Returned (s', h') -> s' = s.
Proof.
  induction ls as [|l ls IH]; intros s h s' h' Hn F; cbn [for_each] in F.
  - now inversion F.
  - apply bind_inv in F as ([s1 h1] & F1 & F).
    apply action_step_no_marker in F1 as (-> & _);
      [|apply Hn; apply elem_of_cons; auto].
    eapply IH; [|exact F]. intros l' Hl'. apply Hn. apply elem_of_cons; auto.
Qed.

Lemma action_step_action s h ln s' h' :
  Re.search Patterns.street ln = None -> is_Some (Re.search Patterns.action ln) ->
  action_step (s, h) ln = Returned (s', h') ->
  exists a, actions h' = (actions h ++ [a])%list /\ raw a = ln /\ street a = s.
Proof.
  intros Es [am Ea] F. unfold action_step in F. rewrite Es, Ea in F.
  split_returned. eexists. split; [reflexivity|]. simpl. auto.
Qed.

(** The action of the line [ln], scanned in street [s], stays in the
    record. *)
Lemma action_scan_at pre ln post s0 h0 s h k :
  for_each action_step (pre ++ ln :: post)%list (s0, h0) = Returned (s, h) ->
  (forall s1 h1, for_each action_step pre (s0, h0) = Returned (s1, h1) -> s1 = k) ->
  Re.search Patterns.street ln = None -> is_Some (Re.search Patterns.action ln) ->
  exists a, a ∈ actions h /\ raw a = ln /\ street a = k.
Proof.
  intros F Hk Es Ea. rewrite for_each_app in F.
  apply bind_inv in F as ([s1 h1] & F1 & F). cbn [for_each] in F.
  apply bind_inv in F as ([s2 h2] & F2 & F).
  specialize (Hk _ _ F1). subst s1.
  apply action_step_action in F2 as (a & Eq & Hr & Hs); [|assumption..].
  apply action_scan_grows in F as (more & Em).
  exists a. split; [|auto]. rewrite Em, Eq.
  apply elem_of_app. left. apply elem_of_app. right. apply list_elem_of_singleton.
  reflexivity.
Qed.

(** The street of the scan.  A line of the action pattern that is no
    street marker gives an action under the street that the last marker
    before it entered, and under PREFLOP when no marker stands before
    it. *)
Theorem action_takes_current_street (hand_text : string) (h : Hand)
    (pre post : list string) (ln : string) :
  _parse_one hand_text = Returned (Some h) ->
  lines_of hand_text = (pre ++ ln :: post)%list ->
  Re.search Patterns.street ln = None -> is_Some (Re.search Patterns.action ln) ->
  ((forall l, l ∈ pre -> Re.search Patterns.street l = None) ->
   exists a, a ∈ actions h /\ raw a = ln /\ street a = "PREFLOP")
  /\ (forall before mk mid k,
        pre = (before ++ mk :: mid)%list -> enters mk k ->
        (forall l, l ∈ mid -> Re.search Patterns.street l = None) ->
        exists a, a ∈ actions h /\ raw a = ln /\ street a = k).
Proof.
  intros E El Es Ea. apply _parse_one_inv in E
    as (line0 & rest & h1 & h2 & h3 & h4 & street & El' & _ & _ & _ & _ & E5).
  rewrite <- El', El in E5. split.
  - intros Hn. eapply action_scan_at; eauto.
    intros s1 g1 F. eapply action_scan_no_marker; eauto.
  - intros before mk mid k -> Hk Hn. eapply action_scan_at; eauto.
    intros s1 g1 F. rewrite for_each_app in F.
    apply bind_inv in F as ([s2 g2] & _ & F). cbn [for_each] in F.
    apply bind_inv in F as ([s3 g3] & F3 & F).
    apply (action_step_marker _ _ _ k) in F3; [|assumption]. subst s3.
    eapply action_scan_no_marker; eauto.
Qed.

End ScanOrder.

(** ** Texts that a group can hold *)

Section PatternAnalyses.
Import Re.

Lemma lower_append (a b : string) : Str.lower (a ++ b) = Str.lower a ++ Str.lower b.
Proof.
  induction a as [|c a IH]; [reflexivity|].
  change (String c a ++ b) with (String c (a ++ b)).
  unfold Str.lower in *. cbn [Str.map]. rewrite IH. reflexivity.
Qed.

Lemma mem_letters (c : ascii) (cs : string) :
  Str.mem c cs = true -> String c "" ∈ letters cs.
Proof.
  induction cs as [|d cs IH]; simpl; [discriminate|]. intros H.
  apply orb_prop in H as [H|H].
  - apply Ascii.eqb_eq in H. subst. apply elem_of_cons. now left.
  - apply elem_of_cons. right. now apply IH.
Qed.

Lemma digit_lower (c : ascii) :
  Str.is_digit c = true -> Str.lower (String c "") = String c "".
Proof.
  destruct c as [[] [] [] [] [] [] [] []]; vm_compute; congruence.
Qed.

Lemma digit_mem (c : ascii) :
  Str.is_digit c = true -> Str.mem c "0123456789" = true.
Proof.
  destruct c as [[] [] [] [] [] [] [] []]; vm_compute; congruence.
Qed.

Lemma Matches_words r i s g j t h :
  Matches r i s g j t h ->
  forall ws, words r = Some ws ->
    exists w, s = w ++ t /\ j = (i + String.length w)%nat /\ Str.lower w ∈ ws.
Proof.
  induction 1; simpl; intros ws Hw.
  - inversion Hw; subst. exists "". split; [reflexivity|]. split; [reflexivity|].
    apply list_elem_of_singleton. reflexivity.
  - inversion Hw; subst. exists "". split; [reflexivity|]. split; [simpl; lia|].
    apply list_elem_of_singleton. reflexivity.
  - exists (String c ""). split; [reflexivity|]. split; [simpl; lia|].
    destruct p; try discriminate; inversion Hw; subst; unfold cls_test in H.
    + apply list_elem_of_singleton.
      apply Ascii.eqb_eq in H. unfold Str.lower. cbn [Str.map]. now rewrite H.
    + rewrite (digit_lower c H). apply (mem_letters c "0123456789"). now apply digit_mem.
    + apply (mem_letters (Str.lower_char c) (Str.lower cs)). exact H.
  - destruct (words r1) as [l1|]; [|discriminate].
    destruct (words r2) as [l2|]; [|discriminate]. inversion Hw; subst.
    destruct (IHMatches1 _ eq_refl) as (w1 & -> & -> & H1).
    destruct (IHMatches2 _ eq_refl) as (w2 & -> & -> & H2).
    exists (w1 ++ w2). rewrite ReFacts.append_assoc', ReFacts.length_append'.
    split; [reflexivity|]. split; [lia|].
    rewrite lower_append. apply list_elem_of_In, in_flat_map.
    exists (Str.lower w1). split; [now apply list_elem_of_In|].
    apply in_map. now apply list_elem_of_In.
  - destruct (words r1) as [l1|]; [|discriminate].
    destruct (words r2) as [l2|]; [|discriminate]. inversion Hw; subst.
    destruct (IHMatches _ eq_refl) as (w & -> & -> & H1).
    exists w. split; [reflexivity|]. split; [reflexivity|]. apply elem_of_app. now left.
  - destruct (words r1) as [l1|]; [|discriminate].
    destruct (words r2) as [l2|]; [|discriminate]. inversion Hw; subst.
    destruct (IHMatches _ eq_refl) as (w & -> & -> & H1).
    exists w. split; [reflexivity|]. split; [reflexivity|]. apply elem_of_app. now right.
  - discriminate.
  - discriminate.
  - destruct (IHMatches _ Hw) as (w & -> & -> & H1). exists w. auto.
Qed.

Lemma captured_text body v :
  captured_by body v ->
  exists i s g j t h, Matches body i s g j t h /\ s = v ++ t
                      /\ j = (i + String.length v)%nat.
Proof.
  intros (i & s & g & j & t & h & M & ->).
  destruct (ReFacts.Matches_captured _ _ _ _ _ _ _ M) as (w & Es & Ew).
  destruct (ReFacts.Matches_consumes _ _ _ _ _ _ _ M) as (w' & Es' & Ej).
  exists i, s, g, j, t, h. split; [assumption|]. rewrite Ew.
  assert (w' = w) as -> by (eapply ReFacts.consumed_inj; eauto).
  auto.
Qed.

Lemma captured_words body v ws :
  captured_by body v -> words body = Some ws -> Str.lower v ∈ ws.
Proof.
  intros C Hw. apply captured_text in C as (i & s & g & j & t & h & M & Es & Ej).
  destruct (Matches_words _ _ _ _ _ _ _ M ws Hw) as (w & Es' & _ & Hin).
  assert (v = w) as -> by (eapply ReFacts.consumed_inj; eauto). exact Hin.
Qed.

Lemma Matches_min_len r i s g j t h :
  Matches r i s g j t h -> (i + min_len r <= j)%nat.
Proof.
  induction 1; simpl in *; lia.
Qed.

Lemma Matches_max_len r i s g j t h :
  Matches r i s g j t h -> forall b, max_len r = Some b -> (j <= i + b)%nat.
Proof.
  induction 1; simpl; intros bd Hn; try (inversion Hn; subst; lia); try discriminate.
  - destruct (max_len r1) as [a1|]; [|discriminate].
    destruct (max_len r2) as [a2|]; [|discriminate]. inversion Hn; subst.
    specialize (IHMatches1 _ eq_refl). specialize (IHMatches2 _ eq_refl). lia.
  - destruct (max_len r1) as [a1|]; [|discriminate].
    destruct (max_len r2) as [a2|]; [|discriminate]. inversion Hn; subst.
    specialize (IHMatches _ eq_refl). lia.
  - destruct (max_len r1) as [a1|]; [|discriminate].
    destruct (max_len r2) as [a2|]; [|discriminate]. inversion Hn; subst.
    specialize (IHMatches _ eq_refl). lia.
  - eauto.
Qed.

Lemma captured_max_len body v n :
  captured_by body v -> max_len body = Some n -> (String.length v <= n)%nat.
Proof.
  intros C Hn. apply captured_text in C as (i & s & g & j & t & h & M & Es & Ej).
  pose proof (Matches_max_len _ _ _ _ _ _ _ M n Hn). lia.
Qed.

(** The text of a group of a search, in lower case, is one of the words of
    a body of that group. *)
Lemma search_words r s m n v ws :
  search r s = Some m -> m !! n = Some v ->
  bodies_pass (fun b => bool_decide (words b = Some ws)) n r = true ->
  Str.lower v ∈ ws.
Proof.
  intros H Hv Hp. destruct (ReFacts.search_origin _ _ _ _ _ H Hv) as (body & Hb & C).
  pose proof (ReFacts.bodies_pass_elem _ _ _ _ Hp Hb) as Hc.
  apply bool_decide_eq_true_1 in Hc. eapply captured_words; eauto.
Qed.

Lemma search_max_len r s m n v k :
  search r s = Some m -> m !! n = Some v ->
  bodies_pass (fun b => bool_decide (max_len b = Some k)) n r = true ->
  (String.length v <= k)%nat.
Proof.
  intros H Hv Hp. destruct (ReFacts.search_origin _ _ _ _ _ H Hv) as (body & Hb & C).
  pose proof (ReFacts.bodies_pass_elem _ _ _ _ Hp Hb) as Hc.
  apply bool_decide_eq_true_1 in Hc. eapply captured_max_len; eauto.
Qed.

Lemma lower_char_caseless c d :
  Str.lower_char c = d -> caseless d = true -> c = d.
Proof.
  intros <-. destruct c as [[] [] [] [] [] [] [] []]; vm_compute; congruence.
Qed.

Lemma lower_caseless v w :
  Str.lower v = w -> Str.all caseless w = true -> v = w.
Proof.
  revert w. induction v as [|c v IH]; intros w E Hc; unfold Str.lower in E;
    cbn [Str.map] in E; subst w; [reflexivity|].
  cbn [Str.all] in Hc. apply andb_true_iff in Hc as (H1 & H2).
  f_equal; [now apply lower_char_caseless | now apply IH].
Qed.

End PatternAnalyses.

(** ** The vocabulary of the actions *)

Section ActionVocabulary.



Lemma Forall_snoc {A : Type} (P : A -> Prop) (l : list A) (a : A) :
  Forall P l -> P a -> Forall P (l ++ [a])%list.
Proof. intros H Ha. apply Forall_app. split; [assumption|]. now constructor. Qed.





End ActionVocabulary.

(** ** Blinds and currency *)

Section BlindsAndCurrency.

Lemma sign_group r ln m v :
  Re.search r ln = Some m -> m !! "cur" = Some v ->
  Re.bodies_pass (fun b => bool_decide (words b = Some ["$"; "€"; "£"; "¥"; ""]))
    "cur" r = true ->
  v = "" \/ v ∈ SIGNS.
Proof.
  intros Es Hv Hp. pose proof (search_words _ _ _ _ _ _ Es Hv Hp) as Hin.
  repeat (apply elem_of_cons in Hin as [Hin|Hin]);
    try (now apply elem_of_nil in Hin);
    apply lower_caseless in Hin; try reflexivity; subst v;
    first [now left | right; decided].
Qed.

Lemma posts_step_currency h ln h' :
  posts_step h ln = Returned h' -> currency h ∈ SIGNS -> currency h' ∈ SIGNS.
Proof.
  unfold posts_step. intros H Hc.
  destruct (Re.search Patterns.posts ln) as [pm|] eqn:Ep; [|now inversion H; subst].
  assert (C : str_or (pm !! "cur") (currency h) ∈ SIGNS).
  { destruct (pm !! "cur") as [v|] eqn:Hv; [|exact Hc].
    destruct (sign_group _ _ _ _ Ep Hv ltac:(vm_compute; reflexivity)) as [->|Hin];
      [exact Hc|].
    unfold str_or. destruct (String.eqb v ""); assumption. }
  split_returned; simpl; exact C.
Qed.

Lemma cur_of_sign h : currency h ∈ SIGNS -> cur_of h = currency h.
Proof.
  unfold cur_of, SIGNS. intros Hin.
  repeat (apply elem_of_cons in Hin as [Hin|Hin]);
    try (now apply elem_of_nil in Hin); rewrite Hin; vm_compute; reflexivity.
Qed.

(** The currency of a record is one of the four signs, so the lookup of
    [write] in [CURRENCY_SIGNS] gives the currency of the record and never
    its default. *)
Theorem currency_is_a_sign (hand_text : string) (h : Hand) :
  _parse_one hand_text = Returned (Some h) ->
  currency h ∈ SIGNS /\ cur_of h = currency h.
Proof.
  intros E. apply _parse_one_scans in E
    as (line0 & rest & h1 & h2 & h3 & h4 & street & El & E1 & E2 & E3 & E4 & E5
        & S1 & S2 & S3 & S4 & S5).
  assert (C : currency h ∈ SIGNS).
  { apply (f_equal currency) in S5, S4, S2, S1. simpl in S5, S4, S2, S1.
    rewrite S5, S4.
    apply (for_each_preserves posts_step (fun h => currency h ∈ SIGNS))
      with (xs := line0 :: rest) (st := h2); [|  |exact E3].
    - intros x st st' P F. eapply posts_step_currency; eauto.
    - rewrite S2, S1.
      destruct (parse_header_frame line0 new_Hand) as (_ & _ & _ & _ & _ & ->).
      decided. }
  split; [exact C | now apply cur_of_sign].
Qed.

Lemma posts_step_effect h ln h' :
  posts_step h ln = Returned h' ->
  (Re.search Patterns.posts ln = None /\ h' = h)
  \/ exists key e, posts_entry ln key e /\ blinds h' = <[key := e]> (blinds h).
Proof.
  unfold posts_step. intros H.
  destruct (Re.search Patterns.posts ln) as [pm|] eqn:Ep;
    [|left; now inversion H; subst].
  right. unfold group_str in H.
  destruct (pm !! "which") as [which|] eqn:Hw; [|discriminate].
  destruct (pm !! "name") as [name|] eqn:Hn; [|discriminate].
  simpl in H.
  exists (if Str.contains "small" (Str.lower which) then "SB" else "BB"),
         (normalize_name name, safe_float (pm !! "amt") zero).
  split; [exists pm, which, name; auto|].
  destruct (Str.contains "small" (Str.lower which)); inversion H; subst; reflexivity.
Qed.

Lemma posts_scan_origin xs : forall done h h',
  for_each posts_step xs h = Returned h' ->
  (forall key e, blinds h !! key = Some e -> exists ln, ln ∈ done /\ posts_entry ln key e) ->
  forall key e, blinds h' !! key = Some e ->
    exists ln, ln ∈ (done ++ xs)%list /\ posts_entry ln key e.
Proof.
  intros done h h' F H0.
  apply (for_each_inv posts_step
           (fun done h => forall key e, blinds h !! key = Some e ->
                            exists ln, ln ∈ done /\ posts_entry ln key e))
    with (xs := xs) (done := done) (st := h); [|exact H0|exact F].
  clear. intros done x st st' I F key e Hk.
  apply posts_step_effect in F as [(_ & ->)|(key' & e' & P & B)].
  - destruct (I _ _ Hk) as (ln & Hin & Hp). exists ln.
    split; [apply elem_of_app; now left | assumption].
  - rewrite B in Hk. destruct (decide (key' = key)) as [->|N].
    + rewrite lookup_insert_eq in Hk. inversion Hk; subst. exists x.
      split; [apply elem_of_app; right; now apply list_elem_of_singleton | assumption].
    + rewrite lookup_insert_ne in Hk by assumption.
      destruct (I _ _ Hk) as (ln & Hin & Hp). exists ln.
      split; [apply elem_of_app; now left | assumption].
Qed.

Lemma posts_scan_keeps xs key e : forall h h',
  for_each posts_step xs h = Returned h' ->
  (forall l e', l ∈ xs -> ~ posts_entry l key e') ->
  blinds h !! key = Some e -> blinds h' !! key = Some e.
Proof.
  induction xs as [|x xs IH]; intros h h' F Hn Hk; cbn [for_each] in F.
  - now inversion F; subst.
  - apply bind_inv in F as (h1 & F1 & F).
    eapply IH; [exact F| |].
    + intros l e' Hl. apply Hn. apply elem_of_cons. now right.
    + apply posts_step_effect in F1 as [(_ & ->)|(key' & e' & P & B)]; [assumption|].
      rewrite B. rewrite lookup_insert_ne; [assumption|].
      intros ->. eapply Hn; [|exact P]. apply elem_of_cons. now left.
Qed.

Lemma posts_entry_key ln key e key' e' :
  posts_entry ln key e -> posts_entry ln key' e' -> key' = key /\ e' = e.
Proof.
  intros (pm & w & n & Es & Hw & Hn & -> & ->) (pm' & w' & n' & Es' & Hw' & Hn' & -> & ->).
  rewrite Es in Es'. inversion Es'; subst pm'.
  rewrite Hw in Hw'. inversion Hw'; subst w'.
  rewrite Hn in Hn'. inversion Hn'; subst n'. auto.
Qed.

(** The blinds of a record have no key but SB and BB, each entry is read
    from a line of the posts pattern, and of two lines that post the same
    blind the later one stays. *)
Theorem blinds_from_posts (hand_text : string) (h : Hand) :
  _parse_one hand_text = Returned (Some h) ->
  (forall key e, blinds h !! key = Some e ->
     (key = "SB" \/ key = "BB")
     /\ exists ln, ln ∈ lines_of hand_text /\ posts_entry ln key e)
  /\ (forall before ln after key e,
        lines_of hand_text = (before ++ ln :: after)%list ->
        posts_entry ln key e ->
        (forall l e', l ∈ after -> ~ posts_entry l key e') ->
        blinds h !! key = Some e).
Proof.
  intros E. apply _parse_one_scans in E
    as (line0 & rest & h1 & h2 & h3 & h4 & street & El & E1 & E2 & E3 & E4 & E5
        & S1 & S2 & S3 & S4 & S5).
  assert (B : blinds h = blinds h3).
  { apply (f_equal blinds) in S5, S4. simpl in S5, S4. congruence. }
  assert (B2 : blinds h2 = ∅).
  { apply (f_equal blinds) in S2, S1. simpl in S2, S1. rewrite S2, S1.
    now destruct (parse_header_frame line0 new_Hand) as (_ & _ & _ & _ & -> & _). }
  rewrite B, El. split.
  - intros key e Hk.
    destruct (posts_scan_origin _ [] _ _ E3) with (key := key) (e := e)
      as (ln & Hin & P); [|exact Hk|].
    { intros k e0. rewrite B2, lookup_empty. discriminate. }
    split; [|exists ln; split; assumption].
    destruct P as (pm & w & n & _ & _ & _ & -> & _).
    destruct (Str.contains _ _); auto.
  - intros before ln after key e El' P Hn. rewrite El' in E3.
    rewrite for_each_app in E3. apply bind_inv in E3 as (hb & _ & E3).
    cbn [for_each] in E3. apply bind_inv in E3 as (hl & Hl & E3).
    eapply posts_scan_keeps; [exact E3|exact Hn|].
    apply posts_step_effect in Hl as [(N & _)|(key' & e' & P' & Bl)].
    + destruct P as (pm & _ & _ & Es & _). congruence.
    + destruct (posts_entry_key _ _ _ _ _ P P') as (-> & ->).
      rewrite Bl. apply lookup_insert_eq.
Qed.

End BlindsAndCurrency.

(** ** Seats *)

Section Seats.

Lemma parse_header_shape line0 h : header_shape h (parse_header line0 h).
Proof.
  unfold header_shape, parse_header.
  destruct (header_match line0) as [[pat m]|]; [|now destruct h].
  destruct (_ && _); destruct h; reflexivity.
Qed.

Lemma seat_step_effect h ln h' :
  seat_step h ln = Returned h' ->
  (is_seat_line ln = false /\ h' = h)
  \/ (is_seat_line ln = true
      /\ exists s, seat_from ln s /\ seats h' = (seats h ++ [s])%list).
Proof.
  unfold seat_step, is_seat_line. intros H.
  destruct (Re.search Patterns.seat ln) as [sm|] eqn:Es.
  - right. split; [apply bool_decide_eq_true_2; eauto|].
    unfold int_of, group_str in H.
    destruct (sm !! "num") as [numtxt|] eqn:Hn; [|discriminate].
    apply bind_inv in H as (n & Hi & H).
    destruct (sm !! "name") as [nm|] eqn:Hm; [|discriminate].
    simpl in H. inversion H; subst; clear H. eexists. split; [|reflexivity].
    exists sm, numtxt, nm. simpl. rewrite Hn, Hm. auto 10.
  - left. inversion H; subst. split; [|reflexivity].
    apply bool_decide_eq_false_2. intros [? ?]. discriminate.
Qed.

(** The seats of a record are those of the lines of the seat pattern,
    one seat to a line and in the order of the lines, each with its number,
    its normalized name and a stack. *)
Theorem seats_in_line_order (hand_text : string) (h : Hand) :
  _parse_one hand_text = Returned (Some h) ->
  Forall2 seat_from (List.filter is_seat_line (lines_of hand_text)) (seats h).
Proof.
  intros E. apply _parse_one_scans in E
    as (line0 & rest & h1 & h2 & h3 & h4 & street & El & E1 & E2 & E3 & E4 & E5
        & S1 & S2 & S3 & S4 & S5).
  assert (B : seats h = seats h2).
  { apply (f_equal seats) in S5, S4, S3. simpl in S5, S4, S3. congruence. }
  assert (B1 : seats h1 = []).
  { apply (f_equal seats) in S1. simpl in S1. rewrite S1.
    pose proof (parse_header_shape line0 new_Hand) as S0.
    apply (f_equal seats) in S0. simpl in S0. exact S0. }
  rewrite B, El.
  pose (I := fun (done : list string) (st : Hand) =>
               Forall2 seat_from (List.filter is_seat_line done) (seats st)).
  enough (C : I ([] ++ line0 :: rest)%list h2) by exact C.
  apply (for_each_inv seat_step I) with (st := h1); [| |exact E2]; unfold I.
  - clear. intros done x st st' F S. rewrite List.filter_app. simpl.
    apply seat_step_effect in S as [(N & ->)|(Y & s & Hs & ->)].
    + rewrite N, app_nil_r. exact F.
    + rewrite Y. apply Forall2_app; [exact F|]. constructor; [exact Hs|constructor].
  - simpl. rewrite B1. constructor.
Qed.

End Seats.

(** ** Table, button and table size *)

Section TableScan.

Lemma table_step_effect h ln h' :
  table_step h ln = Returned h' ->
  (match Re.search Patterns.table_btn ln with
   | Some tm =>
       table_name h' = Str.strip <$> tm !! "table"
       /\ exists n, int_of (tm !! "button") = Returned n /\ button_seat h' = Some n
   | None => table_name h' = table_name h /\ button_seat h' = button_seat h
   end)
  /\ (match Re.search Patterns.max_players ln with
      | Some mm => exists n, int_of (mm !! "max") = Returned n /\ max_players h' = Some n
      | None => max_players h' = max_players h
      end).
Proof.
  unfold table_step. intros H. apply bind_inv in H as (h0 & H0 & H).
  assert (M : max_players h0 = max_players h
              /\ match Re.search Patterns.table_btn ln with
                 | Some tm =>
                     table_name h0 = Str.strip <$> tm !! "table"
                     /\ exists n, int_of (tm !! "button") = Returned n
                                  /\ button_seat h0 = Some n
                 | None => table_name h0 = table_name h /\ button_seat h0 = button_seat h
                 end).
  { destruct (Re.search Patterns.table_btn ln) as [tm|].
    - unfold group_str in H0. destruct (tm !! "table") as [t|]; [|discriminate].
      simpl in H0. apply bind_inv in H0 as (n & Hn & H0). inversion H0; subst.
      simpl. eauto.
    - inversion H0; subst. auto. }
  destruct M as (M1 & M2).
  destruct (Re.search Patterns.max_players ln) as [mm|].
  - apply bind_inv in H as (n & Hn & H). inversion H; subst. simpl.
    split; [|eauto]. destruct (Re.search Patterns.table_btn ln); exact M2.
  - inversion H; subst. split; [|exact M1].
    destruct (Re.search Patterns.table_btn ln); exact M2.
Qed.

Lemma table_scan_idle {T : Type} (f : Hand -> T) (p : Re.regex)
    (Hf : forall h ln h', table_step h ln = Returned h' -> Re.search p ln = None ->
                          f h' = f h) xs :
  forall h h',
    (forall l, l ∈ xs -> Re.search p l = None) ->
    for_each table_step xs h = Returned h' -> f h' = f h.
Proof.
  induction xs as [|x xs IH]; intros h h' Hn F; cbn [for_each] in F.
  - now inversion F.
  - apply bind_inv in F as (h1 & F1 & F).
    rewrite (IH h1 h'); [| |exact F].
    + eapply Hf; [exact F1|]. apply Hn, elem_of_cons. now left.
    + intros l Hl. apply Hn, elem_of_cons. now right.
Qed.

Lemma table_idle_name h ln h' :
  table_step h ln = Returned h' -> Re.search Patterns.table_btn ln = None ->
  (table_name h', button_seat h') = (table_name h, button_seat h).
Proof.
  intros F N. apply table_step_effect in F as (F & _). rewrite N in F.
  destruct F as (-> & ->). reflexivity.
Qed.

Lemma table_idle_max h ln h' :
  table_step h ln = Returned h' -> Re.search Patterns.max_players ln = None ->
  max_players h' = max_players h.
Proof.
  intros F N. apply table_step_effect in F as (_ & F). now rewrite N in F.
Qed.

(** The table name, the button and the table size are read in the first
    eight lines only: without a match there they stay unset, whatever the
    later lines hold, and of several matches there the last one stays. *)
Theorem table_from_first_eight (hand_text : string) (h : Hand) :
  _parse_one hand_text = Returned (Some h) ->
  let top := take 8 (lines_of hand_text) in
  ((forall l, l ∈ top -> Re.search Patterns.table_btn l = None) ->
   table_name h = None /\ button_seat h = None)
  /\ ((forall l, l ∈ top -> Re.search Patterns.max_players l = None) ->
      max_players h = None)
  /\ (forall before ln after tm,
        top = (before ++ ln :: after)%list ->
        Re.search Patterns.table_btn ln = Some tm ->
        (forall l, l ∈ after -> Re.search Patterns.table_btn l = None) ->
        table_name h = Str.strip <$> tm !! "table"
        /\ exists n, int_of (tm !! "button") = Returned n /\ button_seat h = Some n)
  /\ (forall before ln after mm,
        top = (before ++ ln :: after)%list ->
        Re.search Patterns.max_players ln = Some mm ->
        (forall l, l ∈ after -> Re.search Patterns.max_players l = None) ->
        exists n, int_of (mm !! "max") = Returned n /\ max_players h = Some n).
Proof.
  intros E. apply _parse_one_scans in E
    as (line0 & rest & h1 & h2 & h3 & h4 & street & El & E1 & E2 & E3 & E4 & E5
        & S1 & S2 & S3 & S4 & S5).
  assert (B : table_name h = table_name h1 /\ button_seat h = button_seat h1
              /\ max_players h = max_players h1).
  { repeat split.
    - apply (f_equal table_name) in S5, S4, S3, S2. simpl in *. congruence.
    - apply (f_equal button_seat) in S5, S4, S3, S2. simpl in *. congruence.
    - apply (f_equal max_players) in S5, S4, S3, S2. simpl in *. congruence. }
  destruct B as (-> & -> & ->).
  pose proof (parse_header_shape line0 new_Hand) as S0.
  assert (B0 : table_name (parse_header line0 new_Hand) = None
               /\ button_seat (parse_header line0 new_Hand) = None
               /\ max_players (parse_header line0 new_Hand) = None).
  { repeat split.
    - apply (f_equal table_name) in S0. exact S0.
    - apply (f_equal button_seat) in S0. exact S0.
    - apply (f_equal max_players) in S0. exact S0. }
  destruct B0 as (T0 & B0 & M0).
  simpl. rewrite El.
  split; [|split; [|split]].
  - intros Hn.
    pose proof (table_scan_idle (fun h => (table_name h, button_seat h))
                  Patterns.table_btn table_idle_name _ _ _ Hn E1) as K.
    apply pair_equal_spec in K as (K1 & K2). rewrite K1, K2, T0, B0. auto.
  - intros Hn.
    rewrite (table_scan_idle max_players Patterns.max_players
               table_idle_max _ _ _ Hn E1). exact M0.
  - intros before ln after tm Et Hm Hn. rewrite Et in E1.
    rewrite for_each_app in E1. apply bind_inv in E1 as (hb & _ & E1).
    cbn [for_each] in E1. apply bind_inv in E1 as (hl & Hl & E1).
    pose proof (table_scan_idle (fun h => (table_name h, button_seat h))
                  Patterns.table_btn table_idle_name _ _ _ Hn E1) as K.
    apply pair_equal_spec in K as (K1 & K2). rewrite K1, K2.
    apply table_step_effect in Hl as (Hl & _). rewrite Hm in Hl. exact Hl.
  - intros before ln after mm Et Hm Hn. rewrite Et in E1.
    rewrite for_each_app in E1. apply bind_inv in E1 as (hb & _ & E1).
    cbn [for_each] in E1. apply bind_inv in E1 as (hl & Hl & E1).
    rewrite (table_scan_idle max_players Patterns.max_players
               table_idle_max _ _ _ Hn E1).
    apply table_step_effect in Hl as (_ & Hl). rewrite Hm in Hl. exact Hl.
Qed.

End TableScan.

(** ** The header of the first line *)

Section HeaderScan.

Lemma strptime_short (s f : string) :
  (String.length s < min_len (Time.compile_format f))%nat ->
  exists e, Time.strptime s f = Raised e.
Proof.
  intros Hlen. unfold Time.strptime, Re.match_prefix.
  destruct (Re.run _ 0%nat s ∅ _) as [[g rest]|] eqn:E; [|eauto].
  exfalso. apply run_sound in E as (j & t & h & M & _).
  pose proof (Matches_min_len _ _ _ _ _ _ _ M) as L1.
  destruct (ReFacts.Matches_consumes _ _ _ _ _ _ _ M) as (w & -> & ->).
  rewrite ReFacts.length_append' in Hlen. lia.
Qed.

Lemma first_format_short (s : string) (fs : list string) :
  Forall (fun f => (String.length s < min_len (Time.compile_format f))%nat) fs ->
  first_format s fs = None.
Proof.
  induction 1 as [|f fs Hf _ IH]; simpl; [reflexivity|].
  destruct (strptime_short s f Hf) as (e & ->). exact IH.
Qed.

Lemma _try_parse_dt_short (v : string) :
  (String.length v <= 10)%nat -> _try_parse_dt (Some v) = None.
Proof.
  intros Hlen. unfold _try_parse_dt. apply first_format_short.
  unfold fmts. repeat (apply Forall_cons_2; [|]); [..|apply Forall_nil_2].
  all: match goal with
       | |- (_ < min_len ?r)%nat =>
           let n := eval vm_compute in (min_len r) in
           change (min_len r) with n
       end; lia.
Qed.

Lemma scans_keep_header hand_text h :
  _parse_one hand_text = Returned (Some h) ->
  forall line0 rest, lines_of hand_text = line0 :: rest ->
    hand_id h = hand_id (parse_header line0 new_Hand)
    /\ stakes h = stakes (parse_header line0 new_Hand)
    /\ date_utc h = date_utc (parse_header line0 new_Hand)
    /\ game h = game (parse_header line0 new_Hand).
Proof.
  intros E line0 rest El. apply _parse_one_scans in E
    as (line0' & rest' & h1 & h2 & h3 & h4 & street & El' & E1 & E2 & E3 & E4 & E5
        & S1 & S2 & S3 & S4 & S5).
  rewrite El in El'. inversion El'; subst line0' rest'.
  repeat split.
  - apply (f_equal hand_id) in S5, S4, S3, S2, S1. simpl in *. congruence.
  - apply (f_equal stakes) in S5, S4, S3, S2, S1. simpl in *. congruence.
  - apply (f_equal date_utc) in S5, S4, S3, S2, S1. simpl in *. congruence.
  - apply (f_equal game) in S5, S4, S3, S2, S1. simpl in *. congruence.
Qed.

(** The header scan.  When the first line matches no header pattern, the
    record keeps no id, no stakes and no date, and the header line of
    [write] is the bare placeholder.  When only the alternative header
    matches, the record has no id and no date: that pattern has no id
    group, and no format of [_try_parse_dt] accepts its date without a
    time.  When the main header matches, the id is the digits of its id
    group, and [write] prints them. *)
Theorem header_fallbacks (hand_text : string) (h : Hand) (line0 : string)
    (rest : list string) :
  _parse_one hand_text = Returned (Some h) ->
  lines_of hand_text = line0 :: rest ->
  (Re.search Patterns.hand_header line0 = None ->
   Re.search Patterns.alt_header line0 = None ->
   hand_id h = None /\ stakes h = (zero, zero) /\ date_utc h = None
   /\ header_line h = "PokerStars Hand #0000000000: Hold'em No Limit  -")
  /\ (Re.search Patterns.hand_header line0 = None ->
      is_Some (Re.search Patterns.alt_header line0) ->
      hand_id h = None /\ date_utc h = None)
  /\ (forall m, Re.search Patterns.hand_header line0 = Some m ->
        exists v, m !! "hid" = Some v /\ hand_id h = Some v
                  /\ Num.is_digits v = true /\ hid_of h = v).
Proof.
  intros E El.
  destruct (scans_keep_header _ _ E _ _ El) as (Hi & Hs & Hd & Hg).
  split; [|split].
  - intros N1 N2.
    assert (P : parse_header line0 new_Hand = new_Hand).
    { unfold parse_header, header_match. now rewrite N1, N2. }
    rewrite P in Hi, Hs, Hd, Hg. simpl in Hi, Hs, Hd, Hg.
    split; [exact Hi|]. split; [exact Hs|]. split; [exact Hd|].
    rewrite (header_without_stakes h zero zero Hs eq_refl).
    unfold hid_of, date_suffix. rewrite Hi, Hd, Hg. reflexivity.
  - intros N1 [m Hm].
    assert (P : hand_id (parse_header line0 new_Hand) = m !! "hid"
                /\ date_utc (parse_header line0 new_Hand) = _try_parse_dt (m !! "date")).
    { unfold parse_header, header_match. rewrite N1, Hm.
      destruct (_ && _); simpl; auto. }
    destruct P as (Pi & Pd). rewrite Hi, Hd, Pi, Pd. split.
    + destruct (m !! "hid") as [v|] eqn:Hv; [|reflexivity]. exfalso.
      destruct (ReFacts.search_origin _ _ _ _ _ Hm Hv) as (body & Hb & _).
      revert Hb. vm_compute. intros Hb.
      repeat (apply elem_of_cons in Hb as [Hb|Hb]; [discriminate Hb|]).
      now apply elem_of_nil in Hb.
    + destruct (m !! "date") as [v|] eqn:Hv; [|reflexivity].
      apply _try_parse_dt_short.
      apply (search_max_len _ _ _ _ _ 10%nat Hm Hv). vm_compute. reflexivity.
  - intros m Hm.
    assert (P : hand_id (parse_header line0 new_Hand) = m !! "hid").
    { unfold parse_header, header_match. rewrite Hm.
      destruct (_ && _); simpl; auto. }
    destruct (ReFacts.search_bound _ _ _ "hid" Hm ltac:(decided)) as (v & Hv).
    exists v. rewrite Hi, P. split; [exact Hv|]. split; [exact Hv|].
    assert (D : Num.is_digits v = true).
    { eapply ReFacts.search_digits; [exact Hm| |exact Hv]. vm_compute. reflexivity. }
    split; [exact D|]. unfold hid_of. rewrite Hi, P, Hv. unfold str_or.
    destruct v; [discriminate D | reflexivity].
Qed.

End HeaderScan.

(** ** The value of a captured number *)

Section AmountValues.
Import Num Re.

Lemma number_decimal (v : string) :
  captured_by Patterns.number v ->
  exists n d c t,
    unsigned_decimal v = Some (n, d) /\ v = String c t /\ Str.is_digit c = true.
Proof.
  intros (i & s & g & j & t & h & M & ->).
  destruct (ReFacts.Matches_captured _ _ _ _ _ _ _ M) as (w & E & ->).
  unfold Patterns.number in M. inversion M as [| | |? ? ? ? ? j1 t1 h1 ? ? ? M1 M2| | | | |];
    subst; clear M.
  destruct (ReFacts.Matches_captured _ _ _ _ _ _ _ M1) as (w1 & E1 & _).
  assert (D1 : is_digits w1 = true)
    by (eapply ReFacts.digits_only_sound; [exact M1 | reflexivity | exact E1]).
  apply andb_prop in D1 as D1'. destruct D1' as [N1 A1].
  destruct w1 as [|c w1]; [discriminate N1|].
  cbn [Str.all] in A1. apply andb_prop in A1 as A1'. destruct A1' as [Hc _].
  unfold opt in M2. inversion M2 as [| | | |? ? ? ? ? ? ? ? M3|? ? ? ? ? ? ? ? M3| | |];
    subst; clear M2.
  - inversion M3 as [| | |? ? ? ? ? j2 t2 h2 ? ? ? M4 M5| | | | |]; subst; clear M3.
    inversion M4 as [| |? c' ? ? ? Hc'| | | | | |]; subst; clear M4.
    apply chr_dot in Hc'. subst c'.
    destruct (ReFacts.Matches_captured _ _ _ _ _ _ _ M5) as (w2 & E2 & _).
    assert (D2 : is_digits w2 = true)
      by (eapply ReFacts.digits_only_sound; [exact M5 | reflexivity | exact E2]).
    assert (w = String c w1 ++ String "." w2) as ->.
    { eapply ReFacts.consumed_inj; [reflexivity|].
      rewrite E1, E2, ReFacts.append_assoc'. reflexivity. }
    unfold unsigned_decimal.
    rewrite NumFacts.split_dot_digits by assumption. rewrite D1, D2. simpl.
    eauto 10.
  - inversion M3; subst.
    assert (w = String c w1) as -> by (eapply ReFacts.consumed_inj; [reflexivity | exact E1]).
    unfold unsigned_decimal.
    rewrite split_dot_no_dot, D1 by assumption. eauto 10.
Qed.

Lemma py_float_digit (c : ascii) (t : string) (n d : Z) :
  Str.is_digit c = true -> unsigned_decimal (String c t) = Some (n, d) ->
  py_float (String c t) = Returned (of_ratio false n d).
Proof.
  intros Hc U. unfold py_float.
  assert ((match String c t with
           | String "-" s' => (true, s')
           | _ => (false, String c t)
           end) = (false, String c t)) as ->.
  { destruct c as [[] [] [] [] [] [] [] []]; try reflexivity; discriminate. }
  now rewrite U.
Qed.

Lemma number_value (v : string) :
  captured_by Patterns.number v ->
  exists n d, py_float v = Returned (of_ratio false n d).
Proof.
  intros C. destruct (number_decimal v C) as (n & d & c & t & U & -> & Hc).
  exists n, d. now apply py_float_digit.
Qed.

Lemma of_ratio_unsigned (n d : Z) : unsigned (of_ratio false n d) = true.
Proof.
  unfold of_ratio.
  repeat match goal with |- context [if ?c then _ else _] => destruct c end;
    reflexivity.
Qed.

Lemma parsed_amount_unsigned (x : float) : parsed_amount x -> unsigned x = true.
Proof.
  intros (v & C & E). destruct (number_value v C) as (n & d & E').
  rewrite E in E'. inversion E'; subst. apply of_ratio_unsigned.
Qed.

Lemma search_parsed r s m n v :
  Re.search r s = Some m -> bodies_pass is_number n r = true -> m !! n = Some v ->
  parsed_amount (safe_float (m !! n) zero).
Proof.
  intros H D Hv. destruct (ReFacts.search_origin _ _ _ _ _ H Hv) as (body & Hb & Hc).
  pose proof (ReFacts.bodies_pass_elem _ _ _ _ D Hb) as N.
  apply bool_decide_eq_true_1 in N. subst body.
  destruct (search_number _ _ _ _ _ H D Hv) as (x & Hx & Hs).
  rewrite Hs. exists v. auto.
Qed.

Lemma search_parsed_bound r s m n :
  Re.search r s = Some m -> n ∈ bound r -> bodies_pass is_number n r = true ->
  parsed_amount (safe_float (m !! n) zero).
Proof.
  intros H Hn D. destruct (ReFacts.search_bound _ _ _ _ H Hn) as (v & Hv).
  eapply search_parsed; eauto.
Qed.

End AmountValues.

(** ** The amounts of a record *)

Section RecordAmounts.

Lemma seat_step_stacks h ln h' :
  seat_step h ln = Returned h' ->
  Forall (fun s => exists x, stack s = Some x /\ parsed_amount x) (seats h) ->
  Forall (fun s => exists x, stack s = Some x /\ parsed_amount x) (seats h').
Proof.
  intros F H. apply seat_step_effect in F as [(_ & ->)|(_ & s & Hs & ->)]; [exact H|].
  apply Forall_snoc; [exact H|].
  destruct Hs as (sm & numtxt & nm & Es & _ & _ & _ & _ & Hst).
  eexists. split; [exact Hst|].
  apply (search_parsed_bound _ _ _ "stack" Es); [decided | vm_compute; reflexivity].
Qed.

Lemma posts_entry_amount ln key e : posts_entry ln key e -> parsed_amount e.2.
Proof.
  intros (pm & w & n & Es & _ & _ & _ & ->). simpl.
  apply (search_parsed_bound _ _ _ "amt" Es); [decided | vm_compute; reflexivity].
Qed.

Lemma action_step_amounts s h ln s' h' :
  action_step (s, h) ln = Returned (s', h') ->
  Forall (fun a => forall x, amount a = Some x -> parsed_amount x) (actions h) ->
  Forall (fun a => forall x, amount a = Some x -> parsed_amount x) (actions h').
Proof.
  unfold action_step. intros H Hw.
  destruct (Re.search Patterns.street ln) as [st|] eqn:Es.
  { split_returned; simpl; assumption. }
  destruct (Re.search Patterns.action ln) as [am|] eqn:Ea.
  { split_returned; simpl; (apply Forall_snoc; [assumption|]); simpl; intros y Hy.
    destruct (am !! "amt") as [v|] eqn:Hv; [|discriminate Hy].
    destruct (nonempty (Some v)); [|discriminate Hy]. inversion Hy; subst.
    rewrite <- Hv.
    apply (search_parsed _ _ _ "amt" v Ea); [vm_compute; reflexivity | exact Hv]. }
  destruct (Re.search Patterns.collected ln) as [cm|] eqn:Ec.
  { split_returned; simpl; (apply Forall_snoc; [assumption|]); simpl; intros y Hy;
      inversion Hy; subst.
    apply (search_parsed_bound _ _ _ "amt" Ec); [decided | vm_compute; reflexivity]. }
  destruct (Re.search Patterns.show ln) as [sh|] eqn:Esh.
  { split_returned; simpl; (apply Forall_snoc; [assumption|]); simpl; intros y Hy;
      discriminate. }
  split_returned. assumption.
Qed.

Lemma header_stakes line0 :
  stakes (parse_header line0 new_Hand) = (zero, zero)
  \/ (parsed_amount (stakes (parse_header line0 new_Hand)).1
      /\ parsed_amount (stakes (parse_header line0 new_Hand)).2).
Proof.
  unfold parse_header, header_match.
  destruct (Re.search Patterns.hand_header line0) as [m|] eqn:E1.
  { right. destruct (_ && _); simpl; split;
      apply (search_parsed_bound _ _ _ _ E1); first [decided | vm_compute; reflexivity]. }
  destruct (Re.search Patterns.alt_header line0) as [m|] eqn:E2.
  { right. destruct (_ && _); simpl; split;
      apply (search_parsed_bound _ _ _ _ E2); first [decided | vm_compute; reflexivity]. }
  now left.
Qed.

Lemma format_2f_unsigned (x : float) :
  unsigned x = true -> well_rendered x.
Proof.
  unfold well_rendered.
  destruct x as [[]|[]| |[] m e]; try discriminate; intros _; [right|now left|right].
  - vm_compute. reflexivity.
  - pose proof (NumFacts.format_2f_two_decimals (S754_finite false m e) eq_refl) as T.
    unfold Num.format_2f, Num.fixed2 in *.
    change ("" ++ ?s) with s in *.
    rewrite NumFacts.two_decimals_unsigned in T by apply NumFacts.Z_to_string_digits.
    exact T.
Qed.

(** Every amount of a record (the stacks, the blinds, the amounts of the
    actions, the stakes when a header matched) is the value of [float] on
    a text that the pattern of a number consumed: the default of
    [safe_float] is never taken for them.  Such a value has no sign and is
    no NaN, and [write] prints it as digits, a point and two digits, or as
    [inf]. *)
Theorem amounts_are_parsed (hand_text : string) (h : Hand) :
  _parse_one hand_text = Returned (Some h) ->
  Forall (fun s => exists x, stack s = Some x /\ parsed_amount x) (seats h)
  /\ (forall key name x, blinds h !! key = Some (name, x) -> parsed_amount x)
  /\ Forall (fun a => forall x, amount a = Some x -> parsed_amount x) (actions h)
  /\ (stakes h = (zero, zero)
      \/ (parsed_amount (stakes h).1 /\ parsed_amount (stakes h).2))
  /\ (forall x, parsed_amount x -> unsigned x = true /\ well_rendered x).
Proof.
  intros E. pose proof E as E0. apply _parse_one_scans in E
    as (line0 & rest & h1 & h2 & h3 & h4 & street & El & E1 & E2 & E3 & E4 & E5
        & S1 & S2 & S3 & S4 & S5).
  pose proof (parse_header_shape line0 new_Hand) as S0.
  split; [|split; [|split; [|split]]];
    [| | | |intros x Px; apply parsed_amount_unsigned in Px;
            split; [exact Px | now apply format_2f_unsigned]].
  - assert (B : seats h = seats h2).
    { apply (f_equal seats) in S5, S4, S3. simpl in *. congruence. }
    rewrite B.
    apply (for_each_preserves seat_step
             (fun h => Forall (fun s => exists x, stack s = Some x /\ parsed_amount x)
                         (seats h))) with (xs := line0 :: rest) (st := h1);
      [| |exact E2].
    + intros x st st' P F. eapply seat_step_stacks; eauto.
    + apply (f_equal seats) in S1, S0. simpl in *. rewrite S1, S0. constructor.
  - assert (B : blinds h = blinds h3).
    { apply (f_equal blinds) in S5, S4. simpl in *. congruence. }
    rewrite B. intros key name x Hk.
    destruct (posts_scan_origin _ [] _ _ E3) with (key := key) (e := (name, x))
      as (ln & _ & P); [|exact Hk|].
    { intros k e0. apply (f_equal blinds) in S2, S1, S0. simpl in *.
      rewrite S2, S1, S0, lookup_empty. discriminate. }
    apply posts_entry_amount in P. exact P.
  - apply (for_each_preserves action_step
             (fun st => Forall (fun a => forall x, amount a = Some x -> parsed_amount x)
                          (actions st.2)))
      with (xs := line0 :: rest) (st := ("PREFLOP", h4)) (st' := (street, h));
      [| |exact E5].
    + intros x [s1 g1] [s2 g2] P F. simpl in *. eapply action_step_amounts; eauto.
    + simpl. apply (f_equal actions) in S4, S3, S2, S1, S0. simpl in *.
      rewrite S4, S3, S2, S1, S0. constructor.
  - destruct (scans_keep_header _ _ E0 _ _ El) as (_ & -> & _).
    apply header_stakes.
Qed.

End RecordAmounts.

(** ** Texts without the hole-cards marker *)

Section Unmarked.

Lemma chunk_scan_no_marker (ls : list string) : forall chunks buf,
  existsb (Str.contains HOLE_CARDS) buf = false ->
  Forall (fun l => Str.contains HOLE_CARDS l = false) ls ->
  fold_left chunk_step ls (chunks, buf) = (chunks, (buf ++ ls)%list).
Proof.
  induction ls as [|l ls IH]; intros chunks buf Hb H; simpl.
  - now rewrite app_nil_r.
  - inversion H as [|? ? B Hls]; subst. rewrite Hb, andb_false_r.
    rewrite IH; [now rewrite <- app_assoc| |assumption].
    rewrite existsb_app, Hb. simpl. now rewrite B.
Qed.

(** A text with no line that holds the hole-cards marker is never cut:
    blank lines included, it is one chunk, and an empty text gives
    none. *)
Theorem segment_without_marker (text : string) :
  Forall (fun l => Str.contains HOLE_CARDS l = false) (Str.splitlines text) ->
  segment text
  = match Str.splitlines text with
    | [] => []
    | ls => [Str.strip (Str.join nl ls)]
    end.
Proof.
  intros H. unfold segment. rewrite chunk_scan_no_marker by (reflexivity || assumption).
  simpl. destruct (Str.splitlines text); reflexivity.
Qed.

End Unmarked.

(** ** The order of the seat lines *)

Section SortedSeats.

Lemma insert_seat_perm s l : insert_seat s l ≡ₚ s :: l.
Proof.
  induction l as [|t l IH]; simpl; [reflexivity|].
  destruct (num s <=? num t); [reflexivity|].
  rewrite IH. apply Permutation_swap.
Qed.

Lemma ascending_cons a l :
  ascending (a :: l) = true <->
  ascending l = true /\ match l with [] => True | b :: _ => a <= b end.
Proof.
  destruct l as [|b l]; [simpl; tauto|].
  change (ascending (a :: b :: l)) with ((a <=? b) && ascending (b :: l)).
  rewrite andb_true_iff, Z.leb_le. tauto.
Qed.

Lemma insert_seat_ascending s l :
  ascending (List.map num l) = true ->
  ascending (List.map num (insert_seat s l)) = true.
Proof.
  induction l as [|t l IH]; intros H; [reflexivity|].
  cbn [insert_seat]. destruct (num s <=? num t) eqn:E.
  - cbn [List.map]. apply ascending_cons. split; [exact H|].
    now apply Z.leb_le.
  - cbn [List.map] in *. apply ascending_cons in H as (H1 & H2).
    apply ascending_cons. split; [now apply IH|].
    apply Z.leb_gt in E.
    destruct l as [|u l]; cbn [insert_seat List.map]; [lia|].
    destruct (num s <=? num u); cbn [List.map]; [lia|exact H2].
Qed.

Lemma insert_seat_filter (n : Z) s l :
  Forall (fun t => num s <= num t) (List.filter (fun t => num t =? n) l) ->
  List.filter (fun t => num t =? n) (insert_seat s l)
  = List.filter (fun t => num t =? n) (s :: l).
Proof.
  induction l as [|t l IH]; intros H; [reflexivity|].
  cbn [insert_seat]. destruct (num s <=? num t) eqn:E; [reflexivity|].
  apply Z.leb_gt in E. cbn [List.filter] in *.
  destruct (num t =? n) eqn:Et.
  - exfalso. inversion H; subst. lia.
  - rewrite IH by assumption. cbn [List.filter]. reflexivity.
Qed.

(** [sorted(hand.seats, key=...)]: the seats come in ascending order of
    their numbers, they are the seats of the record, and seats with the
    same number keep their order. *)
Theorem sorted_seats_sorted (l : list Seat) :
  ascending (List.map num (sorted_seats l)) = true
  /\ sorted_seats l ≡ₚ l
  /\ forall n, List.filter (fun t => num t =? n) (sorted_seats l)
               = List.filter (fun t => num t =? n) l.
Proof.
  unfold sorted_seats. induction l as [|s l (IH1 & IH2 & IH3)]; [now repeat split|].
  cbn [foldr]. split; [|split].
  - now apply insert_seat_ascending.
  - rewrite insert_seat_perm. now constructor.
  - intros n. destruct (num s =? n) eqn:E.
    + rewrite insert_seat_filter.
      * cbn [List.filter]. now rewrite E, IH3.
      * apply Forall_forall. intros t Ht. apply list_elem_of_In, filter_In in Ht.
        destruct Ht as (_ & Ht). apply Z.eqb_eq in E, Ht. lia.
    + clear IH1 IH2. cbn [List.filter]. rewrite E, <- IH3.
      generalize (foldr insert_seat [] l). intros m.
      induction m as [|t m IHm]; cbn [insert_seat List.filter]; [now rewrite E|].
      destruct (num s <=? num t); cbn [List.filter]; [now rewrite E|].
      now rewrite IHm.
Qed.

End SortedSeats.

(** ** The actions that [write] reads *)

Section RenderedActions.

Lemma filter_filter_implied {A : Type} (p q : A -> bool) (l : list A) :
  (forall a, p a = true -> q a = true) ->
  List.filter p (List.filter q l) = List.filter p l.
Proof.
  intros H. induction l as [|a l IH]; [reflexivity|]. cbn [List.filter].
  destruct (q a) eqn:Q; cbn [List.filter].
  - now rewrite IH.
  - destruct (p a) eqn:P; [|exact IH]. apply H in P. congruence.
Qed.

Lemma on_street_written tag a :
  tag ∈ ["PREFLOP"; "FLOP"; "TURN"; "RIVER"; "SHOWDOWN"] ->
  on_street tag a = true -> written a = true.
Proof.
  unfold on_street, written. intros Ht E. apply String.eqb_eq in E. rewrite E.
  rewrite bool_decide_eq_true_2 by assumption. reflexivity.
Qed.

Lemma dump_street_written cur hand tag label :
  tag ∈ ["PREFLOP"; "FLOP"; "TURN"; "RIVER"; "SHOWDOWN"] ->
  dump_street cur (set_actions (List.filter written (actions hand)) hand) tag label
  = dump_street cur hand tag label.
Proof.
  intros Ht. unfold dump_street. cbn [actions board set_actions].
  rewrite filter_filter_implied by (intros a; now apply on_street_written).
  reflexivity.
Qed.

(** [write] reads the actions of the four betting streets, of the
    showdown and the collected ones, and no other: without the rest of the
    actions its result is the same.  An action that a record holds under
    SUMMARY with a betting verb is lost this way. *)
Theorem unwritten_actions_leave_no_trace (hand : Hand) :
  write (set_actions (List.filter written (actions hand)) hand) = write hand.
Proof.
  unfold write. f_equal. unfold write_lines, summary_lines, showdown_lines.
  rewrite !dump_street_written by decided.
  cbn [actions set_actions].
  rewrite (filter_filter_implied (on_street "SHOWDOWN") written)
    by (intros a; apply on_street_written; decided).
  rewrite (filter_filter_implied (fun a => String.eqb (verb a) "collected") written)
    by (intros a E; unfold written; rewrite E; apply orb_true_r).
  destruct hand; reflexivity.
Qed.

Lemma dump_street_has cur hand tag label a line :
  a ∈ actions hand -> street a = tag ->
  _format_action a cur = Some line -> line <> "" ->
  line ∈ dump_street cur hand tag label.
Proof.
  intros Ha Hs Hf Hl. unfold dump_street.
  assert (Hin : a ∈ List.filter (on_street tag) (actions hand)).
  { rewrite list_elem_of_In. apply filter_In. rewrite <- list_elem_of_In.
    split; [assumption|]. unfold on_street. now apply String.eqb_eq. }
  rewrite bool_decide_eq_false_2
    by (intros E; rewrite E in Hin; now apply elem_of_nil in Hin).
  cbn [andb]. apply elem_of_app. right.
  apply list_elem_of_omap. exists a. split; [assumption|]. rewrite Hf.
  destruct line; [contradiction | reflexivity].
Qed.

(** When [write] returns, every line that [_format_action] gives for an
    action of a betting street is a line of the output. *)
Theorem betting_actions_rendered (hand : Hand) (out : list string) (a : Action)
    (line : string) :
  write_lines hand = Returned out ->
  a ∈ actions hand -> street a ∈ BETTING_STREETS ->
  _format_action a (cur_of hand) = Some line -> line <> "" ->
  line ∈ out.
Proof.
  intros H Ha Hs Hf Hl. apply write_lines_returned in H as (-> & _).
  apply elem_of_app. left. unfold lines_before_showdown.
  unfold BETTING_STREETS in Hs.
  repeat (apply elem_of_cons in Hs as [Hs|Hs]); try (now apply elem_of_nil in Hs).
  - do 5 (apply elem_of_app; right). apply elem_of_app. left.
    eapply dump_street_has; eauto.
  - do 6 (apply elem_of_app; right). apply elem_of_app. left.
    eapply dump_street_has; eauto.
  - do 7 (apply elem_of_app; right). apply elem_of_app. left.
    eapply dump_street_has; eauto.
  - do 8 (apply elem_of_app; right).
    eapply dump_street_has; eauto.
Qed.

End RenderedActions.

(** ** Names *)

Section Names.

Lemma rstrip_by_idem (p : ascii -> bool) (s : string) :
  Str.rstrip_by p (Str.rstrip_by p s) = Str.rstrip_by p s.
Proof.
  induction s as [|c s IH]; [reflexivity|]. cbn [Str.rstrip_by].
  destruct (Str.rstrip_by p s) as [|d t] eqn:E.
  - destruct (p c) eqn:Pc; [reflexivity|]. simpl. now rewrite Pc.
  - change (Str.rstrip_by p (String c (String d t)))
      with (match Str.rstrip_by p (String d t) with
            | "" => if p c then "" else String c ""
            | u => String c u
            end).
    rewrite IH. reflexivity.
Qed.

Lemma rstrip_by_head (p : ascii -> bool) (c : ascii) (s : string) :
  Str.rstrip_by p (String c s) = ""
  \/ exists t, Str.rstrip_by p (String c s) = String c t.
Proof.
  cbn [Str.rstrip_by]. destruct (Str.rstrip_by p s); [|eauto].
  destruct (p c); eauto.
Qed.

Lemma lstrip_by_fixed (p : ascii -> bool) (s : string) :
  Str.lstrip_by p s = "" \/ exists c t, Str.lstrip_by p s = String c t /\ p c = false.
Proof.
  induction s as [|c s IH]; [now left|]. cbn [Str.lstrip_by].
  destruct (p c) eqn:E; [exact IH|]. right. eauto.
Qed.

(** A normalized name does not end with a colon and does not begin with
    white space; white space before a stripped colon stays, so that
    normalizing twice is not normalizing once. *)
Theorem normalize_name_shape (name : string) :
  Str.rstrip_by (Ascii.eqb ":") (normalize_name name) = normalize_name name
  /\ Str.lstrip_by Str.is_space (normalize_name name) = normalize_name name
  /\ normalize_name (normalize_name "a :") <> normalize_name "a :".
Proof.
  split; [|split].
  - unfold normalize_name. apply rstrip_by_idem.
  - unfold normalize_name, Str.strip.
    destruct (lstrip_by_fixed Str.is_space (Str.rstrip_by Str.is_space name))
      as [->|(c & t & -> & Hc)]; [reflexivity|].
    destruct (rstrip_by_head (Ascii.eqb ":") c t) as [->|(u & ->)]; [reflexivity|].
    cbn [Str.lstrip_by]. now rewrite Hc.
  - vm_compute. discriminate.
Qed.

End Names.

(** ** The hero *)

Section Hero.

Lemma dealt_step_effect h ln h' :
  dealt_step h ln = Returned h' ->
  (is_dealt_line ln = false /\ h' = h)
  \/ (is_dealt_line ln = true /\ is_Some (hero h') /\ is_Some (hero_hole h')).
Proof.
  unfold dealt_step, is_dealt_line. intros H.
  destruct (Re.search Patterns.dealt ln) as [dm|] eqn:Ed.
  - right. split; [apply bool_decide_eq_true_2; eauto|].
    split_returned. simpl. eauto.
  - left. inversion H; subst. split; [|reflexivity].
    apply bool_decide_eq_false_2. intros [? ?]. discriminate.
Qed.

(** A record has a hero exactly when a line of the chunk matches the
    dealt pattern, and then it has the hole cards too; without a hero
    [write] has no dealt line. *)
Theorem hero_iff_dealt_line (hand_text : string) (h : Hand) :
  _parse_one hand_text = Returned (Some h) ->
  (is_Some (hero h) <-> exists ln, ln ∈ lines_of hand_text /\ is_dealt_line ln = true)
  /\ (is_Some (hero h) <-> is_Some (hero_hole h))
  /\ (hero h = None -> dealt_lines h = []).
Proof.
  intros E. apply _parse_one_scans in E
    as (line0 & rest & h1 & h2 & h3 & h4 & street & El & E1 & E2 & E3 & E4 & E5
        & S1 & S2 & S3 & S4 & S5).
  pose proof (parse_header_shape line0 new_Hand) as S0.
  assert (B : hero h = hero h4 /\ hero_hole h = hero_hole h4).
  { apply (f_equal hero) in S5 as X. apply (f_equal hero_hole) in S5 as Y. auto. }
  assert (B3 : hero h3 = None /\ hero_hole h3 = None).
  { split.
    - apply (f_equal hero) in S3, S2, S1, S0. simpl in *. congruence.
    - apply (f_equal hero_hole) in S3, S2, S1, S0. simpl in *. congruence. }
  destruct B as (Bh & Bc). destruct B3 as (B3h & B3c).
  pose (I := fun (done : list string) (st : Hand) =>
               (is_Some (hero st) <->
                exists ln, ln ∈ done /\ is_dealt_line ln = true)
               /\ (is_Some (hero st) <-> is_Some (hero_hole st))).
  assert (C : I ([] ++ line0 :: rest)%list h4).
  { apply (for_each_inv dealt_step I) with (st := h3); [| |exact E4]; unfold I.
    - clear. intros done x st st' (I1 & I2) F.
      apply dealt_step_effect in F as [(N & ->)|(Y & Hh & Hc)].
      + split; [|exact I2]. rewrite I1. split.
        * intros (ln & Hin & Hd). exists ln. split; [apply elem_of_app; now left|exact Hd].
        * intros (ln & Hin & Hd). apply elem_of_app in Hin as [Hin|Hin]; [eauto|].
          apply list_elem_of_singleton in Hin. subst. congruence.
      + split; [|tauto]. split; [|intros _; exact Hh]. intros _. exists x.
        split; [apply elem_of_app; right; now apply list_elem_of_singleton | exact Y].
    - rewrite B3h, B3c. split; [|split; intros [? ?]; discriminate]. split.
      + intros [? ?]; discriminate.
      + intros (ln & Hin & _). now apply elem_of_nil in Hin. }
  destruct C as (C1 & C2). rewrite Bh, Bc, El. split; [exact C1|]. split; [exact C2|].
  intros Hn. unfold dealt_lines. rewrite Bh, Hn. reflexivity.
Qed.

End Hero.

(** ** The outcome of a conversion *)

Section Conversion.










End Conversion.

(** ** [parse_money] *)

Section Money.
Import Num Re.





End Money.

(** ** Dates *)

Section Dates.
Import Re.

Lemma field_in_range r i s j t g n lo hi dflt :
  Matches r i s ∅ j t g -> field_range r n lo hi = true -> lo <= dflt <= hi ->
  lo <= Time.field g n dflt <= hi.
Proof.
  intros M F D. unfold Time.field. destruct (g !! n) as [v|] eqn:Hv; [|exact D].
  destruct (ReFacts.Matches_origin _ _ _ _ _ _ _ M _ _ Hv) as [Em|(body & Hb & C)];
    [rewrite lookup_empty in Em; discriminate|].
  unfold field_range in F. rewrite forallb_forall in F.
  apply list_elem_of_In in Hb. specialize (F _ Hb). cbn [fst snd] in F.
  rewrite String.eqb_refl in F. rename F into K.
  destruct (words body) as [ws|] eqn:W; [|discriminate].
  pose proof (captured_words _ _ _ C W) as Hin.
  rewrite forallb_forall in K. apply list_elem_of_In in Hin. specialize (K _ Hin).
  apply andb_prop in K as (K & K3). apply andb_prop in K as (K1 & K2).
  rewrite <- (lower_caseless v _ eq_refl K1) in K2, K3. lia.
Qed.

Lemma strptime_valid (s f : string) (dt : Time.datetime) :
  format_ranges f = true -> Time.strptime s f = Returned dt -> valid_date dt = true.
Proof.
  unfold format_ranges. cbv zeta. intros R H. unfold Time.strptime in H.
  destruct (match_prefix _ s) as [[g rest]|] eqn:E; [|discriminate].
  destruct (negb _); [discriminate|].
  unfold match_prefix in E. apply run_sound in E as (j & t & h & M & E).
  inversion E; subst h t; clear E.
  repeat (apply andb_prop in R as (R & ?)).
  pose proof (field_in_range _ _ _ _ _ _ "m" 1 12 1 M ltac:(assumption) ltac:(lia)).
  pose proof (field_in_range _ _ _ _ _ _ "d" 1 31 1 M ltac:(assumption) ltac:(lia)).
  pose proof (field_in_range _ _ _ _ _ _ "H" 0 23 0 M ltac:(assumption) ltac:(lia)).
  pose proof (field_in_range _ _ _ _ _ _ "M" 0 59 0 M ltac:(assumption) ltac:(lia)).
  pose proof (field_in_range _ _ _ _ _ _ "S" 0 61 0 M ltac:(assumption) ltac:(lia)).
  cbn [Time.year Time.month Time.day Time.second] in H.
  destruct (_ && _) eqn:C in H; [|discriminate]. inversion H; subst dt; clear H.
  apply andb_prop in C as (C & C3). apply andb_prop in C as (C1 & C2).
  unfold valid_date.
  cbn [Time.year Time.month Time.day Time.hour Time.minute Time.second].
  rewrite C2. repeat (apply andb_true_intro; split); lia.
Qed.

Lemma first_format_some (s : string) (fs : list string) (dt : Time.datetime) :
  first_format s fs = Some dt -> exists f, f ∈ fs /\ Time.strptime s f = Returned dt.
Proof.
  induction fs as [|f fs IH]; simpl; [discriminate|].
  destruct (Time.strptime s f) as [d|e] eqn:E.
  - intros H. inversion H; subst. exists f. split; [apply elem_of_cons; now left|exact E].
  - intros H. destruct (IH H) as (f' & Hin & Hf). exists f'.
    split; [apply elem_of_cons; now right|exact Hf].
Qed.

(** A date that [_try_parse_dt] accepts is a date of the calendar: the
    month from 1 to 12, the day within the month, the hour up to 23, the
    minute and the second up to 59. *)
Theorem parsed_date_valid (s : option string) (dt : Time.datetime) :
  _try_parse_dt s = Some dt -> valid_date dt = true.
Proof.
  unfold _try_parse_dt. destruct s as [v|]; [|discriminate]. intros H.
  apply first_format_some in H as (f & Hin & Hf).
  eapply strptime_valid; [|exact Hf].
  assert (F : forallb format_ranges fmts = true) by (vm_compute; reflexivity).
  rewrite forallb_forall in F. apply F. now apply list_elem_of_In.
Qed.

End Dates.

(** ** Amounts from the text to the output *)

Section RoundTrip.
Import Num.

Lemma div_half_even_near (n d : Z) :
  0 < d -> - d <= 2 * (div_half_even n d * d - n) <= d.
Proof.
  intros Hd. unfold div_half_even.
  pose proof (Z.div_mod n d ltac:(lia)) as E.
  pose proof (Z.mod_pos_bound n d Hd) as B.
  destruct (2 * (n mod d) <? d) eqn:C1; [apply Z.ltb_lt in C1; nia|].
  apply Z.ltb_ge in C1.
  destruct (d <? 2 * (n mod d)) eqn:C2; [apply Z.ltb_lt in C2; nia|].
  apply Z.ltb_ge in C2.
  destruct (Z.even (n / d)); nia.
Qed.

Lemma div_half_even_unique (x d q : Z) :
  0 < d -> - d < 2 * (x - q * d) < d -> div_half_even x d = q.
Proof.
  intros Hd H. unfold div_half_even.
  destruct (Z_le_gt_dec 0 (x - q * d)) as [P|N].
  - assert (Eq : x / d = q) by (symmetry; apply (Z.div_unique_pos x d q (x - q * d)); lia).
    assert (Em : x mod d = x - q * d)
      by (symmetry; apply (Z.mod_unique_pos x d q (x - q * d)); lia).
    rewrite Eq, Em.
    destruct (2 * (x - q * d) <? d) eqn:C1; [reflexivity|].
    apply Z.ltb_ge in C1. lia.
  - assert (Eq : x / d = q - 1)
      by (symmetry; apply (Z.div_unique_pos x d (q - 1) (x - q * d + d)); lia).
    assert (Em : x mod d = x - q * d + d)
      by (symmetry; apply (Z.mod_unique_pos x d (q - 1) (x - q * d + d)); lia).
    rewrite Eq, Em.
    destruct (2 * (x - q * d + d) <? d) eqn:C1; [apply Z.ltb_lt in C1; lia|].
    destruct (d <? 2 * (x - q * d + d)) eqn:C2; [lia|].
    apply Z.ltb_ge in C2. lia.
Qed.

Lemma of_ratio_hundredths (n d c : Z) :
  0 <= n -> 0 < c -> c * d = 100 -> n < d * 2 ^ 45 ->
  format_2f (of_ratio false n d) = fixed2 false (n * c).
Proof.
  intros Hn Hc Hcd Hs.
  assert (Hd : 0 < d) by nia.
  assert (Hd100 : d <= 100) by nia.
  unfold of_ratio. destruct (n <=? 0) eqn:Z0.
  { apply Z.leb_le in Z0. assert (n = 0) as -> by lia. reflexivity. }
  apply Z.leb_gt in Z0.
  set (l := Z.log2 n - Z.log2 d).
  assert (Ll : -6 <= l <= 45).
  { unfold l. split.
    - pose proof (Z.log2_nonneg n).
      assert (Z.log2 d <= 6).
      { assert (Z.log2 d < 7); [|lia]. apply Z.log2_lt_pow2; [lia|]. simpl. lia. }
      lia.
    - assert (Z.log2 n < Z.log2 d + 46); [|lia].
      apply Z.log2_lt_pow2; [lia|].
      pose proof (Z.log2_spec d Hd) as (_ & U).
      rewrite Z.pow_add_r by (try apply Z.log2_nonneg; lia).
      replace (Z.succ (Z.log2 d)) with (Z.log2 d + 1) in U by lia.
      rewrite Z.pow_add_r in U by (try apply Z.log2_nonneg; lia).
      change (2 ^ 46) with (2 * 2 ^ 45). change (2 ^ 1) with 2 in U.
      pose proof (Z.pow_pos_nonneg 2 (Z.log2 d) ltac:(lia) (Z.log2_nonneg d)).
      nia. }
  cbv zeta.
  match goal with |- context [Z.max ?x emin] => set (e0 := x) end.
  assert (He0 : l - 53 <= e0 <= l - 52) 
    by (unfold e0; repeat match goal with |- context [if ?c then _ else _] => destruct c end; lia).
  assert (Ee : Z.max e0 emin = e0) by (apply Z.max_l; unfold emin, emax, prec; lia).
  rewrite Ee. clearbody e0.
  assert (Hneg : e0 < 0) by lia.
  destruct (0 <=? e0) eqn:C0; [apply Z.leb_le in C0; lia|].
  set (k := - e0). assert (Hk : 7 <= k <= 59) by (unfold k; lia).
  assert (P7 : 128 <= 2 ^ k).
  { change 128 with (2 ^ 7). apply Z.pow_le_mono_r; lia. }
  set (m := div_half_even (n * 2 ^ k) d).
  pose proof (div_half_even_near (n * 2 ^ k) d Hd) as Nr. fold m in Nr.
  assert (Hm : 0 < m) by nia.
  destruct (m =? 0) eqn:M0; [apply Z.eqb_eq in M0; lia|].
  assert (Pe : 2 ^ e0 = 0) by (apply Z.pow_neg_r; lia).
  rewrite Pe, Z.mul_0_r.
  destruct (2 ^ emax <=? 0) eqn:Ci; [apply Z.leb_le in Ci; vm_compute in Ci; congruence|].
  unfold format_2f. rewrite C0. fold k.
  rewrite Z2Pos.id by lia. f_equal.
  apply div_half_even_unique; [lia|]. nia.
Qed.

Lemma digits_value_acc (s : string) : forall acc,
  digits_value s acc = acc * 10 ^ Z.of_nat (String.length s) + digits_value s 0.
Proof.
  induction s as [|c s IH]; intros acc.
  - simpl. lia.
  - cbn [digits_value String.length]. rewrite IH, (IH (10 * 0 + _)).
    rewrite Nat2Z.inj_succ, Z.pow_succ_r by lia. lia.
Qed.

Lemma digits_value_app (a b : string) :
  digits_value (a ++ b) 0
  = digits_value a 0 * 10 ^ Z.of_nat (String.length b) + digits_value b 0.
Proof.
  assert (G : forall acc, digits_value (a ++ b) acc = digits_value b (digits_value a acc)).
  { induction a as [|c a IH]; intros acc; [reflexivity|].
    change (String c a ++ b) with (String c (a ++ b)). cbn [digits_value]. apply IH. }
  rewrite G. apply digits_value_acc.
Qed.

Lemma digit_value_range (c : ascii) :
  Str.is_digit c = true -> 0 <= Z.of_nat (Str.code c) - 48 <= 9.
Proof.
  unfold Str.is_digit. intros H. apply andb_prop in H as (H1 & H2).
  apply Nat.leb_le in H1, H2. lia.
Qed.

Lemma digits_value_range (s : string) :
  Str.all Str.is_digit s = true ->
  0 <= digits_value s 0 < 10 ^ Z.of_nat (String.length s).
Proof.
  induction s as [|c s IH]; intros H; [simpl; lia|].
  cbn [Str.all] in H. apply andb_prop in H as (Hc & Hs).
  cbn [digits_value String.length]. rewrite digits_value_acc.
  rewrite Nat2Z.inj_succ, Z.pow_succ_r by lia.
  pose proof (digit_value_range c Hc). specialize (IH Hs). nia.
Qed.

Lemma digit_text (c : ascii) :
  Str.is_digit c = true -> Z_to_string (Z.of_nat (Str.code c) - 48) = String c "".
Proof.
  destruct c as [[] [] [] [] [] [] [] []]; vm_compute; congruence.
Qed.

Lemma fixed2_parts (a b : Z) :
  0 <= b < 100 ->
  fixed2 false (a * 100 + b) = Z_to_string a ++ "." ++ two_digits b.
Proof.
  intros Hb. unfold fixed2.
  rewrite Z.div_add_l, Z.div_small, Z.add_0_r by lia.
  rewrite Z.add_comm, Z.mod_add, Z.mod_small by lia. reflexivity.
Qed.

Lemma two_digits_parts (a b : Z) :
  0 <= b < 10 -> two_digits (a * 10 + b) = Z_to_string a ++ Z_to_string b.
Proof.
  intros Hb. unfold two_digits.
  rewrite Z.div_add_l, Z.div_small, Z.add_0_r by lia.
  rewrite Z.add_comm, Z.mod_add, Z.mod_small by lia. reflexivity.
Qed.

Lemma safe_float_decimal (v : string) (c : ascii) (t : string) (n d : Z) :
  v = String c t -> Str.is_digit c = true -> unsigned_decimal v = Some (n, d) ->
  safe_float (Some v) zero = of_ratio false n d.
Proof.
  intros -> Hc U. unfold safe_float, float_of, py_float.
  assert ((match String c t with
           | String "-" s' => (true, s')
           | _ => (false, String c t)
           end) = (false, String c t)) as ->.
  { destruct c as [[] [] [] [] [] [] [] []]; try reflexivity; discriminate. }
  now rewrite U.
Qed.

Lemma pow10_13 (s : string) :
  (String.length s <= 13)%nat -> 10 ^ Z.of_nat (String.length s) <= 10 ^ 13.
Proof. intros H. apply Z.pow_le_mono_r; lia. Qed.

Lemma all_digits_append (a b : string) :
  Str.all Str.is_digit a = true -> Str.all Str.is_digit b = true ->
  Str.all Str.is_digit (a ++ b) = true.
Proof.
  intros Ha Hb. induction a as [|c a IH]; [exact Hb|].
  cbn [Str.all] in *. apply andb_prop in Ha as (Hc & Ha).
  change (String c a ++ b) with (String c (a ++ b)). cbn [Str.all].
  now rewrite Hc, IH.
Qed.

Lemma dotted_amount (c : ascii) (ip' fp : string) :
  Str.all Str.is_digit (String c ip') = true -> is_digits fp = true ->
  safe_float (Some (String c ip' ++ "." ++ fp)) zero
  = of_ratio false (digits_value (String c ip' ++ fp) 0)
      (10 ^ Z.of_nat (String.length fp)).
Proof.
  intros Ai Df.
  assert (Hc : Str.is_digit c = true)
    by (cbn [Str.all] in Ai; now apply andb_prop in Ai as (? & _)).
  apply (safe_float_decimal _ c (ip' ++ "." ++ fp)); [reflexivity|assumption|].
  unfold unsigned_decimal.
  change (String c ip' ++ "." ++ fp) with (String c ip' ++ String "." fp).
  rewrite NumFacts.split_dot_digits by assumption.
  unfold is_digits at 1. rewrite Ai, Df. reflexivity.
Qed.

(** Amounts pass unchanged from the text to the output.  For an amount of
    at most thirteen digits before the point and none, one or two digits
    after it, the two-decimal text of its [float] is the amount itself,
    with zeros added after the point and leading zeros dropped. *)
Theorem amounts_to_the_cent (ip fp : string) :
  is_digits ip = true -> (String.length ip <= 13)%nat ->
  Str.all Str.is_digit fp = true ->
  let whole := Z_to_string (digits_value ip 0) in
  format_2f (safe_float (Some ip) zero) = whole ++ ".00"
  /\ (String.length fp = 1%nat ->
      format_2f (safe_float (Some (ip ++ "." ++ fp)) zero) = whole ++ "." ++ fp ++ "0")
  /\ (String.length fp = 2%nat ->
      format_2f (safe_float (Some (ip ++ "." ++ fp)) zero) = whole ++ "." ++ fp).
Proof.
  intros Di Li Df whole.
  pose proof Di as Di'. unfold is_digits in Di'. apply andb_prop in Di' as (Ne & Ai).
  destruct ip as [|c ip']; [discriminate Ne|]. set (ip := String c ip') in *.
  assert (Hc : Str.is_digit c = true)
    by (cbn [Str.all] in Ai; now apply andb_prop in Ai as (? & _)).
  pose proof (digits_value_range ip Ai) as Ri.
  pose proof (pow10_13 ip Li) as P13.
  assert (B45 : 10 ^ 13 < 2 ^ 45) by (vm_compute; reflexivity).
  split; [|split].
  - rewrite (safe_float_decimal ip c ip' (digits_value ip 0) 1 eq_refl Hc).
    + rewrite (of_ratio_hundredths _ 1 100) by lia.
      rewrite <- (Z.add_0_r (_ * 100)), fixed2_parts by lia. reflexivity.
    + unfold unsigned_decimal. rewrite split_dot_no_dot by assumption.
      now rewrite Di.
  - intros L1. destruct fp as [|f1 [|? ?]]; try discriminate L1.
    pose proof Df as Df'. cbn [Str.all] in Df'. apply andb_prop in Df' as (Hf1 & _).
    pose proof (digit_value_range f1 Hf1) as R1.
    unfold ip. rewrite dotted_amount by (try assumption; unfold is_digits; now rewrite Df).
    fold ip. rewrite digits_value_app. cbn [String.length digits_value].
    change (10 ^ Z.of_nat 1) with 10.
    rewrite (of_ratio_hundredths _ 10 10) by lia.
    replace ((digits_value ip 0 * 10 + (10 * 0 + (Z.of_nat (Str.code f1) - 48))) * 10)
      with (digits_value ip 0 * 100 + ((Z.of_nat (Str.code f1) - 48) * 10 + 0)) by lia.
    rewrite fixed2_parts by lia. rewrite two_digits_parts by lia.
    rewrite digit_text by assumption. reflexivity.
  - intros L2. destruct fp as [|f1 [|f2 [|? ?]]]; try discriminate L2.
    pose proof Df as Df'. cbn [Str.all] in Df'.
    apply andb_prop in Df' as (Hf1 & Df'). apply andb_prop in Df' as (Hf2 & _).
    pose proof (digit_value_range f1 Hf1) as R1.
    pose proof (digit_value_range f2 Hf2) as R2.
    unfold ip. rewrite dotted_amount by (try assumption; unfold is_digits; now rewrite Df).
    fold ip. rewrite digits_value_app. cbn [String.length digits_value].
    change (10 ^ Z.of_nat 2) with 100.
    rewrite (of_ratio_hundredths _ 100 1) by lia.
    replace ((digits_value ip 0 * 100
              + (10 * (10 * 0 + (Z.of_nat (Str.code f1) - 48))
                 + (Z.of_nat (Str.code f2) - 48))) * 1)
      with (digits_value ip 0 * 100
            + ((Z.of_nat (Str.code f1) - 48) * 10 + (Z.of_nat (Str.code f2) - 48)))
      by lia.
    rewrite fixed2_parts by lia. rewrite two_digits_parts by lia.
    rewrite !digit_text by assumption. reflexivity.
Qed.

End RoundTrip.

(** ** The properties at a whole hand *)

Lemma actions_in_line_order_witness :
  _parse_one full_hand = Returned (Some (record_of full_hand))
  /\ List.map raw (actions (record_of full_hand)) `sublist_of` lines_of full_hand.
Proof.
  assert (E : _parse_one full_hand = Returned (Some (record_of full_hand)))
    by (vm_compute; reflexivity).
  split; [exact E|]. exact (actions_in_line_order full_hand _ E).
Defined.

Lemma action_takes_current_street_witness :
  _parse_one full_hand = Returned (Some (record_of full_hand))
  /\ lines_of full_hand
     = ((before_flop_check ++ "*** FLOP *** [2c 3d 4h]" :: [])
          ++ "Bob: checks" :: after_flop_check)%list
  /\ enters "*** FLOP *** [2c 3d 4h]" "FLOP"
  /\ exists a, a ∈ actions (record_of full_hand)
               /\ raw a = "Bob: checks" /\ street a = "FLOP".
Proof.
  assert (E : _parse_one full_hand = Returned (Some (record_of full_hand)))
    by (vm_compute; reflexivity).
  assert (L : lines_of full_hand
              = ((before_flop_check ++ "*** FLOP *** [2c 3d 4h]" :: [])
                   ++ "Bob: checks" :: after_flop_check)%list)
    by (vm_compute; reflexivity).
  assert (S : Re.search Patterns.street "Bob: checks" = None)
    by (vm_compute; reflexivity).
  assert (A : is_Some (Re.search Patterns.action "Bob: checks"))
    by (eexists; vm_compute; reflexivity).
  assert (M : enters "*** FLOP *** [2c 3d 4h]" "FLOP")
    by (eexists _, "FLOP"; repeat split; vm_compute; reflexivity).
  split; [exact E|]. split; [exact L|]. split; [exact M|].
  refine (proj2 (action_takes_current_street full_hand _ _ _ "Bob: checks" E L S A)
            before_flop_check "*** FLOP *** [2c 3d 4h]" [] "FLOP" eq_refl M _).
  intros l Hl. now apply elem_of_nil in Hl.
Defined.

Lemma board_entries_from_markers_witness :
  _parse_one full_hand = Returned (Some (record_of full_hand))
  /\ board (record_of full_hand) !! "FLOP" = Some "[2c 3d 4h]"
  /\ exists ln, ln ∈ lines_of full_hand /\ reveals ln "FLOP" "[2c 3d 4h]".
Proof.
  assert (E : _parse_one full_hand = Returned (Some (record_of full_hand)))
    by (vm_compute; reflexivity).
  assert (B : board (record_of full_hand) !! "FLOP" = Some "[2c 3d 4h]")
    by (vm_compute; reflexivity).
  split; [exact E|]. split; [exact B|].
  exact (board_entries_from_markers full_hand _ "FLOP" "[2c 3d 4h]" E B).
Defined.


Lemma seats_in_line_order_witness :
  _parse_one full_hand = Returned (Some (record_of full_hand))
  /\ Forall2 seat_from (List.filter is_seat_line (lines_of full_hand))
       (seats (record_of full_hand)).
Proof.
  assert (E : _parse_one full_hand = Returned (Some (record_of full_hand)))
    by (vm_compute; reflexivity).
  split; [exact E|]. exact (seats_in_line_order full_hand _ E).
Defined.

Lemma blinds_from_posts_witness :
  _parse_one full_hand = Returned (Some (record_of full_hand))
  /\ forall key e, blinds (record_of full_hand) !! key = Some e ->
       (key = "SB" \/ key = "BB")
       /\ exists ln, ln ∈ lines_of full_hand /\ posts_entry ln key e.
Proof.
  assert (E : _parse_one full_hand = Returned (Some (record_of full_hand)))
    by (vm_compute; reflexivity).
  split; [exact E|]. exact (proj1 (blinds_from_posts full_hand _ E)).
Defined.

Lemma currency_is_a_sign_witness :
  _parse_one full_hand = Returned (Some (record_of full_hand))
  /\ currency (record_of full_hand) ∈ SIGNS
  /\ cur_of (record_of full_hand) = currency (record_of full_hand).
Proof.
  assert (E : _parse_one full_hand = Returned (Some (record_of full_hand)))
    by (vm_compute; reflexivity).
  split; [exact E|]. exact (currency_is_a_sign full_hand _ E).
Defined.

Lemma table_from_first_eight_witness :
  _parse_one full_hand = Returned (Some (record_of full_hand))
  /\ take 8 (lines_of full_hand)
     = (["Game #12345 Hold'em 0.50/1.00 2024-01-02 03:04:05"]
          ++ "Table 'Alpha' -6max Seat #2 is the button"
          :: ["Seat 2: Bob ($100)"; "Seat 1: Al ($50.5)"; "Al: posts small blind $0.50";
              "Bob: posts big blind $1"; "*** HOLE CARDS ***"; "Dealt to Al [Ah Kd]"])%list
  /\ table_name (record_of full_hand) = Some "Alpha"
  /\ button_seat (record_of full_hand) = Some 2.
Proof.
  assert (E : _parse_one full_hand = Returned (Some (record_of full_hand)))
    by (vm_compute; reflexivity).
  assert (L : take 8 (lines_of full_hand)
     = (["Game #12345 Hold'em 0.50/1.00 2024-01-02 03:04:05"]
          ++ "Table 'Alpha' -6max Seat #2 is the button"
          :: ["Seat 2: Bob ($100)"; "Seat 1: Al ($50.5)"; "Al: posts small blind $0.50";
              "Bob: posts big blind $1"; "*** HOLE CARDS ***"; "Dealt to Al [Ah Kd]"])%list)
    by (vm_compute; reflexivity).
  split; [exact E|]. split; [exact L|].
  pose proof (table_from_first_eight full_hand _ E) as (_ & _ & T & _).
  assert (S : Re.search Patterns.table_btn "Table 'Alpha' -6max Seat #2 is the button"
              = Some (groups_of Patterns.table_btn
                        "Table 'Alpha' -6max Seat #2 is the button"))
    by (vm_compute; reflexivity).
  destruct (T _ _ _ _ L S) as (T1 & n & T2 & T3).
  { intros l Hl. revert l Hl. apply Forall_forall.
    repeat (apply Forall_cons_2; [vm_compute; reflexivity|]). apply Forall_nil_2. }
  split.
  - rewrite T1. vm_compute. reflexivity.
  - rewrite T3. f_equal. vm_compute in T2. now inversion T2.
Defined.

Lemma header_fallbacks_witness :
  _parse_one alt_header_chunk = Returned (Some (record_of alt_header_chunk))
  /\ lines_of alt_header_chunk = alt_header_chunk :: []
  /\ hand_id (record_of alt_header_chunk) = None
  /\ date_utc (record_of alt_header_chunk) = None.
Proof.
  assert (E : _parse_one alt_header_chunk = Returned (Some (record_of alt_header_chunk)))
    by (vm_compute; reflexivity).
  assert (L : lines_of alt_header_chunk = alt_header_chunk :: [])
    by (vm_compute; reflexivity).
  split; [exact E|]. split; [exact L|].
  refine (proj1 (proj2 (header_fallbacks alt_header_chunk _ _ _ E L)) _ _).
  - vm_compute. reflexivity.
  - eexists. vm_compute. reflexivity.
Defined.

Lemma amounts_are_parsed_witness :
  _parse_one full_hand = Returned (Some (record_of full_hand))
  /\ Forall (fun a => forall x, amount a = Some x -> parsed_amount x)
       (actions (record_of full_hand)).
Proof.
  assert (E : _parse_one full_hand = Returned (Some (record_of full_hand)))
    by (vm_compute; reflexivity).
  split; [exact E|].
  exact (proj1 (proj2 (proj2 (amounts_are_parsed full_hand _ E)))).
Defined.

Lemma segment_without_marker_witness :
  Forall (fun l => Str.contains HOLE_CARDS l = false) (Str.splitlines no_marker_text)
  /\ segment no_marker_text
     = match Str.splitlines no_marker_text with
       | [] => []
       | ls => [Str.strip (Str.join nl ls)]
       end.
Proof.
  assert (F : Forall (fun l => Str.contains HOLE_CARDS l = false)
                (Str.splitlines no_marker_text))
    by (vm_compute; repeat (apply Forall_cons_2; [reflexivity|]); apply Forall_nil_2).
  split; [exact F|]. exact (segment_without_marker no_marker_text F).
Defined.

Lemma betting_actions_rendered_witness :
  write_lines (record_of full_hand) = Returned (lines_of_record (record_of full_hand))
  /\ first_raise ∈ actions (record_of full_hand)
  /\ _format_action first_raise (cur_of (record_of full_hand)) = Some "Al: raises to $3.00"
  /\ "Al: raises to $3.00" ∈ lines_of_record (record_of full_hand).
Proof.
  assert (W : write_lines (record_of full_hand)
              = Returned (lines_of_record (record_of full_hand)))
    by (vm_compute; reflexivity).
  assert (A : first_raise ∈ actions (record_of full_hand))
    by (vm_compute; constructor).
  assert (F : _format_action first_raise (cur_of (record_of full_hand))
              = Some "Al: raises to $3.00") by (vm_compute; reflexivity).
  split; [exact W|]. split; [exact A|]. split; [exact F|].
  refine (betting_actions_rendered _ _ first_raise "Al: raises to $3.00" W A _ F _).
  - apply (bool_decide_unpack _). vm_compute. exact I.
  - discriminate.
Defined.

Lemma hero_iff_dealt_line_witness :
  _parse_one full_hand = Returned (Some (record_of full_hand))
  /\ (is_Some (hero (record_of full_hand)) <->
      exists ln, ln ∈ lines_of full_hand /\ is_dealt_line ln = true).
Proof.
  assert (E : _parse_one full_hand = Returned (Some (record_of full_hand)))
    by (vm_compute; reflexivity).
  split; [exact E|]. exact (proj1 (hero_iff_dealt_line full_hand _ E)).
Defined.


Lemma parsed_date_valid_witness :
  _try_parse_dt (Some "2024-01-02 03:04:05") = Some (Time.mk_datetime 2024 1 2 3 4 5)
  /\ valid_date (Time.mk_datetime 2024 1 2 3 4 5) = true.
Proof.
  assert (P : _try_parse_dt (Some "2024-01-02 03:04:05")
              = Some (Time.mk_datetime 2024 1 2 3 4 5)) by (vm_compute; reflexivity).
  split; [exact P|]. exact (parsed_date_valid _ _ P).
Defined.

Lemma amounts_to_the_cent_witness :
  Num.is_digits "6" = true /\ (String.length "6" <= 13)%nat
  /\ Str.all Str.is_digit "50" = true
  /\ Num.format_2f (safe_float (Some ("6" ++ "." ++ "50")) zero)
     = Num.Z_to_string (Num.digits_value "6" 0) ++ "." ++ "50".
Proof.
  assert (D : Num.is_digits "6" = true) by reflexivity.
  assert (L : (String.length "6" <= 13)%nat) by (simpl; lia).
  assert (F : Str.all Str.is_digit "50" = true) by reflexivity.
  split; [exact D|]. split; [exact L|]. split; [exact F|].
  exact (proj2 (proj2 (amounts_to_the_cent "6" "50" D L F)) eq_refl).
Defined.

Lemma summary_section_witness :
  write_lines (record_of full_hand) = Returned (lines_of_record (record_of full_hand))
  /\ (exists a, a ∈ actions (record_of full_hand) /\ verb a = "collected")
  /\ "*** SUMMARY ***" ∈ lines_of_record (record_of full_hand).
Proof.
  assert (W : write_lines (record_of full_hand)
              = Returned (lines_of_record (record_of full_hand)))
    by (vm_compute; reflexivity).
  assert (A : exists a, a ∈ actions (record_of full_hand) /\ verb a = "collected").
  { exists (mk_Action "SUMMARY" "Al" "collected" (Some (safe_float (Some "6.50") zero))
              None None "Al collected $6.50").
    split; [|reflexivity]. vm_compute. repeat constructor. }
  split; [exact W|]. split; [exact A|].
  exact (proj1 (summary_section _ _ W A)).
Defined.
